(** * express-cassandra: the model layer ([lib/orm/base_model.js])

    A shallow embedding of the static side of [BaseModel]: schema
    synchronisation ([_sync_model_definition], [syncDB], [init]), the
    statement builders ([get_find_query], [update], [delete], [save]) and
    the finders ([find], [findOne]).

    The JavaScript is callback driven.  A callback is embedded as a
    continuation; every call that leaves [base_model.js] (table builder,
    driver, search and graph builders, schema hooks, the caller's own
    callback) is a command of a small free monad, answered by a [World]
    and recorded in a trace.  The helpers that live in other files of the
    repository ([utils/parser], [utils/normalizer], [apollo_error]) are
    gathered in the class [Lib] and stay parameters. *)

From Stdlib Require Import ZArith Ascii String List.
From stdpp Require Import base option list strings pretty gmap.

Local Open Scope string_scope.
Local Open Scope list_scope.
Local Set Warnings "-register-all".

(** ** JavaScript values *)

(** Numbers are kept to the integers; an object is the ordered list of its
    own properties ([Object.keys] order matters to the statement
    builders); a function value is opaque and named. *)
Inductive Value : Type :=
| VUndefined
| VNull
| VBool (b : bool)
| VNum (n : Z)
| VStr (s : string)
| VArr (items : list Value)
| VObj (props : list (string * Value))
| VFun (name : string).

Definition Obj : Type := list (string * Value).

(** [ToBoolean]: what an [if (v)] or a [!v] looks at. *)
Definition truthy (v : Value) : bool :=
  match v with
  | VUndefined | VNull => false
  | VBool b => b
  | VNum n => negb (n =? 0)%Z
  | VStr s => negb (String.eqb s EmptyString)
  | VArr _ | VObj _ | VFun _ => true
  end.

(** [v === false], [v === true], [v === 'text']. *)
Definition is_false (v : Value) : bool :=
  match v with VBool false => true | _ => false end.

Definition is_true (v : Value) : bool :=
  match v with VBool true => true | _ => false end.

Definition is_str (s : string) (v : Value) : bool :=
  match v with VStr t => String.eqb t s | _ => false end.

(** [typeof v === 'function'], [_.isArray(v)], [_.isNumber(v)]. *)
Definition is_function (v : Value) : bool :=
  match v with VFun _ => true | _ => false end.

Definition isArray (v : Value) : bool :=
  match v with VArr _ => true | _ => false end.

Definition isNumber (v : Value) : bool :=
  match v with VNum _ => true | _ => false end.

(** Property read [o.k], write [o.k = v] and [delete o.k] on the property
    list.  A write to an existing property keeps its position, a new
    property goes last. *)
Fixpoint obj_get (k : string) (o : Obj) : Value :=
  match o with
  | [] => VUndefined
  | (k', v) :: rest => if String.eqb k' k then v else obj_get k rest
  end.

Fixpoint obj_set (k : string) (v : Value) (o : Obj) : Obj :=
  match o with
  | [] => [(k, v)]
  | (k', v') :: rest =>
      if String.eqb k' k then (k', v) :: rest else (k', v') :: obj_set k v rest
  end.

Fixpoint obj_delete (k : string) (o : Obj) : Obj :=
  match o with
  | [] => []
  | (k', v') :: rest =>
      if String.eqb k' k then obj_delete k rest else (k', v') :: obj_delete k rest
  end.

(** [v.k] for an arbitrary value: only objects carry properties here. *)
Definition prop (k : string) (v : Value) : Value :=
  match v with VObj o => obj_get k o | _ => VUndefined end.

(** [_.isEqual]: deep comparison; property order is irrelevant. *)
Fixpoint isEqual (a b : Value) {struct a} : bool :=
  match a, b with
  | VUndefined, VUndefined => true
  | VNull, VNull => true
  | VBool x, VBool y => Bool.eqb x y
  | VNum x, VNum y => (x =? y)%Z
  | VStr x, VStr y => String.eqb x y
  | VFun x, VFun y => String.eqb x y
  | VArr xs, VArr ys =>
      (fix items (xs ys : list Value) {struct xs} : bool :=
         match xs, ys with
         | [], [] => true
         | x :: xs', y :: ys' => isEqual x y && items xs' ys'
         | _, _ => false
         end) xs ys
  | VObj ps, VObj qs =>
      (length ps =? length qs)%nat &&
      (fix own (ps : Obj) {struct ps} : bool :=
         match ps with
         | [] => true
         | (k, v) :: ps' =>
             match list_find (fun q => String.eqb (fst q) k) qs with
             | Some (_, (_, w)) => isEqual v w
             | None => false
             end && own ps'
         end) ps
  | _, _ => false
  end.

(** ** Errors *)

(** [JsError m] is [new Error(m)] as a collaborator raises it;
    [ApolloError kind args cause] is [buildError(kind, ...)], kept
    symbolic: the templates of [apollo_error.js] are not part of this
    file. *)
Inductive Error : Type :=
| JsError (message : string)
| ApolloError (kind : string) (args : list string) (cause : option Error).

Definition buildError (kind : string) (args : list string) : Error :=
  ApolloError kind args None.

Definition buildErrorFrom (kind : string) (cause : Error) : Error :=
  ApolloError kind [] (Some cause).

(** ** [util.format] *)

Definition dq : string := String "034"%char EmptyString.

(** Only the [%s] directive occurs in [base_model.js].  Arguments left
    over are appended, separated by blanks, as Node does. *)
Fixpoint format_rest (args : list string) : string :=
  match args with
  | [] => EmptyString
  | a :: rest => " " +:+ a +:+ format_rest rest
  end.

Fixpoint format (fmt : string) (args : list string) : string :=
  match fmt with
  | EmptyString => format_rest args
  | String c rest =>
      match rest with
      | String d rest' =>
          if (Ascii.eqb c "%"%char && Ascii.eqb d "s"%char)%bool then
            match args with
            | a :: args' => a +:+ format rest' args'
            | [] => String c (String d (format rest' []))
            end
          else String c (format rest args)
      | EmptyString => String c (format_rest args)
      end
  end.

Fixpoint join (sep : string) (parts : list string) : string :=
  match parts with
  | [] => EmptyString
  | [p] => p
  | p :: rest => p +:+ sep +:+ join sep rest
  end.

(** [String(v)], as [%s] renders an argument.  What Node prints for an
    array, an object or a function is left to [inspect].  Numbers are
    integers printed in full; the exponent notation Node turns to from
    [1e21] on is not modelled. *)
Definition to_s (inspect : Value -> string) (v : Value) : string :=
  match v with
  | VStr s => s
  | VNum n => pretty n
  | VBool true => "true"
  | VBool false => "false"
  | VNull => "null"
  | VUndefined => "undefined"
  | VArr _ | VObj _ | VFun _ => inspect v
  end.

(** ** Callbacks, commands and programs *)

(** The arguments a Node-style callback is called with: [cb()],
    [cb(err)] or [cb(err, value)]; [None] is a falsy first argument. *)
Inductive CbArgs : Type :=
| Cb0
| Cb1 (err : option Error)
| Cb2 (err : option Error) (value : Value).

Definition cb_err (a : CbArgs) : option Error :=
  match a with Cb0 => None | Cb1 e => e | Cb2 e _ => e end.

Definition cb_value (a : CbArgs) : Value :=
  match a with Cb2 _ v => v | _ => VUndefined end.

(** Every call that leaves [base_model.js]. *)
Inductive Cmd : Type :=
(* builders/table *)
| get_table_schema
| create_table (modelSchema : Value)
| init_alter_operations (modelSchema dbSchema normalizedModelSchema normalizedDBSchema : Value)
| drop_recreate_table (modelSchema materializedViews : Value)
| create_indexes (indexes : Value)
| create_custom_indexes (customIndexes : Value)
| create_mviews (views : Value)
| promise_all (settled : list (option Error))
(* builders/elassandra, builders/janusgraph *)
| assert_index (keyspaceName indexName : string)
| put_mapping (indexName mappingName : string) (mapping : Value)
| assert_graph (graphName : string)
| put_graph_mapping (graphName mappingName : string) (mapping : Value)
(* helpers/driver *)
| execute_query (query : string) (params : list Value) (options : Value)
| execute_eachRow (query params options : Value)
| execute_stream (query params options : Value)
(* a function of the application called with values: hooks, onReadable *)
| apply_function (name : string) (args : list Value)
(* a function of the application, the callback it passed included *)
| user_callback (name : string) (args : CbArgs)
| uncaught (e : Error).

(** What each command answers.  [promise_all] is answered with the index
    of the task whose rejection was seen first; a function of the
    application with what it returns and with its arguments as it leaves
    them, since it is handed the caller's objects and may write to them. *)
Definition Resp (c : Cmd) : Type :=
  match c with
  | get_table_schema => (option Error * Value)%type
  | create_table _ | init_alter_operations _ _ _ _ | drop_recreate_table _ _
  | create_indexes _ | create_custom_indexes _ | create_mviews _ => option Error
  | promise_all _ => nat
  | assert_index _ _ | assert_graph _ => option Error
  | put_mapping _ _ _ | put_graph_mapping _ _ _ => CbArgs
  | execute_query _ _ _ => (option Error * Value)%type
  | execute_eachRow _ _ _ => (list Value * (option Error * Value))%type
  | execute_stream _ _ _ => (list Value * option Error)%type
  | apply_function _ _ => (Value * list Value)%type
  | user_callback _ _ | uncaught _ => unit
  end.

(** The mutable state a static call can touch: the [_ready] property of
    the model constructor and the objects the caller handed over by
    reference. *)
Record ModelState : Type := {
  _ready : Value;
  heap : gmap positive Obj
}.

(** A program returns, throws, issues a command and goes on with its
    answer, or reads or updates the model state. *)
Inductive Prog (A : Type) : Type :=
| Ret (a : A)
| Throw (e : Error)
| Call (c : Cmd) (k : Resp c -> Prog A)
| Load (k : ModelState -> Prog A)
| Modify (f : ModelState -> ModelState) (k : Prog A).

Arguments Ret {A} a.
Arguments Throw {A} e.
Arguments Call {A} c k.
Arguments Load {A} k.
Arguments Modify {A} f k.

Fixpoint bind {A B : Type} (p : Prog A) (f : A -> Prog B) : Prog B :=
  match p with
  | Ret a => f a
  | Throw e => Throw e
  | Call c k => Call c (fun r => bind (k r) f)
  | Load k => Load (fun s => bind (k s) f)
  | Modify g k => Modify g (bind k f)
  end.

(** [try { p } catch (e) { h e }] *)
Fixpoint catch {A : Type} (p : Prog A) (h : Error -> Prog A) : Prog A :=
  match p with
  | Ret a => Ret a
  | Throw e => h e
  | Call c k => Call c (fun r => catch (k r) h)
  | Load k => Load (fun s => catch (k s) h)
  | Modify g k => Modify g (catch k h)
  end.

#[export] Instance prog_ret : MRet Prog := fun A a => Ret a.
#[export] Instance prog_bind : MBind Prog := fun A B f p => bind p f.

Definition call (c : Cmd) : Prog (Resp c) := Call c Ret.

(** The body of a callback that a collaborator runs later, on its own
    stack: what it throws reaches nobody and ends up with the process. *)
Definition later (p : Prog unit) : Prog unit :=
  catch p (fun e => call (uncaught e)).

(** The collaborators: an answer to every command, which may depend on
    what has been called so far. *)
Definition World : Type := list Cmd -> forall c : Cmd, Resp c.

Record Run (A : Type) : Type := {
  outcome : Error + A;
  final : ModelState;
  trace : list Cmd
}.

Arguments outcome {A} r.
Arguments final {A} r.
Arguments trace {A} r.

Fixpoint exec {A : Type} (w : World) (p : Prog A) (s : ModelState) (tr : list Cmd) : Run A :=
  match p with
  | Ret a => {| outcome := inr a; final := s; trace := tr |}
  | Throw e => {| outcome := inl e; final := s; trace := tr |}
  | Call c k => exec w (k (w tr c)) s (tr ++ [c])
  | Load k => exec w (k s) s tr
  | Modify g k => exec w k (g s) tr
  end.

Definition run {A : Type} (w : World) (p : Prog A) (s : ModelState) : Run A :=
  exec w p s [].

(** ** Arguments of the public functions *)

(** The functions juggle with their arguments ([arguments.length],
    [typeof options === 'function']), so an argument is kept as what was
    passed: nothing, a value, or a function written in [base_model.js]
    itself.  A function of the application is the value [VFun name];
    calling it is the command [user_callback name]. *)
Inductive Arg : Type :=
| Missing
| Val (v : Value)
| Fn (f : CbArgs -> Prog unit).

Definition arg_is_function (a : Arg) : bool :=
  match a with
  | Fn _ => true
  | Val v => is_function v
  | Missing => false
  end.

Definition arg_truthy (a : Arg) : bool :=
  match a with
  | Fn _ => true
  | Val v => truthy v
  | Missing => false
  end.

Definition type_error (what : string) : Error := JsError ("TypeError: " +:+ what).

(** [callback(args)] *)
Definition invoke (callback : Arg) (args : CbArgs) : Prog unit :=
  match callback with
  | Fn f => f args
  | Val (VFun name) => call (user_callback name args)
  | _ => Throw (type_error "callback is not a function")
  end.

(** [options.k], which throws when [options] is [undefined] or [null]. *)
Definition arg_prop (k : string) (a : Arg) : Prog Value :=
  match a with
  | Val (VObj o) => Ret (obj_get k o)
  | Missing | Val VUndefined | Val VNull =>
      Throw (type_error ("Cannot read property '" +:+ k +:+ "' of undefined"))
  | _ => Ret VUndefined
  end.

(** [_.defaultsDeep(options, defaults)] for the flat defaults used here: a
    property that resolves to [undefined] takes the default; anything that
    is not an object starts from nothing. *)
Definition defaultsDeep (options : Arg) (defaults : Obj) : Obj :=
  let target := match options with Val (VObj o) => o | _ => [] end in
  fold_left
    (fun acc d =>
       match obj_get (fst d) acc with
       | VUndefined => obj_set (fst d) (snd d) acc
       | _ => acc
       end)
    defaults target.

(** Modelled from the spec: [parser.callback_or_throw], of
    [utils/parser.js]: "if a callback was supplied, the error is delivered
    to it; if not, it is raised synchronously". *)
Definition callback_or_throw (e : Error) (callback : Arg) : Prog unit :=
  if arg_is_function callback then invoke callback (Cb1 (Some e)) else Throw e.

(** A function of another module that can throw answers in [Error + _];
    [x ← f; ...] goes on with the value and stops at the first error. *)
#[export] Instance result_ret : MRet (sum Error) := fun A a => inr a.
#[export] Instance result_bind : MBind (sum Error) :=
  fun A B f r => match r with inl e => inl e | inr a => f a end.

(** ** The modules [base_model.js] requires *)

(** A clause of the parser: its text and the values bound to its [?]. *)
Record Clause : Type := {
  query : string;
  params : list Value
}.

(** [apollo_error.js], [utils/normalizer.js] and [utils/parser.js] are other
    files of the package.  Their functions are parameters of the
    development.

    [get_update_value_expression] and [get_save_value_expression] are given
    the callback and report a failure themselves: the answer [inl e] stands
    for a call that passed [e] to [callback_or_throw] and came back with
    [errorHappened] set.  [new_instance] is [new ModelConstructor(row)], the
    constructor found through [_properties.get_constructor]. *)
Class Lib : Type := {
  error_message : string -> list string -> option Error -> string;
  inspect : Value -> string;
  normalize_model_schema : Value -> Error + Value;
  normalize_query_option : Obj -> Obj;
  get_orderby_clause : Obj -> Error + string;
  get_limit_clause : Obj -> Error + string;
  get_where_clause : Value -> Obj -> Error + Clause;
  get_select_clause : Obj -> Error + string;
  get_groupby_clause : Obj -> Error + string;
  get_if_clause : Value -> Value -> Error + Clause;
  get_update_value_expression : Value -> Value -> Error + (list string * list Value);
  get_save_value_expression : Value -> Value -> Error + (list string * list string * list Value);
  new_instance : Value -> Value
}.

(** [e.message] *)
Definition message `{Lib} (e : Error) : string :=
  match e with
  | JsError m => m
  | ApolloError kind args cause => error_message kind args cause
  end.

(** The [_properties] of a model, as [Apollo.addModel] fills them in and
    [_set_properties] completes them. *)
Record Properties : Type := {
  name : string;
  schema : Value;
  keyspace : string;
  table_name : string;
  qualified_table_name : string;
  migration : Value;
  dropTableOnSchemaChange : Value;
  createTable : Value;
  esclient : Value;
  gremlin_client : Value
}.

Definition set_ready (v : Value) (s : ModelState) : ModelState :=
  {| _ready := v; heap := heap s |}.

Definition set_object (l : positive) (o : Obj) (s : ModelState) : ModelState :=
  {| _ready := _ready s; heap := <[l := o]> (heap s) |}.

Definition lift {A : Type} (r : Error + A) : Prog A :=
  match r with
  | inl e => Throw e
  | inr a => Ret a
  end.

(** [arguments.length] counts what was passed, an explicit [undefined]
    included: an argument handed on to another function is never missing. *)
Definition passed (a : Arg) : Arg :=
  match a with
  | Missing => Val VUndefined
  | _ => a
  end.

Definition is_missing (a : Arg) : bool :=
  match a with
  | Missing => true
  | _ => false
  end.

(** ** What a callee can do to its arguments *)

(** A function is handed its arguments by reference: it can change the
    content of an object or of an array, not which value the caller
    holds.  [touched old new] is what the caller holds after the call
    when the callee reports [new] for an argument that was [old]. *)
Definition touched (old new : Value) : Value :=
  match old, new with
  | VObj _, VObj o => VObj o
  | VArr _, VArr items => VArr items
  | _, _ => old
  end.

(** The arguments after the call; what the callee does not report is as
    it was. *)
Fixpoint handed_back (args left : list Value) : list Value :=
  match args, left with
  | a :: args', l :: left' => touched a l :: handed_back args' left'
  | _, _ => args
  end.

(** The object, or the value, at a position of the arguments. *)
Definition object_at (i : nat) (left : list Value) (old : Obj) : Obj :=
  match left !! i with
  | Some (VObj o) => o
  | _ => old
  end.

Definition value_at (i : nat) (left : list Value) (old : Value) : Value :=
  default old (left !! i).

(** ** Schema synchronisation *)

Section Model.
Context `{Lib}.

(** [process.env] and [this._properties] *)
Variable process_env : Obj.
Variable properties : Properties.

(** Lines 122-131: the policy [_sync_model_definition] works with. *)
Definition migration_policy : Value :=
  let migration := migration properties in
  let migration :=
    if negb (truthy migration) then
      if truthy (dropTableOnSchemaChange properties) then VStr "drop" else VStr "safe"
    else migration in
  if is_str "production" (obj_get "NODE_ENV" process_env) then VStr "safe" else migration.

(** [Promise.all] rejects with the rejection it sees first; [first] is the
    index the scheduler answered, and without a rejection at that index
    the earliest one of the list stands. *)
Definition rejection (first : nat) (settled : list (option Error)) : option Error :=
  match settled !! first with
  | Some (Some e) => Some e
  | _ => match list_find is_Some settled with
         | Some (_, r) => r
         | None => None
         end
  end.

(** One promisified builder call pushed on [indexingTasks]. *)
Definition task (wanted : bool) (c : Cmd) (settle : Resp c -> option Error)
  : Prog (list (option Error)) :=
  if wanted then r ← call c; Ret [settle r] else Ret [].

Definition afterDBCreate (callback : Arg) (err1 : option Error) : Prog unit :=
  let modelSchema := schema properties in
  match err1 with
  | Some e => invoke callback (Cb1 (Some e))
  | None =>
      t1 ← task (isArray (prop "indexes" modelSchema))
             (create_indexes (prop "indexes" modelSchema)) id;
      t2 ← task (isArray (prop "custom_indexes" modelSchema))
             (create_custom_indexes (prop "custom_indexes" modelSchema)) id;
      t3 ← task (truthy (prop "custom_index" modelSchema))
             (create_custom_indexes (VArr [prop "custom_index" modelSchema])) id;
      t4 ← task (truthy (prop "materialized_views" modelSchema))
             (create_mviews (prop "materialized_views" modelSchema)) id;
      let indexingTasks := t1 ++ t2 ++ t3 ++ t4 in
      first ← call (promise_all indexingTasks);
      later
        match rejection first indexingTasks with
        | None => invoke callback (Cb2 None (VBool true))
        | Some err2 => invoke callback (Cb1 (Some err2))
        end
  end.

(** [tableBuilder.drop_recreate_table(modelSchema,
    normalizedDBSchema.materialized_views, afterDBCreate)] *)
Definition drop_recreate (normalizedDBSchema : Value) (callback : Arg) : Prog unit :=
  err ← call (drop_recreate_table (schema properties)
                (prop "materialized_views" normalizedDBSchema));
  later (afterDBCreate callback err).

Definition _sync_model_definition (callback : Arg) : Prog unit :=
  let tableName := table_name properties in
  let modelSchema := schema properties in
  let migration := migration_policy in
  '(err, dbSchema) ← call get_table_schema;
  later
    match err with
    | Some e => invoke callback (Cb1 (Some e))
    | None =>
        if negb (truthy dbSchema) then
          if is_false (createTable properties) then
            invoke callback
              (Cb1 (Some (buildError "model.tablecreation.schemanotfound" [tableName])))
          else
            err1 ← call (create_table modelSchema);
            later (afterDBCreate callback err1)
        else
          match normalize_model_schema modelSchema, normalize_model_schema dbSchema with
          | inl e, _ | inr _, inl e =>
              Throw (buildError "model.validator.invalidschema" [message e])
          | inr normalizedModelSchema, inr normalizedDBSchema =>
              if isEqual normalizedModelSchema normalizedDBSchema then
                invoke callback (Cb2 None (VBool false))
              else if is_str "alter" migration then
                if isEqual (prop "key" normalizedModelSchema) (prop "key" normalizedDBSchema)
                   && isEqual (prop "clustering_order" normalizedModelSchema)
                              (prop "clustering_order" normalizedDBSchema)
                then
                  err1 ← call (init_alter_operations modelSchema dbSchema
                                 normalizedModelSchema normalizedDBSchema);
                  later
                    match err1 with
                    | Some e =>
                        if String.eqb (message e) "alter_impossible"
                        then drop_recreate normalizedDBSchema callback
                        else invoke callback (Cb1 err1)
                    | None => invoke callback (Cb1 err1)
                    end
                else drop_recreate normalizedDBSchema callback
              else if is_str "drop" migration then
                drop_recreate normalizedDBSchema callback
              else
                invoke callback
                  (Cb1 (Some (buildError "model.tablecreation.schemamismatch"
                                [tableName;
                                 "migration suspended, please apply the change manually"])))
          end
    end.

Definition _sync_es_index (callback : Arg) : Prog unit :=
  if truthy (esclient properties) && truthy (prop "es_index_mapping" (schema properties)) then
    let keyspaceName := keyspace properties in
    let mappingName := table_name properties in
    let indexName := keyspaceName +:+ "_" +:+ mappingName in
    err ← call (assert_index keyspaceName indexName);
    later
      match err with
      | Some e => invoke callback (Cb1 (Some e))
      | None =>
          args ← call (put_mapping indexName mappingName
                         (prop "es_index_mapping" (schema properties)));
          later (invoke callback args)
      end
  else invoke callback Cb0.

Definition _sync_graph (callback : Arg) : Prog unit :=
  if truthy (gremlin_client properties) && truthy (prop "graph_mapping" (schema properties)) then
    let graphName := keyspace properties +:+ "_graph" in
    let mappingName := table_name properties in
    err ← call (assert_graph graphName);
    later
      match err with
      | Some e => invoke callback (Cb1 (Some e))
      | None =>
          args ← call (put_graph_mapping graphName mappingName
                         (prop "graph_mapping" (schema properties)));
          later (invoke callback args)
      end
  else invoke callback Cb0.

(** ** Readiness *)

Definition is_table_ready : Prog bool :=
  Load (fun s => Ret (is_true (_ready s))).

Definition init (options callback : Arg) : Prog unit :=
  let callback := if negb (arg_truthy callback) then options else callback in
  Modify (set_ready (VBool true)) (invoke callback Cb0).

Definition syncDB (callback : Arg) : Prog unit :=
  _sync_model_definition (Fn (fun args =>
    match cb_err args with
    | Some err => invoke callback (Cb1 (Some err))
    | None =>
        let result := cb_value args in
        _sync_es_index (Fn (fun args1 =>
          match cb_err args1 with
          | Some err1 => invoke callback (Cb1 (Some err1))
          | None =>
              _sync_graph (Fn (fun args2 =>
                match cb_err args2 with
                | Some err2 => invoke callback (Cb1 (Some err2))
                | None =>
                    Modify (set_ready (VBool true)) (invoke callback (Cb2 None result))
                end))
          end))
    end)).

(** [execute_query] hands everything to the driver, which calls back later. *)
Definition doExecuteQuery (q : string) (ps : list Value) (options : Obj)
    (callback : Arg) : Prog unit :=
  '(err, results) ← call (execute_query q ps (VObj options));
  later (invoke callback (Cb2 err results)).

(** Called with three arguments, the third one is the callback. *)
Definition _execute_table_query (q : string) (ps : list Value)
    (options callback : Arg) : Prog unit :=
  let three := is_missing callback in
  let callback := if three then options else callback in
  let options := if three then Val (VObj []) else options in
  let options := defaultsDeep options [("prepare", VBool true)] in
  ready ← is_table_ready;
  if ready : bool then doExecuteQuery q ps options callback
  else
    init (Fn (fun args =>
                match cb_err args with
                | Some err => invoke callback (Cb1 (Some err))
                | None => doExecuteQuery q ps options callback
                end)) Missing.

(** ** Statements *)

(** [BaseModel.get_find_query]; the clauses are asked for in the order of
    the source, so the first one that throws decides. *)
Definition get_find_query (queryObject options : Obj) : Error + Clause :=
  orderbyClause ← get_orderby_clause queryObject;
  limitClause ← get_limit_clause queryObject;
  whereClause ← get_where_clause (schema properties) queryObject;
  selectClause ← get_select_clause options;
  groupbyClause ← get_groupby_clause options;
  let q :=
    format ("SELECT %s%s FROM " +:+ dq +:+ "%s" +:+ dq)
      [ (if truthy (obj_get "distinct" options) then "DISTINCT " else EmptyString);
        selectClause;
        (if truthy (obj_get "materialized_view" options)
         then to_s inspect (obj_get "materialized_view" options)
         else table_name properties) ] in
  let q := if negb (String.eqb (query whereClause) EmptyString)
           then q +:+ format " %s" [query whereClause] else q in
  let q := if negb (String.eqb orderbyClause EmptyString)
           then q +:+ format " %s" [orderbyClause] else q in
  let q := if negb (String.eqb groupbyClause EmptyString)
           then q +:+ format " %s" [groupbyClause] else q in
  let q := if negb (String.eqb limitClause EmptyString)
           then q +:+ format " %s" [limitClause] else q in
  let q := if truthy (obj_get "allow_filtering" options)
           then q +:+ " ALLOW FILTERING" else q in
  let q := q +:+ ";" in
  inr {| query := q; params := params whereClause |}.

(** [typeof callback !== 'function' && !options.return_query] *)
Definition require_callback (callback options : Arg) : Prog unit :=
  if arg_is_function callback then Ret tt
  else
    return_query ← arg_prop "return_query" options;
    if truthy return_query then Ret tt else Throw (buildError "model.find.cberror" []).

(** [results.rows], and what [map] does to one row. *)
Definition rows_of (results : Value) : Error + list Value :=
  match prop "rows" results with
  | VArr rows => inr rows
  | _ => inl (type_error "Cannot read property 'map' of undefined")
  end.

Definition delete_columns (res : Value) : Error + Value :=
  match res with
  | VObj o => inr (VObj (obj_delete "columns" o))
  | VUndefined | VNull => inl (type_error "Cannot convert undefined or null to object")
  | _ => inr res
  end.

Definition set_prop (k : string) (v : Value) (target : Value) : Value :=
  match target with
  | VObj o => VObj (obj_set k v o)
  | _ => target
  end.

Definition as_model (raw : bool) (res : Value) : Error + Value :=
  res ← delete_columns res;
  inr (if raw then res else set_prop "_modified" (VObj []) (new_instance res)).

Definition query_object (q : string) (ps : list Value) : Obj :=
  [("query", VStr q); ("params", VArr ps)].

(** Lines 753-762: the options [find] works with. *)
Definition find_options (options : Arg) : Obj :=
  let options := defaultsDeep options [("raw", VBool false); ("prepare", VBool true)] in
  if truthy (obj_get "select" options) then obj_set "raw" (VBool true) options else options.

(** The query object lives on the heap: [find] reads it when the statement
    is built.  A reference that holds nothing stands for a caller that
    passed no object. *)
Definition find (queryObject : positive) (options callback : Arg) : Prog Value :=
  let swap := is_missing callback && arg_is_function options in
  let callback := if swap then options else callback in
  let options := if swap then Val (VObj []) else options in
  require_callback callback options;;
  let options := find_options options in
  Load (fun s =>
    let built :=
      match heap s !! queryObject with
      | Some o => get_find_query o options
      | None => inl (type_error "Cannot convert undefined or null to object")
      end in
    match built with
    | inl e => callback_or_throw e callback;; Ret (VObj [])
    | inr findQuery =>
        let queryParams := [] ++ params findQuery in
        if truthy (obj_get "return_query" options) then
          Ret (VObj (query_object (query findQuery) queryParams))
        else
          let queryOptions := normalize_query_option options in
          _execute_table_query (query findQuery) queryParams (Val (VObj queryOptions))
            (Fn (fun args =>
               match cb_err args with
               | Some err =>
                   invoke callback (Cb1 (Some (buildErrorFrom "model.find.dberror" err)))
               | None =>
                   rows ← lift (rows_of (cb_value args));
                   results ← lift (mapM (as_model (truthy (obj_get "raw" options))) rows);
                   invoke callback (Cb2 None (VArr results))
               end));;
          Ret (VObj [])
    end).

(** [results.length > 0], then [results[0]] *)
Definition first_result (results : Value) : Error + option Value :=
  match results with
  | VArr (r :: _) => inr (Some r)
  | VArr [] => inr None
  | VUndefined | VNull => inl (type_error "Cannot read property 'length' of undefined")
  | _ => inr None
  end.

Definition set_limit (queryObject : positive) (o : Obj) : ModelState -> ModelState :=
  set_object queryObject (obj_set "$limit" (VNum 1) o).

(** The function [findOne] hands to [find]. *)
Definition findOne_result (callback : Arg) (args : CbArgs) : Prog unit :=
  match cb_err args with
  | Some err => invoke callback (Cb1 (Some err))
  | None =>
      first ← lift (first_result (cb_value args));
      match first with
      | Some r => invoke callback (Cb2 None r)
      | None => invoke callback Cb0
      end
  end.

Definition findOne (queryObject : positive) (options callback : Arg) : Prog Value :=
  let swap := is_missing callback && arg_is_function options in
  let callback := if swap then options else callback in
  let options := if swap then Val (VObj []) else options in
  require_callback callback options;;
  Load (fun s =>
    match heap s !! queryObject with
    | None => Throw (type_error "Cannot set property '$limit' of undefined")
    | Some o =>
        Modify (set_limit queryObject o)
          (find queryObject (passed options) (Fn (findOne_result callback)))
    end).

(** [typeof schema.h === 'function' && schema.h(...) === false]; the
    hook is handed the caller's objects, and the second component gives
    them as the hook leaves them. *)
Definition hook_rejects (h : string) (args : list Value) : Prog (bool * list Value) :=
  match prop h (schema properties) with
  | VFun f =>
      answer ← call (apply_function f args);
      Ret (is_false (fst answer), handed_back args (snd answer))
  | _ => Ret (false, args)
  end.

(** The function given to [_execute_table_query] by [update] and
    [delete]: [op] names the operation in the error kinds. *)
Definition after_execute (op : string) (hook_args : list Value) (callback : Arg)
    (args : CbArgs) : Prog unit :=
  let err := cb_err args in
  if arg_is_function callback then
    match err with
    | Some e => invoke callback (Cb1 (Some (buildErrorFrom ("model." +:+ op +:+ ".dberror") e)))
    | None =>
        hooked ← hook_rejects ("after_" +:+ op) hook_args;
        if fst (hooked : bool * list Value)
        then invoke callback (Cb1 (Some (buildError ("model." +:+ op +:+ ".after.error") [])))
        else invoke callback (Cb2 None (cb_value args))
    end
  else
    match err with
    | Some e => Throw (buildErrorFrom ("model." +:+ op +:+ ".dberror") e)
    | None =>
        hooked ← hook_rejects ("after_" +:+ op) hook_args;
        if fst (hooked : bool * list Value)
        then Throw (buildError ("model." +:+ op +:+ ".after.error") [])
        else Ret tt
    end.

(** The object returned under [return_query]. *)
Definition return_object (q : string) (ps : list Value) : Value :=
  VObj (query_object q ps ++ [("after_hook", VFun "after_hook")]).

Definition update (queryObject : Obj) (updateValues : Value) (options callback : Arg)
  : Prog Value :=
  let swap := is_missing callback && arg_is_function options in
  let callback := if swap then options else callback in
  let options := if swap then Val (VObj []) else options in
  let schema := schema properties in
  let options := defaultsDeep options [("prepare", VBool true)] in
  hooked ← hook_rejects "before_update" [VObj queryObject; updateValues; VObj options];
  if fst (hooked : bool * list Value) then
    callback_or_throw (buildError "model.update.before.error" []) callback;;
    Ret (VObj [])
  else
    (* the caller's objects, as the hook has left them *)
    let queryObject := object_at 0 (snd hooked) queryObject in
    let updateValues := value_at 1 (snd hooked) updateValues in
    let options := object_at 2 (snd hooked) options in
    let hook_args := [VObj queryObject; updateValues; VObj options] in
    match get_update_value_expression schema updateValues with
    | inl e => callback_or_throw e callback;; Ret (VObj [])
    | inr (updateClauses, queryParams) =>
        let q := "UPDATE " +:+ dq +:+ "%s" +:+ dq in
        let finalParams := queryParams in
        let ttl := isNumber (obj_get "ttl" options) in
        let q := if ttl then q +:+ " USING TTL ?" else q in
        let finalParams := if ttl then [obj_get "ttl" options] ++ finalParams
                           else finalParams in
        let q := q +:+ " SET %s %s" in
        match get_where_clause schema queryObject with
        | inl e => callback_or_throw e callback;; Ret (VObj [])
        | inr whereClause =>
            let finalParams := finalParams ++ params whereClause in
            let q := format q [table_name properties; join ", " updateClauses;
                               query whereClause] in
            conditional ←
              (if truthy (obj_get "conditions" options) then
                 ifClause ← lift (get_if_clause schema (obj_get "conditions" options));
                 Ret (if negb (String.eqb (query ifClause) EmptyString)
                      then (q +:+ format " %s" [query ifClause],
                            finalParams ++ params ifClause)
                      else (q, finalParams))
               else if truthy (obj_get "if_exists" options)
                    then Ret (q +:+ " IF EXISTS", finalParams)
                    else Ret (q, finalParams));
            let q := fst conditional +:+ ";" in
            let finalParams : list Value := snd conditional in
            if truthy (obj_get "return_query" options) then
              Ret (return_object q finalParams)
            else
              let queryOptions := normalize_query_option options in
              _execute_table_query q finalParams (Val (VObj queryOptions))
                (Fn (after_execute "update" hook_args callback));;
              Ret (VObj [])
        end
    end.

Definition delete (queryObject : Obj) (options callback : Arg) : Prog Value :=
  let swap := is_missing callback && arg_is_function options in
  let callback := if swap then options else callback in
  let options := if swap then Val (VObj []) else options in
  let schema := schema properties in
  let options := defaultsDeep options [("prepare", VBool true)] in
  hooked ← hook_rejects "before_delete" [VObj queryObject; VObj options];
  if fst (hooked : bool * list Value) then
    callback_or_throw (buildError "model.delete.before.error" []) callback;;
    Ret (VObj [])
  else
    let queryObject := object_at 0 (snd hooked) queryObject in
    let options := object_at 1 (snd hooked) options in
    let hook_args := [VObj queryObject; VObj options] in
    match get_where_clause schema queryObject with
    | inl e => callback_or_throw e callback;; Ret (VObj [])
    | inr whereClause =>
        let queryParams := [] ++ params whereClause in
        let q := format ("DELETE FROM " +:+ dq +:+ "%s" +:+ dq +:+ " %s;")
                   [table_name properties; query whereClause] in
        if truthy (obj_get "return_query" options) then
          Ret (return_object q queryParams)
        else
          let queryOptions := normalize_query_option options in
          _execute_table_query q queryParams (Val (VObj queryOptions))
            (Fn (after_execute "delete" hook_args callback));;
          Ret (VObj [])
    end.

Definition truncate (callback : Arg) : Prog unit :=
  let q := format ("TRUNCATE TABLE " +:+ dq +:+ "%s" +:+ dq +:+ ";") [table_name properties] in
  _execute_table_query q [] (passed callback) Missing.

(** [v[0]] for a value that is not [undefined] or [null]. *)
Definition item0 (v : Value) : Value :=
  match v with
  | VArr (x :: _) => x
  | VObj o => obj_get "0" o
  | VStr (String c _) => VStr (String c EmptyString)
  | _ => VUndefined
  end.

(** Line 1101: [result.rows && result.rows[0] && result.rows[0]['[applied]']],
    which throws when there is no result to read [rows] of. *)
Definition applied (result : Value) : Error + bool :=
  match result with
  | VUndefined => inl (type_error "Cannot read property 'rows' of undefined")
  | VNull => inl (type_error "Cannot read property 'rows' of null")
  | _ =>
      let rows := prop "rows" result in
      inr (truthy rows && truthy (item0 rows) && truthy (prop "[applied]" (item0 rows)))
  end.

(** The function [save] gives to [_execute_table_query].  With a
    callback function, the instance forgets what was modified once the
    insert has gone through (always, or under [if_not_exist] when the
    row was applied) before the after-hook sees it. *)
Definition save_executed (this : Value) (options : Obj) (callback : Arg)
    (args : CbArgs) : Prog unit :=
  let err := cb_err args in
  let result := cb_value args in
  if arg_is_function callback then
    match err with
    | Some e => invoke callback (Cb1 (Some (buildErrorFrom "model.save.dberror" e)))
    | None =>
        reset ← (if negb (truthy (obj_get "if_not_exist" options)) then Ret true
                 else lift (applied result));
        let this := if reset : bool then set_prop "_modified" (VObj []) this else this in
        hooked ← hook_rejects "after_save" [this; VObj options];
        if fst (hooked : bool * list Value)
        then invoke callback (Cb1 (Some (buildError "model.save.after.error" [])))
        else invoke callback (Cb2 None result)
    end
  else
    match err with
    | Some e => Throw (buildErrorFrom "model.save.dberror" e)
    | None =>
        hooked ← hook_rejects "after_save" [this; VObj options];
        if fst (hooked : bool * list Value)
        then Throw (buildError "model.save.after.error" [])
        else Ret tt
    end.

(** [BaseModel.prototype.save]; [this] is the instance. *)
Definition save (this : Value) (options callback : Arg) : Prog Value :=
  let swap := is_missing callback && arg_is_function options in
  let callback := if swap then options else callback in
  let options := if swap then Val (VObj []) else options in
  let schema := schema properties in
  let options := defaultsDeep options [("prepare", VBool true)] in
  hooked ← hook_rejects "before_save" [this; VObj options];
  if fst (hooked : bool * list Value) then
    callback_or_throw (buildError "model.save.before.error" []) callback;;
    Ret (VObj [])
  else
    let this := value_at 0 (snd hooked) this in
    let options := object_at 1 (snd hooked) options in
    match get_save_value_expression this schema with
    | inl e => callback_or_throw e callback;; Ret (VObj [])
    | inr (identifiers, values, queryParams) =>
        let q := format ("INSERT INTO " +:+ dq +:+ "%s" +:+ dq +:+ " ( %s ) VALUES ( %s )")
                   [table_name properties; join " , " identifiers; join " , " values] in
        let q := if truthy (obj_get "if_not_exist" options)
                 then q +:+ " IF NOT EXISTS" else q in
        let finalParams := queryParams in
        let ttl := isNumber (obj_get "ttl" options) in
        let q := if ttl then q +:+ " USING TTL ?" else q in
        let finalParams := if ttl then finalParams ++ [obj_get "ttl" options]
                           else finalParams in
        let q := q +:+ ";" in
        if truthy (obj_get "return_query" options) then
          Ret (return_object q finalParams)
        else
          let queryOptions := normalize_query_option options in
          _execute_table_query q finalParams (Val (VObj queryOptions))
            (Fn (save_executed this options callback));;
          Ret (VObj [])
    end.

(** [BaseModel.prototype.delete]: the key columns of the instance make the
    query object.  [schema.key] is an array whose members are column names
    or, for a composite partition key, arrays of column names. *)
Definition key_columns (key : list Value) : list string :=
  concat (map (fun fieldKey =>
                 match fieldKey with
                 | VArr cols =>
                     omap (fun c => match c with VStr n => Some n | _ => None end) cols
                 | VStr n => [n]
                 | _ => []
                 end) key).

Definition instance_delete (this : Value) (options callback : Arg) : Prog Value :=
  let swap := is_missing callback && arg_is_function options in
  let callback := if swap then options else callback in
  let options := if swap then Val (VObj []) else options in
  match prop "key" (schema properties) with
  | VArr key =>
      let deleteQuery :=
        fold_left (fun acc n => obj_set n (prop n this) acc) (key_columns key) [] in
      delete deleteQuery (passed options) (passed callback)
  | _ => Throw (type_error "Cannot read property 'length' of undefined")
  end.

(** ** Row by row *)

Fixpoint each {A : Type} (f : nat -> A -> Prog unit) (n : nat) (l : list A) : Prog unit :=
  match l with
  | [] => Ret tt
  | x :: rest => later (f n x);; each f (S n) rest
  end.

(** The driver reads the rows, hands each one to [onReadable] and ends
    with [callback(err, result)]. *)
Definition do_execute_eachRow (q ps : Value) (options : Obj)
    (onReadable : nat -> Value -> Prog unit) (callback : Arg) : Prog unit :=
  '(rows, (err, result)) ← call (execute_eachRow q ps (VObj options));
  each onReadable 0%nat rows;;
  later (invoke callback (Cb2 err result)).

Definition _execute_table_eachRow (q ps : Value) (options : Obj)
    (onReadable : nat -> Value -> Prog unit) (callback : Arg) : Prog unit :=
  ready ← is_table_ready;
  if ready : bool then do_execute_eachRow q ps options onReadable callback
  else
    init (Fn (fun args =>
                match cb_err args with
                | Some err => invoke callback (Cb1 (Some err))
                | None => do_execute_eachRow q ps options onReadable callback
                end)) Missing.

(** The driver announces readable data some number of times, each time
    with the stream as [this], and ends with [callback(err)]. *)
Definition do_execute_stream (q ps : Value) (options : Obj)
    (onReadable : Value -> Prog unit) (callback : Arg) : Prog unit :=
  '(readers, err) ← call (execute_stream q ps (VObj options));
  each (fun _ reader => onReadable reader) 0%nat readers;;
  later (invoke callback (Cb1 err)).

Definition _execute_table_stream (q ps : Value) (options : Obj)
    (onReadable : Value -> Prog unit) (callback : Arg) : Prog unit :=
  ready ← is_table_ready;
  if ready : bool then do_execute_stream q ps options onReadable callback
  else
    init (Fn (fun args =>
                match cb_err args with
                | Some err => invoke callback (Cb1 (Some err))
                | None => do_execute_stream q ps options onReadable callback
                end)) Missing.

(** [arguments.length === 3] in a function of a query object and three
    more parameters: the second and the third were passed, the fourth
    was not. *)
Definition arguments_3 (options onReadable callback : Arg) : bool :=
  negb (is_missing options) && negb (is_missing onReadable) && is_missing callback.

(** [onReadable(...)], a function of the application. *)
Definition readable (onReadable : Arg) (args : list Value) : Prog unit :=
  match onReadable with
  | Val (VFun f) => call (apply_function f args);; Ret tt
  | _ => Throw (type_error "onReadable is not a function")
  end.

Definition eachRow (queryObject : positive) (options onReadable callback : Arg)
  : Prog unit :=
  let three := arguments_3 options onReadable callback in
  let cb := onReadable in
  let onReadable := if three then options else onReadable in
  let callback := if three then cb else callback in
  let options := if three then Val (VObj []) else options in
  if negb (arg_is_function onReadable) then
    Throw (buildError "model.find.eachrowerror" ["no valid onReadable function was provided"])
  else if negb (arg_is_function callback) then
    Throw (buildError "model.find.cberror" [])
  else
    let options := defaultsDeep options [("raw", VBool false); ("prepare", VBool true)] in
    let options := obj_set "return_query" (VBool true) options in
    selectQuery ← find queryObject (Val (VObj options)) Missing;
    let queryOptions := normalize_query_option options in
    _execute_table_eachRow (prop "query" selectQuery) (prop "params" selectQuery) queryOptions
      (fun n row =>
         let row := if negb (truthy (obj_get "raw" options))
                    then set_prop "_modified" (VObj []) (new_instance row) else row in
         readable onReadable [VNum (Z.of_nat n); row])
      (Fn (fun args =>
             match cb_err args with
             | Some err => invoke callback (Cb1 (Some (buildErrorFrom "model.find.dberror" err)))
             | None => invoke callback (Cb2 None (cb_value args))
             end)).

(** [readRow] is installed on the reader and left to the application. *)
Definition stream (queryObject : positive) (options onReadable callback : Arg)
  : Prog unit :=
  let three := arguments_3 options onReadable callback in
  let cb := onReadable in
  let onReadable := if three then options else onReadable in
  let callback := if three then cb else callback in
  let options := if three then Val (VObj []) else options in
  if negb (arg_is_function onReadable) then
    Throw (buildError "model.find.streamerror" ["no valid onReadable function was provided"])
  else if negb (arg_is_function callback) then
    Throw (buildError "model.find.cberror" [])
  else
    let options := defaultsDeep options [("raw", VBool false); ("prepare", VBool true)] in
    let options := obj_set "return_query" (VBool true) options in
    selectQuery ← find queryObject (Val (VObj options)) Missing;
    let queryOptions := normalize_query_option options in
    _execute_table_stream (prop "query" selectQuery) (prop "params" selectQuery) queryOptions
      (fun reader => readable onReadable [set_prop "readRow" (VFun "readRow") reader])
      (Fn (fun args =>
             match cb_err args with
             | Some err => invoke callback (Cb1 (Some (buildErrorFrom "model.find.dberror" err)))
             | None => invoke callback Cb0
             end)).

End Model.

(** ** Invariants of programs *)

(** [only P p]: whatever the collaborators answer, [p] issues no command
    outside [P]. *)
Fixpoint only {A : Type} (P : Cmd -> Prop) (p : Prog A) : Prop :=
  match p with
  | Ret _ | Throw _ => True
  | Call c k => P c /\ forall r, only P (k r)
  | Load k => forall s, only P (k s)
  | Modify _ k => only P k
  end.

(** [keeps I p]: every write of [p] to the model state preserves [I]. *)
Fixpoint keeps {A : Type} (I : ModelState -> Prop) (p : Prog A) : Prop :=
  match p with
  | Ret _ | Throw _ => True
  | Call _ k => forall r, keeps I (k r)
  | Load k => forall s, keeps I (k s)
  | Modify g k => (forall s, I s -> I (g s)) /\ keeps I k
  end.

(** [quiet I a]: calling [a] keeps [I]. *)
Definition quiet (I : ModelState -> Prop) (a : Arg) : Prop :=
  forall args, keeps I (invoke a args).

(** ** Reading a trace *)

Definition is_alter (c : Cmd) : bool :=
  match c with init_alter_operations _ _ _ _ => true | _ => false end.

Definition is_drop_recreate (c : Cmd) : bool :=
  match c with drop_recreate_table _ _ => true | _ => false end.

Definition is_create (c : Cmd) : bool :=
  match c with create_table _ => true | _ => false end.

Definition is_execute (c : Cmd) : bool :=
  match c with
  | execute_query _ _ _ | execute_eachRow _ _ _ | execute_stream _ _ _ => true
  | _ => false
  end.

(** The commands [afterDBCreate] can issue for a callback of the
    application. *)
Definition is_indexing (c : Cmd) : bool :=
  match c with
  | create_indexes _ | create_custom_indexes _ | create_mviews _ | promise_all _
  | user_callback _ _ | uncaught _ => true
  | _ => false
  end.

(** The two rejections of [_sync_model_definition]. *)
Definition schema_not_found (properties : Properties) : Error :=
  buildError "model.tablecreation.schemanotfound" [table_name properties].

Definition migration_suspended (properties : Properties) : Error :=
  buildError "model.tablecreation.schemamismatch"
    [table_name properties; "migration suspended, please apply the change manually"].

(** What [_sync_model_definition] can end up doing when the policy is
    [safe], read off the trace of a run for the callback [cb]. *)
Definition safe_outcome (properties : Properties) (w : World) (cb : string)
    (r : Run unit) : Prop :=
  trace r = [get_table_schema; user_callback cb (Cb2 None (VBool false))]
  \/ (exists rest, trace r = get_table_schema :: create_table (schema properties) :: rest)
  \/ trace r = [get_table_schema;
                user_callback cb (Cb1 (Some (migration_suspended properties)))]
  \/ trace r = [get_table_schema;
                user_callback cb (Cb1 (Some (schema_not_found properties)))]
  \/ (exists e, fst (w [] get_table_schema) = Some e
                /\ trace r = [get_table_schema; user_callback cb (Cb1 (Some e))])
  \/ (exists m, trace r = [get_table_schema;
                           uncaught (buildError "model.validator.invalidschema" [m])]).

(** The outcome under production as the specification lists it: a no-op, a
    creation or the migration-suspended rejection. *)
Definition stated_production_outcome (properties : Properties) (cb : string)
    (r : Run unit) : Prop :=
  trace r = [get_table_schema; user_callback cb (Cb2 None (VBool false))]
  \/ (exists rest, trace r = get_table_schema :: create_table (schema properties) :: rest)
  \/ trace r = [get_table_schema;
                user_callback cb (Cb1 (Some (migration_suspended properties)))].

(** ** The layout of a [SELECT] statement *)

(** A clause takes part in the statement, after a blank, when it is not
    empty. *)
Definition segment (clause : string) : string :=
  if String.eqb clause EmptyString then EmptyString else " " +:+ clause.

(** What [get_find_query] selects from: the materialized view when the
    option names one, the table of the model otherwise. *)
Definition find_target `{Lib} (properties : Properties) (options : Obj) : string :=
  if truthy (obj_get "materialized_view" options)
  then to_s inspect (obj_get "materialized_view" options)
  else table_name properties.

(** The same, following the words of the specification,
    [FROM <table>[.<materialized_view>]]: the table, qualified by the view
    when there is one. *)
Definition spec_find_target `{Lib} (properties : Properties) (options : Obj) : string :=
  if truthy (obj_get "materialized_view" options)
  then table_name properties +:+ "." +:+ to_s inspect (obj_get "materialized_view" options)
  else table_name properties.

(** [SELECT [DISTINCT] projection FROM target], then the clauses in their
    fixed order and the closing [;]. *)
Definition find_layout (options : Obj) (target selectClause whereClause orderbyClause
    groupbyClause limitClause : string) : string :=
  "SELECT " +:+ (if truthy (obj_get "distinct" options) then "DISTINCT " else EmptyString)
  +:+ selectClause +:+ " FROM " +:+ dq +:+ target +:+ dq
  +:+ segment whereClause
  +:+ segment orderbyClause
  +:+ segment groupbyClause
  +:+ segment limitClause
  +:+ (if truthy (obj_get "allow_filtering" options) then " ALLOW FILTERING" else EmptyString)
  +:+ ";".

(** [occurs needle s]: [needle] is a substring of [s]. *)
Fixpoint occurs (needle s : string) : bool :=
  String.prefix needle s ||
  match s with
  | EmptyString => false
  | String _ rest => occurs needle rest
  end.

(** ** What reaches the driver *)

(** An argument as the application passes it: nothing or a value.  The
    functions written in [base_model.js] are passed by the model only. *)
Definition external (a : Arg) : Prop :=
  match a with
  | Fn _ => False
  | _ => True
  end.

(** The first statement handed to [execute_query]. *)
Fixpoint executed (tr : list Cmd) : option (string * list Value) :=
  match tr with
  | [] => None
  | execute_query q ps _ :: _ => Some (q, ps)
  | _ :: rest => executed rest
  end.

(** The statement of the object returned under [return_query]. *)
Definition returned (o : Error + Value) : option (string * list Value) :=
  match o with
  | inr (VObj props) =>
      match obj_get "query" props, obj_get "params" props with
      | VStr q, VArr ps => Some (q, ps)
      | _, _ => None
      end
  | _ => None
  end.

(** The statement a call has built, with the values it binds: the one it
    executed or, failing that, the one it returned. *)
Definition statement_of (r : Run Value) : option (string * list Value) :=
  match executed (trace r) with
  | Some st => Some st
  | None => returned (outcome r)
  end.

(** What the first call of a run gives when it is the call of the hook
    [h] with [args]: whether the hook answers [false], and the arguments
    as it leaves them.  Without such a hook nothing is called and the
    arguments are as they were. *)
Definition before_call (properties : Properties) (w : World) (h : string)
    (args : list Value) : bool * list Value :=
  match prop h (schema properties) with
  | VFun f =>
      (is_false (fst (w [] (apply_function f args))),
       handed_back args (snd (w [] (apply_function f args))))
  | _ => (false, args)
  end.

(** The call of the hook [h], when the schema has one. *)
Definition hook_call (properties : Properties) (h : string) (args : list Value) : list Cmd :=
  match prop h (schema properties) with
  | VFun f => [apply_function f args]
  | _ => []
  end.

(** The run of a call stopped by its before-hook [f], which was called
    with [hook_args]: the error [kind] goes to the callback when there is
    a callback function, and is thrown when there is none; nothing else
    is called and the model state is as it was. *)
Definition aborted (kind f : string) (hook_args : list Value) (callback : Arg)
    (s : ModelState) : Run Value :=
  match callback with
  | Val (VFun c) =>
      {| outcome := inr (VObj []); final := s;
         trace := [apply_function f hook_args;
                   user_callback c (Cb1 (Some (buildError kind [])))] |}
  | _ =>
      {| outcome := inl (buildError kind []); final := s;
         trace := [apply_function f hook_args] |}
  end.

(** ** The calls of an application *)

(** What an application can call on a model, statically or through an
    instance. *)
Inductive Operation : Type :=
| call_init (options callback : Arg)
| call_syncDB (callback : Arg)
| call_sync_model_definition (callback : Arg)
| call_sync_es_index (callback : Arg)
| call_sync_graph (callback : Arg)
| call_is_table_ready
| call_execute_table_query (q : string) (ps : list Value) (options callback : Arg)
| call_find (queryObject : positive) (options callback : Arg)
| call_findOne (queryObject : positive) (options callback : Arg)
| call_eachRow (queryObject : positive) (options onReadable callback : Arg)
| call_stream (queryObject : positive) (options onReadable callback : Arg)
| call_update (queryObject : Obj) (updateValues : Value) (options callback : Arg)
| call_delete (queryObject : Obj) (options callback : Arg)
| call_truncate (callback : Arg)
| call_save (this : Value) (options callback : Arg)
| call_instance_delete (this : Value) (options callback : Arg).

(** Every argument is one the application can pass. *)
Definition from_application (op : Operation) : Prop :=
  match op with
  | call_is_table_ready => True
  | call_syncDB callback | call_sync_model_definition callback
  | call_sync_es_index callback | call_sync_graph callback
  | call_truncate callback => external callback
  | call_init options callback
  | call_execute_table_query _ _ options callback
  | call_find _ options callback | call_findOne _ options callback
  | call_update _ _ options callback | call_delete _ options callback
  | call_save _ options callback | call_instance_delete _ options callback =>
      external options /\ external callback
  | call_eachRow _ options onReadable callback
  | call_stream _ options onReadable callback =>
      external options /\ external onReadable /\ external callback
  end.

Definition perform `{Lib} (process_env : Obj) (properties : Properties)
    (op : Operation) : Prog unit :=
  match op with
  | call_init options callback => init options callback
  | call_syncDB callback => syncDB process_env properties callback
  | call_sync_model_definition callback =>
      _sync_model_definition process_env properties callback
  | call_sync_es_index callback => _sync_es_index properties callback
  | call_sync_graph callback => _sync_graph properties callback
  | call_is_table_ready => is_table_ready;; Ret tt
  | call_execute_table_query q ps options callback =>
      _execute_table_query q ps options callback
  | call_find queryObject options callback =>
      find properties queryObject options callback;; Ret tt
  | call_findOne queryObject options callback =>
      findOne properties queryObject options callback;; Ret tt
  | call_eachRow queryObject options onReadable callback =>
      eachRow properties queryObject options onReadable callback
  | call_stream queryObject options onReadable callback =>
      stream properties queryObject options onReadable callback
  | call_update queryObject updateValues options callback =>
      update properties queryObject updateValues options callback;; Ret tt
  | call_delete queryObject options callback =>
      delete properties queryObject options callback;; Ret tt
  | call_truncate callback => truncate properties callback
  | call_save this options callback => save properties this options callback;; Ret tt
  | call_instance_delete this options callback =>
      instance_delete properties this options callback;; Ret tt
  end.

(** A life of the model: one call after the other, each against the
    collaborators of its moment. *)
Fixpoint perform_all `{Lib} (process_env : Obj) (properties : Properties)
    (calls : list (World * Operation)) (s : ModelState) : ModelState :=
  match calls with
  | [] => s
  | (w, op) :: rest =>
      perform_all process_env properties rest
        (final (run w (perform process_env properties op) s))
  end.

(** What [is_table_ready()] answers in a state. *)
Definition ready (s : ModelState) : bool := is_true (_ready s).

(** [settles cb p]: [p] writes to the model state at one place only, where
    it sets [_ready] to [true] and then calls [cb(null, result)]; it never
    calls [cb] with a success otherwise. *)
Fixpoint settles (cb : string) (p : Prog unit) : Prop :=
  match p with
  | Ret _ | Throw _ => True
  | Call c k => (forall result, c <> user_callback cb (Cb2 None result))
                /\ forall r, settles cb (k r)
  | Load k => forall s, settles cb (k s)
  | Modify g k =>
      g = set_ready (VBool true)
      /\ exists result, forall w s tr,
           exec w k s tr = {| outcome := inr tt; final := s;
                              trace := tr ++ [user_callback cb (Cb2 None result)] |}
  end.

(** ** Scenarios *)

(** The examples of the specification, with stand-ins for the modules
    that are parameters: a parser that knows equality predicates only and
    a normalizer that leaves a schema as it is.  They serve to run the
    model on concrete calls. *)
Module Scenario.

Definition is_operator (k : string) : bool :=
  match k with
  | String c _ => Ascii.eqb c "$"%char
  | EmptyString => false
  end.

Definition predicates (queryObject : Obj) : Obj :=
  filter (fun p => negb (is_operator (fst p))) queryObject.

Definition quoted (k : string) : string := dq +:+ k +:+ dq.

Definition where_clause (queryObject : Obj) : Clause :=
  match predicates queryObject with
  | [] => {| query := EmptyString; params := [] |}
  | ps => {| query := "WHERE " +:+ join " AND " (map (fun p => quoted (fst p) +:+ " = ?") ps);
             params := map snd ps |}
  end.

Definition limit_clause (queryObject : Obj) : string :=
  match obj_get "$limit" queryObject with
  | VNum n => "LIMIT " +:+ pretty n
  | _ => EmptyString
  end.

Definition columns (v : Value) : Obj :=
  match v with VObj o => o | _ => [] end.

#[export] Instance parser : Lib := {|
  error_message := fun kind _ _ => kind;
  inspect := fun _ => "[object Object]";
  normalize_model_schema := fun v => inr v;
  normalize_query_option := fun o => o;
  get_orderby_clause := fun _ => inr EmptyString;
  get_limit_clause := fun q => inr (limit_clause q);
  get_where_clause := fun _ q => inr (where_clause q);
  get_select_clause := fun _ => inr "*";
  get_groupby_clause := fun _ => inr EmptyString;
  get_if_clause := fun _ _ => inr {| query := EmptyString; params := [] |};
  get_update_value_expression := fun _ v =>
    inr (map (fun p => quoted (fst p) +:+ "=?") (columns v), map snd (columns v));
  get_save_value_expression := fun this _ =>
    inr (map (fun p => quoted (fst p)) (columns this),
         map (fun _ => "?") (columns this),
         map snd (columns this));
  new_instance := fun row => row
|}.

(** Fields [{id: uuid, name: text}], key [[id]]; [hooks] are further
    properties of the schema. *)
Definition events_schema (hooks : Obj) : Value :=
  VObj ([("fields", VObj [("id", VStr "uuid"); ("name", VStr "text")]);
         ("key", VArr [VStr "id"])] ++ hooks).

Definition events (hooks : Obj) (policy createTable : Value) : Properties :=
  {| name := "events"; schema := events_schema hooks; keyspace := "ks";
     table_name := "events"; qualified_table_name := quoted "ks" +:+ "." +:+ quoted "events";
     migration := policy; dropTableOnSchemaChange := VUndefined;
     createTable := createTable; esclient := VUndefined; gremlin_client := VUndefined |}.

(** Fields [{id: int, name: text}], key [[id]]. *)
Definition counters_schema (hooks : Obj) : Value :=
  VObj ([("fields", VObj [("id", VStr "int"); ("name", VStr "text")]);
         ("key", VArr [VStr "id"])] ++ hooks).

Definition counters (hooks : Obj) : Properties :=
  {| name := "counters"; schema := counters_schema hooks; keyspace := "ks";
     table_name := "counters";
     qualified_table_name := quoted "ks" +:+ "." +:+ quoted "counters";
     migration := VUndefined; dropTableOnSchemaChange := VUndefined;
     createTable := VUndefined; esclient := VUndefined; gremlin_client := VUndefined |}.

(** A table with a clustering column, as the database reports it. *)
Definition readings (order : string) : Value :=
  VObj [("fields", VObj [("id", VStr "uuid"); ("ts", VStr "timestamp")]);
        ("key", VArr [VStr "id"; VStr "ts"]);
        ("clustering_order", VObj [("ts", VStr order)])].

Definition readings_model (order : string) (policy : Value) : Properties :=
  {| name := "readings"; schema := readings order; keyspace := "ks";
     table_name := "readings";
     qualified_table_name := quoted "ks" +:+ "." +:+ quoted "readings";
     migration := policy; dropTableOnSchemaChange := VUndefined;
     createTable := VUndefined; esclient := VUndefined; gremlin_client := VUndefined |}.

(** Collaborators that answer without regard to what happened before:
    the live schema, the verdict of the alter routine, what a hook
    returns (it leaves its arguments as they are) and the rows of a
    result set; everything else succeeds. *)
Definition world (live : Value) (alter : option Error) (hook : Value)
    (rows : list Value) : World :=
  fun _ c =>
    match c return Resp c with
    | get_table_schema => (None, live)
    | init_alter_operations _ _ _ _ => alter
    | create_table _ | drop_recreate_table _ _
    | create_indexes _ | create_custom_indexes _ | create_mviews _ => None
    | promise_all _ => 0%nat
    | assert_index _ _ | assert_graph _ => None
    | put_mapping _ _ _ | put_graph_mapping _ _ _ => Cb0
    | execute_query _ _ _ => (None, VObj [("rows", VArr rows)])
    | execute_eachRow _ _ _ => (rows, (None, VUndefined))
    | execute_stream _ _ _ => ([], None)
    | apply_function _ args => (hook, args)
    | user_callback _ _ | uncaught _ => tt
    end.

(** A hook that works on its last argument, the options of the call,
    and returns nothing. *)
Fixpoint on_last (change : Value -> Value) (args : list Value) : list Value :=
  match args with
  | [] => []
  | [x] => [change x]
  | x :: rest => x :: on_last change rest
  end.

Definition on_options (change : Obj -> Obj) (args : list Value) : Value * list Value :=
  (VUndefined,
   on_last (fun v => match v with VObj o => VObj (change o) | _ => v end) args).

(** A hook that works on its first argument, the query object or the
    instance, and returns nothing. *)
Definition on_first (change : Obj -> Obj) (args : list Value) : Value * list Value :=
  (VUndefined,
   match args with
   | VObj o :: rest => VObj (change o) :: rest
   | _ => args
   end).

(** A hook that works on its second argument, the values of an update,
    and returns [true]. *)
Definition on_second (change : Obj -> Obj) (args : list Value) : Value * list Value :=
  (VBool true,
   match args with
   | x :: VObj o :: rest => x :: VObj (change o) :: rest
   | _ => args
   end).

(** Collaborators whose hooks are the function [hook], from the
    arguments to what is returned and what is left of the arguments;
    the driver answers [result] to a statement. *)
Definition meddling (hook : list Value -> Value * list Value) (result : Value) : World :=
  fun tr c =>
    match c return Resp c with
    | apply_function _ args => hook args
    | execute_query _ _ _ => (None, result)
    | c => world VUndefined None VUndefined [] tr c
    end.

Definition fresh : ModelState := {| _ready := VUndefined; heap := ∅ |}.

Definition production : Obj := [("NODE_ENV", VStr "production")].

Definition development : Obj := [("NODE_ENV", VStr "development")].

End Scenario.

(** ** The layout of the other statements *)

(** What follows the WHERE clause of an [UPDATE], and the values it binds:
    the IF clause when [conditions] is given and the clause is not empty,
    [IF EXISTS] when only [if_exists] is given. *)
Definition update_condition (options : Obj) (ifClause : Clause) : string * list Value :=
  if truthy (obj_get "conditions" options) then
    if String.eqb (query ifClause) EmptyString then (EmptyString, [])
    else (" " +:+ query ifClause, params ifClause)
  else if truthy (obj_get "if_exists" options) then (" IF EXISTS", [])
  else (EmptyString, []).

Definition update_layout (table : string) (ttl : bool) (updateClauses : list string)
    (whereClause condition : string) : string :=
  "UPDATE " +:+ dq +:+ table +:+ dq
  +:+ (if ttl then " USING TTL ?" else EmptyString)
  +:+ " SET " +:+ join ", " updateClauses +:+ " " +:+ whereClause
  +:+ condition +:+ ";".

Definition delete_layout (table whereClause : string) : string :=
  "DELETE FROM " +:+ dq +:+ table +:+ dq +:+ " " +:+ whereClause +:+ ";".

Definition save_layout (table : string) (identifiers values : list string)
    (if_not_exist ttl : bool) : string :=
  "INSERT INTO " +:+ dq +:+ table +:+ dq
  +:+ " ( " +:+ join " , " identifiers +:+ " ) VALUES ( " +:+ join " , " values +:+ " )"
  +:+ (if if_not_exist then " IF NOT EXISTS" else EmptyString)
  +:+ (if ttl then " USING TTL ?" else EmptyString)
  +:+ ";".

Definition truncate_layout (table : string) : string :=
  "TRUNCATE TABLE " +:+ dq +:+ table +:+ dq +:+ ";".

(** The model state after a call that went through [init] when it had to. *)
Definition made_ready (s : ModelState) : ModelState :=
  if ready s then s else set_ready (VBool true) s.

(** ** The calls that write *)

(** [update], [delete] and [save] end alike; a [Mutation] is one of them
    with what it is called on. *)
Inductive Mutation : Type :=
| updating (queryObject : Obj) (updateValues : Value)
| deleting (queryObject : Obj)
| saving (this : Value).

Definition mutate `{Lib} (properties : Properties) (m : Mutation)
    (options callback : Arg) : Prog Value :=
  match m with
  | updating queryObject updateValues =>
      update properties queryObject updateValues options callback
  | deleting queryObject => delete properties queryObject options callback
  | saving this => save properties this options callback
  end.

(** The name of the operation in the error kinds and the hook names. *)
Definition operation (m : Mutation) : string :=
  match m with
  | updating _ _ => "update"
  | deleting _ => "delete"
  | saving _ => "save"
  end.

(** What the hooks of the operation are called with. *)
Definition hook_arguments (m : Mutation) (options : Obj) : list Value :=
  match m with
  | updating queryObject updateValues => [VObj queryObject; updateValues; VObj options]
  | deleting queryObject => [VObj queryObject; VObj options]
  | saving this => [this; VObj options]
  end.

(** The function handed to [_execute_table_query] with the statement. *)
Definition completion `{Lib} (properties : Properties) (m : Mutation) (options : Obj)
    (callback : Arg) : Arg :=
  match m with
  | saving this => Fn (save_executed properties this options callback)
  | _ => Fn (after_execute properties (operation m) (hook_arguments m options) callback)
  end.

(** The call of the before-hook, when the schema has one. *)
Definition before_hook (properties : Properties) (m : Mutation) (options : Obj) : list Cmd :=
  hook_call properties ("before_" +:+ operation m) (hook_arguments m options).

(** The objects of the call and its options as the before-hook leaves
    them: what [update], [delete] and [save] go on with. *)
Definition left_by_hook (properties : Properties) (w : World) (m : Mutation)
    (options : Obj) : Mutation * Obj :=
  let left := snd (before_call properties w ("before_" +:+ operation m)
                     (hook_arguments m options)) in
  match m with
  | updating queryObject updateValues =>
      (updating (object_at 0 left queryObject) (value_at 1 left updateValues),
       object_at 2 left options)
  | deleting queryObject => (deleting (object_at 0 left queryObject), object_at 1 left options)
  | saving this => (saving (value_at 0 left this), object_at 1 left options)
  end.

(** What the after-hook is called with, when the driver has answered
    [results] without an error: the objects of the call as they are
    then.  [save] with a callback function first makes the instance
    forget what was modified, unless [if_not_exist] is asked for and the
    row was not applied; reading that off a missing result throws. *)
Definition after_arguments (m : Mutation) (options : Obj) (callback : Arg)
    (results : Value) : Error + list Value :=
  match m with
  | saving this =>
      if arg_is_function callback then
        reset ← (if negb (truthy (obj_get "if_not_exist" options)) then inr true
                 else applied results);
        inr (hook_arguments
               (saving (if reset : bool then set_prop "_modified" (VObj []) this else this))
               options)
      else inr (hook_arguments m options)
  | _ => inr (hook_arguments m options)
  end.

(** What follows the statement in the trace of [update], [delete] and
    [save], for the call [m] with [options] (as the before-hook left
    them), the callback [callback] and the answer [(err, results)] of
    the driver; [ask] answers the after-hook when it is called. *)
Definition after_statement (properties : Properties) (m : Mutation) (options : Obj)
    (callback : Arg) (err : option Error) (results : Value)
    (ask : forall c : Cmd, Resp c) : list Cmd :=
  let kind suffix := "model." +:+ operation m +:+ suffix in
  let report args :=
    match callback with
    | Val (VFun c) => [user_callback c args]
    | _ => []
    end in
  let fail e :=
    match callback with
    | Val (VFun c) => [user_callback c (Cb1 (Some e))]
    | _ => [uncaught e]
    end in
  match err with
  | Some e => fail (buildErrorFrom (kind ".dberror") e)
  | None =>
      match after_arguments m options callback results with
      | inl e => [uncaught e]
      | inr hook_args =>
          match prop ("after_" +:+ operation m) (schema properties) with
          | VFun f =>
              apply_function f hook_args
                :: (if is_false (fst (ask (apply_function f hook_args)))
                    then fail (buildError (kind ".after.error") [])
                    else report (Cb2 None results))
          | _ => report (Cb2 None results)
          end
      end
  end.

(** How a run of [update], [delete] or [save] can end: without a
    statement handed to the driver and with the model state as it was,
    or, when [return_query] is not asked for, with the statement right
    after the before-hook [before] and then what [after_statement]
    says.  [m] and [options] are the call as the before-hook left it. *)
Definition ends (properties : Properties) (w : World) (m : Mutation) (options : Obj)
    (callback : Arg) (s : ModelState) (before : list Cmd) (r : Run Value) : Prop :=
  (executed (trace r) = None /\ final r = s)
  \/ truthy (obj_get "return_query" options) = false
     /\ exists q ps queryOptions,
          r = {| outcome := inr (VObj []); final := made_ready s;
                 trace := before ++ execute_query q ps queryOptions
                            :: after_statement properties m options callback
                                 (fst (w before (execute_query q ps queryOptions)))
                                 (snd (w before (execute_query q ps queryOptions)))
                                 (w (before ++ [execute_query q ps queryOptions])) |}.

(** ** The stages of a synchronisation *)

(** The builder calls [afterDBCreate] starts for a schema, in their order. *)
Definition indexing_tasks (modelSchema : Value) : list Cmd :=
  (if isArray (prop "indexes" modelSchema)
   then [create_indexes (prop "indexes" modelSchema)] else [])
  ++ (if isArray (prop "custom_indexes" modelSchema)
      then [create_custom_indexes (prop "custom_indexes" modelSchema)] else [])
  ++ (if truthy (prop "custom_index" modelSchema)
      then [create_custom_indexes (VArr [prop "custom_index" modelSchema])] else [])
  ++ (if truthy (prop "materialized_views" modelSchema)
      then [create_mviews (prop "materialized_views" modelSchema)] else []).

(** [cb(null, result)] *)
Definition is_success (cb : string) (c : Cmd) : Prop :=
  exists result, c = user_callback cb (Cb2 None result).

(** [awaits need goal seen p]: whatever the collaborators answer, [p]
    issues a command of [goal] only after a command of [need]; [seen]
    says that one has been issued already. *)
Fixpoint awaits {A : Type} (need goal : Cmd -> Prop) (seen : Prop) (p : Prog A) : Prop :=
  match p with
  | Ret _ | Throw _ => True
  | Call c k => (goal c -> seen) /\ forall r, awaits need goal (seen \/ need c) (k r)
  | Load k => forall s, awaits need goal seen (k s)
  | Modify _ k => awaits need goal seen k
  end.

(** The same of a trace. *)
Definition in_order (need goal : Cmd -> Prop) (tr : list Cmd) : Prop :=
  forall tr1 c tr2, tr = tr1 ++ c :: tr2 -> goal c -> Exists need tr1.

(** The mappings [syncDB] puts: the index [keyspace_table] and the graph
    [keyspace_graph], both under the name of the table. *)
Definition es_mapping (properties : Properties) : Cmd :=
  put_mapping (keyspace properties +:+ "_" +:+ table_name properties)
    (table_name properties) (prop "es_index_mapping" (schema properties)).

Definition graph_mapping (properties : Properties) : Cmd :=
  put_graph_mapping (keyspace properties +:+ "_graph")
    (table_name properties) (prop "graph_mapping" (schema properties)).

(** The error a builder call was answered with, for the calls whose
    callback takes an error only. *)
Definition failure (c : Cmd) : Resp c -> option Error :=
  match c return Resp c -> option Error with
  | create_table _ | init_alter_operations _ _ _ _ | drop_recreate_table _ _
  | create_indexes _ | create_custom_indexes _ | create_mviews _
  | assert_index _ _ | assert_graph _ => fun err => err
  | _ => fun _ => None
  end.

(** The errors the calls [cmds], made one after the other from the trace
    [tr] on, are answered with. *)
Fixpoint answers (w : World) (tr : list Cmd) (cmds : list Cmd) : list (option Error) :=
  match cmds with
  | [] => []
  | c :: rest => failure c (w tr c) :: answers w (tr ++ [c]) rest
  end.

(** ** The key of a schema *)

(** A member of [schema.key] names columns: it is a column name or, for
    a composite partition key, an array of column names. *)
Definition is_column_name (v : Value) : bool :=
  match v with VStr _ => true | _ => false end.

Definition names_columns (fieldKey : Value) : bool :=
  match fieldKey with
  | VStr _ => true
  | VArr cols => forallb is_column_name cols
  | _ => false
  end.

(** * The graph and the search index *)

(** [createVertex] and the other graph calls, and [search], talk to the
    Gremlin client and to the Elasticsearch client of the model, and to
    the callback they are given.  They write to the objects the caller
    hands over ([_.defaults] fills its first argument), so these live in
    a store and are passed by reference.  [createEdge], which takes its
    properties or its callback for fourth argument, is not followed. *)
Module Graph.

Inductive Request : Type :=
(* gremlinClient.execute(script, bindings, ...) *)
| gremlin_execute (script : string) (bindings : Obj)
(* esClient.search(query, ...) *)
| es_search (query : Obj)
(* the callback of the application *)
| callback_called (name : string) (args : CbArgs)
(* an error thrown where nobody catches it *)
| escaped (e : Error).

Definition Answer (r : Request) : Type :=
  match r with
  | gremlin_execute _ _ | es_search _ => (option Error * Value)%type
  | callback_called _ _ | escaped _ => unit
  end.

Abbreviation Store := (gmap positive Obj).

Inductive Act (A : Type) : Type :=
| Done (a : A)
| Raise (e : Error)
| Ask (r : Request) (k : Answer r -> Act A)
| Get (k : Store -> Act A)
| Put (f : Store -> Store) (k : Act A).

Arguments Done {A} a.
Arguments Raise {A} e.
Arguments Ask {A} r k.
Arguments Get {A} k.
Arguments Put {A} f k.

Fixpoint bind {A B : Type} (p : Act A) (f : A -> Act B) : Act B :=
  match p with
  | Done a => f a
  | Raise e => Raise e
  | Ask r k => Ask r (fun x => bind (k x) f)
  | Get k => Get (fun st => bind (k st) f)
  | Put g k => Put g (bind k f)
  end.

Fixpoint catch {A : Type} (p : Act A) (h : Error -> Act A) : Act A :=
  match p with
  | Done a => Done a
  | Raise e => h e
  | Ask r k => Ask r (fun x => catch (k x) h)
  | Get k => Get (fun st => catch (k st) h)
  | Put g k => Put g (catch k h)
  end.

#[global] Instance act_ret : MRet Act := fun A a => Done a.
#[global] Instance act_bind : MBind Act := fun A B f p => bind p f.

Definition ask (r : Request) : Act (Answer r) := Ask r Done.

Definition lift {A : Type} (r : Error + A) : Act A :=
  match r with
  | inl e => Raise e
  | inr a => Done a
  end.

(** The body of a callback a client runs later. *)
Definition later (p : Act unit) : Act unit :=
  catch p (fun e => ask (escaped e)).

(** The clients and the application: an answer to every request, which
    may depend on what has been asked so far. *)
Definition Clients : Type := list Request -> forall r : Request, Answer r.

Record Result (A : Type) : Type := {
  returned : Error + A;
  store : Store;
  requests : list Request
}.

Arguments returned {A} r.
Arguments store {A} r.
Arguments requests {A} r.

Fixpoint exec {A : Type} (clients : Clients) (p : Act A) (st : Store)
    (asked : list Request) : Result A :=
  match p with
  | Done a => {| returned := inr a; store := st; requests := asked |}
  | Raise e => {| returned := inl e; store := st; requests := asked |}
  | Ask r k => exec clients (k (clients asked r)) st (asked ++ [r])
  | Get k => exec clients (k st) st asked
  | Put g k => exec clients k (g st) asked
  end.

Definition run {A : Type} (clients : Clients) (p : Act A) (st : Store) : Result A :=
  exec clients p st [].

(** [callback(args)] for the callback the application passed. *)
Definition tell (callback : Value) (args : CbArgs) : Act unit :=
  match callback with
  | VFun name => ask (callback_called name args)
  | _ => Raise (type_error "callback is not a function")
  end.

(** [_.defaults(object, source)]: a property of [object] that resolves
    to [undefined] takes the value of [source]; [object] is changed in
    place and returned. *)
Definition defaults (object source : Obj) : Obj :=
  defaultsDeep (Val (VObj object)) source.

(** [results[0]] *)
Definition first_item (results : Value) : Error + Value :=
  match results with
  | VArr (x :: _) => inr x
  | VObj o => inr (obj_get "0" o)
  | VStr (String c _) => inr (VStr (String c EmptyString))
  | VUndefined | VNull => inl (type_error "Cannot read property '0' of undefined")
  | _ => inr VUndefined
  end.

Definition nl : string := String "010"%char EmptyString.

(** A template literal that opens with a line break, holds [lines]
    indented by four blanks and closes on a line of its own, indented by
    two. *)
Definition template (lines : list string) : string :=
  nl +:+ fold_right (fun line rest => "    " +:+ line +:+ nl +:+ rest) "  " lines.

(** [Object.keys(o).forEach(property => script += ...)] *)
Definition set_properties (element : string) (o : Obj) (script : string) : string :=
  fold_left
    (fun script property =>
       script +:+ element +:+ ".property('" +:+ property +:+ "', " +:+ property +:+ ");")
    (map fst o) script.

(** The two [new Error(...)] of [get_es_client] and [get_gremlin_client]. *)
Definition no_es_client : Error :=
  JsError "To use elassandra features, set `manageESIndex` to true in ormOptions".

Definition no_gremlin_client : Error :=
  JsError "To use janus graph features, set `manageGraphs` to true in ormOptions".

Section Calls.
Variable properties : Properties.

Definition get_es_client : Error + Value :=
  if negb (truthy (esclient properties)) then inl no_es_client
  else inr (esclient properties).

Definition get_gremlin_client : Error + Value :=
  if negb (truthy (gremlin_client properties)) then inl no_gremlin_client
  else inr (gremlin_client properties).

Definition _execute_gremlin_query (script : string) (bindings : Obj)
    (callback : CbArgs -> Act unit) : Act unit :=
  gremlinClient ← lift get_gremlin_client;
  '(err, results) ← ask (gremlin_execute script bindings);
  later
    match err with
    | Some e => callback (Cb1 (Some e))
    | None => callback (Cb2 None results)
    end.

Definition _execute_gremlin_script (script : string) (bindings : Obj)
    (callback : CbArgs -> Act unit) : Act unit :=
  _execute_gremlin_query script bindings
    (fun args =>
       match cb_err args with
       | Some e => callback (Cb1 (Some e))
       | None =>
           first ← lift (first_item (cb_value args));
           callback (Cb2 None first)
       end).

Definition graph_name : string := keyspace properties +:+ "_graph".

(** The object [vertexProperties] refers to; a reference that holds
    nothing stands for a caller that passed no object, and
    [Object.keys] throws. *)
Definition createVertex (vertexProperties : positive) (callback : Value) : Act unit :=
  Get (fun st =>
    match st !! vertexProperties with
    | None => Raise (type_error "Cannot convert undefined or null to object")
    | Some o =>
        let script :=
          template ["graph = ConfiguredGraphFactory.open(__graphName);";
                    "vertex = graph.addVertex(__vertexLabel);"] in
        let script := set_properties "vertex" o script in
        let script := script +:+ "vertex" in
        let bindings :=
          defaults o [("__graphName", VStr graph_name);
                      ("__vertexLabel", VStr (table_name properties))] in
        Put (insert vertexProperties bindings)
          (_execute_gremlin_script script bindings (tell callback))
    end).

Definition getVertex (__vertexId : Value) (callback : Value) : Act unit :=
  let script :=
    template ["graph = ConfiguredGraphFactory.open(__graphName);";
              "g = graph.traversal();";
              "vertex = g.V(__vertexId);"] in
  let bindings := [("__graphName", VStr graph_name); ("__vertexId", __vertexId)] in
  _execute_gremlin_script script bindings (tell callback).

Definition updateVertex (__vertexId : Value) (vertexProperties : positive)
    (callback : Value) : Act unit :=
  Get (fun st =>
    match st !! vertexProperties with
    | None => Raise (type_error "Cannot convert undefined or null to object")
    | Some o =>
        let script :=
          template ["graph = ConfiguredGraphFactory.open(__graphName);";
                    "g = graph.traversal();";
                    "vertex = g.V(__vertexId);"] in
        let script := set_properties "vertex" o script in
        let script := script +:+ "vertex" in
        let bindings :=
          defaults o [("__graphName", VStr graph_name); ("__vertexId", __vertexId)] in
        Put (insert vertexProperties bindings)
          (_execute_gremlin_script script bindings (tell callback))
    end).

Definition deleteVertex (__vertexId : Value) (callback : Value) : Act unit :=
  let script :=
    template ["graph = ConfiguredGraphFactory.open(__graphName);";
              "g = graph.traversal();";
              "vertex = g.V(__vertexId);";
              "vertex.drop();"] in
  let bindings := [("__graphName", VStr graph_name); ("__vertexId", __vertexId)] in
  _execute_gremlin_script script bindings (tell callback).

Definition getEdge (__edgeId : Value) (callback : Value) : Act unit :=
  let script :=
    template ["graph = ConfiguredGraphFactory.open(__graphName);";
              "g = graph.traversal();";
              "edge = g.E(__edgeId);"] in
  let bindings := [("__graphName", VStr graph_name); ("__edgeId", __edgeId)] in
  _execute_gremlin_script script bindings (tell callback).

Definition updateEdge (__edgeId : Value) (edgeProperties : positive)
    (callback : Value) : Act unit :=
  Get (fun st =>
    match st !! edgeProperties with
    | None => Raise (type_error "Cannot convert undefined or null to object")
    | Some o =>
        let script :=
          template ["graph = ConfiguredGraphFactory.open(__graphName);";
                    "g = graph.traversal();";
                    "edge = g.E(__edgeId);"] in
        let script := set_properties "edge" o script in
        let script := script +:+ "edge" in
        let bindings :=
          defaults o [("__graphName", VStr graph_name); ("__edgeId", __edgeId)] in
        Put (insert edgeProperties bindings)
          (_execute_gremlin_script script bindings (tell callback))
    end).

Definition deleteEdge (__edgeId : Value) (callback : Value) : Act unit :=
  let script :=
    template ["graph = ConfiguredGraphFactory.open(__graphName);";
              "g = graph.traversal();";
              "edge = g.E(__edgeId);";
              "edge.drop();"] in
  let bindings := [("__graphName", VStr graph_name); ("__edgeId", __edgeId)] in
  _execute_gremlin_script script bindings (tell callback).

(** [params] that refers to nothing stands for a caller that passed no
    object: [_.defaults] then starts from an empty one of its own. *)
Definition graphQuery (query : string) (params : positive) (callback : Value)
  : Act unit :=
  Get (fun st =>
    let script :=
      template ["graph = ConfiguredGraphFactory.open(__graphName);";
                "g = graph.traversal();";
                "vertices = g.V().hasLabel(__vertexLabel);"] in
    let script := script +:+ query in
    let source := [("__graphName", VStr graph_name);
                   ("__vertexLabel", VStr (table_name properties))] in
    match st !! params with
    | Some o =>
        let bindings := defaults o source in
        Put (insert params bindings)
          (_execute_gremlin_query script bindings (tell callback))
    | None => _execute_gremlin_query script (defaults [] source) (tell callback)
    end).

Definition search (queryObject : positive) (callback : Value) : Act unit :=
  esClient ← lift get_es_client;
  let indexName := keyspace properties +:+ "_" +:+ table_name properties in
  let source := [("index", VStr indexName); ("type", VStr (table_name properties))] in
  let send (query : Obj) : Act unit :=
    '(err, response) ← ask (es_search query);
    later
      match err with
      | Some e => tell callback (Cb1 (Some e))
      | None => tell callback (Cb2 None response)
      end in
  Get (fun st =>
    match st !! queryObject with
    | Some o =>
        let query := defaults o source in
        Put (insert queryObject query) (send query)
    | None => send (defaults [] source)
    end).

End Calls.

End Graph.

(** * More scenarios *)

(** A parser and a normalizer that refuse something: a WHERE or an IF
    clause over a column the schema does not have, and a schema without
    fields.  And models with an index mapping and a graph mapping. *)
Module Examples.

Definition known (schema : Value) (queryObject : Obj) : bool :=
  forallb (fun p => Scenario.is_operator (fst p)
                    || truthy (prop (fst p) (prop "fields" schema)))
    queryObject.

Definition unknown_column : Error := buildError "model.find.invalidop" [].

Definition strict : Lib := {|
  error_message := fun kind _ _ => kind;
  inspect := fun _ => "[object Object]";
  normalize_model_schema := fun v =>
    match prop "fields" v with
    | VObj _ => inr v
    | _ => inl (JsError "no fields")
    end;
  normalize_query_option := fun o => o;
  get_orderby_clause := fun _ => inr EmptyString;
  get_limit_clause := fun q => inr (Scenario.limit_clause q);
  get_where_clause := fun schema q =>
    if known schema q then inr (Scenario.where_clause q) else inl unknown_column;
  get_select_clause := fun _ => inr "*";
  get_groupby_clause := fun _ => inr EmptyString;
  get_if_clause := fun schema conditions =>
    match conditions with
    | VObj o =>
        if known schema o
        then inr {| query := "IF " +:+ join " AND "
                               (map (fun p => Scenario.quoted (fst p) +:+ " = ?") o);
                    params := map snd o |}
        else inl unknown_column
    | _ => inl unknown_column
    end;
  get_update_value_expression := fun _ v =>
    inr (map (fun p => Scenario.quoted (fst p) +:+ "=?") (Scenario.columns v),
         map snd (Scenario.columns v));
  get_save_value_expression := fun this _ =>
    inr (map (fun p => Scenario.quoted (fst p)) (Scenario.columns this),
         map (fun _ => "?") (Scenario.columns this),
         map snd (Scenario.columns this));
  new_instance := fun row => row
|}.

(** [events] with an index mapping and an Elasticsearch client, and with
    a graph mapping and a Gremlin client when [graph] says so. *)
Definition mapped (graph : bool) : Properties :=
  {| name := "events";
     schema := Scenario.events_schema
                 ([("es_index_mapping", VObj [("discover", VStr ".*")])]
                  ++ if graph then [("graph_mapping", VObj [("relations", VObj [])])]
                     else []);
     keyspace := "ks"; table_name := "events";
     qualified_table_name := Scenario.quoted "ks" +:+ "." +:+ Scenario.quoted "events";
     migration := VStr "safe"; dropTableOnSchemaChange := VUndefined;
     createTable := VUndefined; esclient := VObj [];
     gremlin_client := if graph then VObj [] else VUndefined |}.

(** A model of another keyspace; [gremlin] is its Gremlin client. *)
Definition places (gremlin : Value) : Properties :=
  {| name := "places"; schema := Scenario.events_schema [];
     keyspace := "geo"; table_name := "places";
     qualified_table_name := Scenario.quoted "geo" +:+ "." +:+ Scenario.quoted "places";
     migration := VStr "safe"; dropTableOnSchemaChange := VUndefined;
     createTable := VUndefined; esclient := VUndefined; gremlin_client := gremlin |}.

(** A driver that fails every statement with [e]. *)
Definition failing (e : Error) : World :=
  fun tr c =>
    match c return Resp c with
    | execute_query _ _ _ => (Some e, VUndefined)
    | c => Scenario.world VUndefined None VUndefined [] tr c
    end.

(** Clients that answer every request with [results] and no error. *)
Definition clients (results : Value) : Graph.Clients :=
  fun _ r =>
    match r return Graph.Answer r with
    | Graph.gremlin_execute _ _ | Graph.es_search _ => (None, results)
    | Graph.callback_called _ _ | Graph.escaped _ => tt
    end.

End Examples.
(** * Properties *)

(** ** Running programs *)

Lemma exec_bind {A B : Type} (w : World) (p : Prog A) (f : A -> Prog B) s tr :
  exec w (bind p f) s tr =
  match outcome (exec w p s tr) with
  | inl e => {| outcome := inl e; final := final (exec w p s tr);
                trace := trace (exec w p s tr) |}
  | inr a => exec w (f a) (final (exec w p s tr)) (trace (exec w p s tr))
  end.
Proof.
  revert s tr.
  induction p as [a | e | c k IH | k IH | g k IH]; intros s tr; simpl; auto.
Qed.

Lemma exec_catch {A : Type} (w : World) (p : Prog A) (h : Error -> Prog A) s tr :
  exec w (catch p h) s tr =
  match outcome (exec w p s tr) with
  | inl e => exec w (h e) (final (exec w p s tr)) (trace (exec w p s tr))
  | inr a => exec w p s tr
  end.
Proof.
  revert s tr.
  induction p as [a | e | c k IH | k IH | g k IH]; intros s tr; simpl; auto.
Qed.

Lemma exec_mbind {A B : Type} (w : World) (p : Prog A) (f : A -> Prog B) s tr :
  exec w (p ≫= f) s tr =
  match outcome (exec w p s tr) with
  | inl e => {| outcome := inl e; final := final (exec w p s tr);
                trace := trace (exec w p s tr) |}
  | inr a => exec w (f a) (final (exec w p s tr)) (trace (exec w p s tr))
  end.
Proof. apply exec_bind. Qed.

Lemma exec_extends {A : Type} (w : World) (p : Prog A) s tr :
  exists rest, trace (exec w p s tr) = tr ++ rest.
Proof.
  revert s tr.
  induction p as [a | e | c k IH | k IH | g k IH]; intros s tr; simpl.
  - exists []. by rewrite app_nil_r.
  - exists []. by rewrite app_nil_r.
  - destruct (IH (w tr c) s (tr ++ [c])) as [rest ->].
    exists (c :: rest). by rewrite <- app_assoc.
  - apply IH.
  - apply IH.
Qed.

Lemma only_bind {A B : Type} (P : Cmd -> Prop) (p : Prog A) (f : A -> Prog B) :
  only P p -> (forall a, only P (f a)) -> only P (bind p f).
Proof.
  intros Hp Hf.
  induction p as [a | e | c k IH | k IH | g k IH]; simpl in *; auto.
  destruct Hp as [Hc Hk]. split; auto.
Qed.

Lemma only_catch {A : Type} (P : Cmd -> Prop) (p : Prog A) (h : Error -> Prog A) :
  only P p -> (forall e, only P (h e)) -> only P (catch p h).
Proof.
  intros Hp Hh.
  induction p as [a | e | c k IH | k IH | g k IH]; simpl in *; auto.
  destruct Hp as [Hc Hk]. split; auto.
Qed.

Lemma only_later (P : Cmd -> Prop) (p : Prog unit) :
  only P p -> (forall e, P (uncaught e)) -> only P (later p).
Proof.
  intros Hp Hu. apply only_catch; auto.
  intros e. simpl. auto.
Qed.

Lemma only_exec {A : Type} (P : Cmd -> Prop) (w : World) (p : Prog A) s tr :
  only P p -> Forall P tr -> Forall P (trace (exec w p s tr)).
Proof.
  revert s tr.
  induction p as [a | e | c k IH | k IH | g k IH]; intros s tr Hp Htr; simpl in *; auto.
  destruct Hp as [Hc Hk]. apply IH; auto.
  apply Forall_app. split; auto.
Qed.

Lemma only_run {A : Type} (P : Cmd -> Prop) (w : World) (p : Prog A) s :
  only P p -> Forall P (trace (run w p s)).
Proof. intros Hp. apply only_exec; [done | constructor]. Qed.

Lemma keeps_bind {A B : Type} (I : ModelState -> Prop) (p : Prog A) (f : A -> Prog B) :
  keeps I p -> (forall a, keeps I (f a)) -> keeps I (bind p f).
Proof.
  intros Hp Hf.
  induction p as [a | e | c k IH | k IH | g k IH]; simpl in *; auto.
  destruct Hp as [Hg Hk]. split; auto.
Qed.

Lemma keeps_catch {A : Type} (I : ModelState -> Prop) (p : Prog A) (h : Error -> Prog A) :
  keeps I p -> (forall e, keeps I (h e)) -> keeps I (catch p h).
Proof.
  intros Hp Hh.
  induction p as [a | e | c k IH | k IH | g k IH]; simpl in *; auto.
  destruct Hp as [Hg Hk]. split; auto.
Qed.

Lemma keeps_later (I : ModelState -> Prop) (p : Prog unit) :
  keeps I p -> keeps I (later p).
Proof.
  intros Hp. apply keeps_catch; auto.
  intros e. simpl. auto.
Qed.

Lemma keeps_exec {A : Type} (I : ModelState -> Prop) (w : World) (p : Prog A) s tr :
  keeps I p -> I s -> I (final (exec w p s tr)).
Proof.
  revert s tr.
  induction p as [a | e | c k IH | k IH | g k IH]; intros s tr Hp Hs; simpl in *; auto.
  destruct Hp as [Hg Hk]. apply IH; auto.
Qed.

(** The answer to a callback of the application carries nothing. *)
Ltac units :=
  repeat match goal with
    | |- context [?w0 ?t (user_callback ?n ?a)] => destruct (w0 t (user_callback n a))
    | |- context [?w0 ?t (uncaught ?e)] => destruct (w0 t (uncaught e))
    end.

Lemma exec_later_done (w : World) (p : Prog unit) s tr :
  outcome (exec w (later p) s tr) = inr tt.
Proof.
  unfold later. rewrite exec_catch.
  destruct (outcome (exec w p s tr)) as [e | []] eqn:Hp; simpl; [| done].
  by destruct (w _ (uncaught e)).
Qed.

Lemma exec_catch_later (w : World) (p : Prog unit) (h : Error -> Prog unit) s tr :
  exec w (catch (catch p (fun e => call (uncaught e))) h) s tr =
  exec w (catch p (fun e => call (uncaught e))) s tr.
Proof. rewrite exec_catch. by rewrite (exec_later_done w p). Qed.

Lemma only_mbind {A B : Type} (P : Cmd -> Prop) (p : Prog A) (f : A -> Prog B) :
  only P p -> (forall a, only P (f a)) -> only P (p ≫= f).
Proof. apply only_bind. Qed.

Lemma keeps_mbind {A B : Type} (I : ModelState -> Prop) (p : Prog A) (f : A -> Prog B) :
  keeps I p -> (forall a, keeps I (f a)) -> keeps I (p ≫= f).
Proof. apply keeps_bind. Qed.

Lemma only_weaken {A : Type} (P Q : Cmd -> Prop) (p : Prog A) :
  (forall c, P c -> Q c) -> only P p -> only Q p.
Proof.
  intros HPQ.
  induction p as [a | e | c k IH | k IH | g k IH]; simpl; auto.
  intros [Hc Hk]. split; auto.
Qed.

Lemma only_invoke (P : Cmd -> Prop) (v : Value) (args : CbArgs) :
  (forall n, P (user_callback n args)) -> only P (invoke (Val v) args).
Proof. intros HP. destruct v; simpl; auto. Qed.

Lemma keeps_invoke (I : ModelState -> Prop) (v : Value) (args : CbArgs) :
  keeps I (invoke (Val v) args).
Proof. destruct v; simpl; auto. Qed.

Lemma existsb_false_Forall {A : Type} (f : A -> bool) (l : list A) :
  Forall (fun x => f x = false) l -> existsb f l = false.
Proof.
  induction 1 as [| x l Hx _ IH]; simpl; auto.
  by rewrite Hx, IH.
Qed.

(** ** The decision of [_sync_model_definition] *)

Section SyncFacts.
Context `{Lib}.
Variable process_env : Obj.
Variable properties : Properties.
Variable w : World.
Variable s : ModelState.

(** The application's callback, a function value. *)
Variable cb : string.

Local Abbreviation sync := (_sync_model_definition process_env properties (Val (VFun cb))).

(** C3. When the table exists and both schemas normalize to equal values,
    the synchronisation answers [callback(null, false)] and calls nothing
    but [get_table_schema]; this holds whatever [process_env] and the
    properties say about the migration. *)
Theorem sync_equal_schemas_is_noop (dbSchema nModel nDB : Value) :
  w [] get_table_schema = (None, dbSchema) ->
  truthy dbSchema = true ->
  normalize_model_schema (schema properties) = inr nModel ->
  normalize_model_schema dbSchema = inr nDB ->
  isEqual nModel nDB = true ->
  run w sync s =
    {| outcome := inr tt; final := s;
       trace := [get_table_schema; user_callback cb (Cb2 None (VBool false))] |}.
Proof.
  intros Hw Hdb Hm Hd Heq.
  unfold run, _sync_model_definition. simpl.
  rewrite Hw. simpl. rewrite Hdb. simpl.
  rewrite Hm, Hd, Heq. simpl.
  by destruct (w _ (user_callback _ _)).
Qed.

(** C4. When the table does not exist: unless [createTable] is exactly
    [false] the table builder is asked to create the table right after the
    look-up; with [createTable === false] the callback gets the
    schema-not-found error and [create_table] is never called. *)
Theorem sync_absent_table_creates_or_rejects (dbSchema : Value) :
  w [] get_table_schema = (None, dbSchema) ->
  truthy dbSchema = false ->
  (is_false (createTable properties) = false ->
     exists rest,
       trace (run w sync s) =
         get_table_schema :: create_table (schema properties) :: rest) /\
  (is_false (createTable properties) = true ->
     run w sync s =
       {| outcome := inr tt; final := s;
          trace := [get_table_schema;
                    user_callback cb (Cb1 (Some (schema_not_found properties)))] |} /\
     existsb is_create (trace (run w sync s)) = false).
Proof.
  intros Hw Hdb.
  unfold run, _sync_model_definition. simpl.
  rewrite Hw. simpl. rewrite Hdb. simpl.
  split; intros Hct; rewrite Hct; simpl.
  - match goal with |- context [exec w ?p ?s0 ?t] =>
      destruct (exec_extends w p s0 t) as [rest ->] end.
    by exists rest.
  - by destruct (w _ (user_callback _ _)).
Qed.

Lemma only_task (P : Cmd -> Prop) (wanted : bool) (c : Cmd)
    (settle : Resp c -> option Error) :
  (wanted = true -> P c) -> only P (task wanted c settle).
Proof. intros HP. destruct wanted; simpl; auto. Qed.

Lemma afterDBCreate_only (v : Value) (err : option Error) :
  only (fun c => is_indexing c = true) (afterDBCreate properties (Val v) err).
Proof.
  unfold afterDBCreate. destruct err as [e |].
  - by apply only_invoke.
  - repeat (apply only_mbind; [by apply only_task | intros ?]).
    apply only_mbind; [by simpl | intros first].
    apply only_later; [| done].
    destruct (rejection _ _); by apply only_invoke.
Qed.

Lemma drop_recreate_only (v nDB : Value) :
  only (fun c => is_indexing c = true \/ is_drop_recreate c = true)
       (drop_recreate properties nDB (Val v)).
Proof.
  unfold drop_recreate.
  apply only_mbind; [simpl; auto | intros err].
  apply only_later; [| auto].
  eapply only_weaken; [| apply afterDBCreate_only]. auto.
Qed.

Lemma production_forces_safe :
  is_str "production" (obj_get "NODE_ENV" process_env) = true ->
  migration_policy process_env properties = VStr "safe".
Proof. intros Hprod. unfold migration_policy. by rewrite Hprod. Qed.

Lemma sync_safe_only :
  migration_policy process_env properties = VStr "safe" ->
  only (fun c => is_alter c = false /\ is_drop_recreate c = false) sync.
Proof.
  intros Hsafe.
  assert (Hafter : forall err,
    only (fun c => is_alter c = false /\ is_drop_recreate c = false)
         (afterDBCreate properties (Val (VFun cb)) err)).
  { intros err. eapply only_weaken; [| apply afterDBCreate_only].
    intros c Hc. by destruct c. }
  unfold _sync_model_definition. rewrite Hsafe.
  apply only_mbind; [by simpl | intros [err dbSchema]].
  apply only_later; [| done].
  destruct err as [e |]; [by apply only_invoke |].
  destruct (truthy dbSchema); cbn [negb].
  - destruct (normalize_model_schema (schema properties)) as [e | nModel]; [done |].
    destruct (normalize_model_schema dbSchema) as [e | nDB]; [done |].
    destruct (isEqual nModel nDB); by apply only_invoke.
  - destruct (is_false (createTable properties)); [by apply only_invoke |].
    apply only_mbind; [by simpl | intros err1].
    apply only_later; [apply Hafter | done].
Qed.

(** C1, amended.  With [NODE_ENV === 'production'] the policy in force is
    [safe] whatever the properties say; the run never calls
    [init_alter_operations] nor [drop_recreate_table], and it is a no-op, a
    creation, the migration-suspended rejection or, before any comparison
    is made, the schema-not-found rejection, the look-up error passed on
    or the invalid-schema error thrown. *)
Theorem production_never_alters_nor_drops :
  is_str "production" (obj_get "NODE_ENV" process_env) = true ->
  migration_policy process_env properties = VStr "safe"
  /\ existsb is_alter (trace (run w sync s)) = false
  /\ existsb is_drop_recreate (trace (run w sync s)) = false
  /\ safe_outcome properties w cb (run w sync s).
Proof.
  intros Hprod.
  pose proof (production_forces_safe Hprod) as Hsafe.
  pose proof (only_run _ w sync s (sync_safe_only Hsafe)) as Hall.
  split; [done |].
  split; [| split].
  - apply existsb_false_Forall. eapply Forall_impl; [apply Hall |]. by intros c [? ?].
  - apply existsb_false_Forall. eapply Forall_impl; [apply Hall |]. by intros c [? ?].
  - clear Hall. unfold safe_outcome, run, _sync_model_definition.
    rewrite Hsafe. simpl.
    destruct (w [] get_table_schema) as [[e |] dbSchema] eqn:Hw; simpl.
    { do 4 right. left. by exists e. }
    destruct (truthy dbSchema); simpl.
    + destruct (normalize_model_schema (schema properties)) as [e | nModel]; simpl.
      { do 5 right. by eexists. }
      destruct (normalize_model_schema dbSchema) as [e | nDB]; simpl.
      { do 5 right. by eexists. }
      destruct (isEqual nModel nDB); simpl.
      * by left.
      * right. right. by left.
    + destruct (is_false (createTable properties)); simpl.
      * do 3 right. by left.
      * right. left.
        match goal with |- context [exec w ?p ?s0 ?t] =>
          destruct (exec_extends w p s0 t) as [rest ->] end.
        by exists rest.
Qed.

(** C2. The table exists, the normalized schemas differ, and so do their
    keys or their clustering orders.  Then [init_alter_operations] is not
    called at all, and when the policy in force is [alter] the look-up is
    followed at once by [drop_recreate_table]. *)
Theorem key_change_skips_alter (dbSchema nModel nDB : Value) :
  w [] get_table_schema = (None, dbSchema) ->
  truthy dbSchema = true ->
  normalize_model_schema (schema properties) = inr nModel ->
  normalize_model_schema dbSchema = inr nDB ->
  isEqual nModel nDB = false ->
  isEqual (prop "key" nModel) (prop "key" nDB)
    && isEqual (prop "clustering_order" nModel) (prop "clustering_order" nDB) = false ->
  existsb is_alter (trace (run w sync s)) = false
  /\ (migration_policy process_env properties = VStr "alter" ->
      exists rest,
        trace (run w sync s) =
          get_table_schema
            :: drop_recreate_table (schema properties) (prop "materialized_views" nDB)
            :: rest).
Proof.
  intros Hw Hdb Hm Hd Hne Hkey.
  assert (Hdrop : forall tr,
    Forall (fun c => is_alter c = false) tr ->
    Forall (fun c => is_alter c = false)
      (trace (exec w (later (drop_recreate properties nDB (Val (VFun cb)))) s tr))).
  { intros tr Htr. apply only_exec; [| done].
    apply only_later; [| done].
    eapply only_weaken; [| apply drop_recreate_only].
    intros c [Hc | Hc]; by destruct c. }
  unfold run, _sync_model_definition. simpl.
  rewrite Hw. simpl. rewrite Hdb. simpl. rewrite Hm, Hd, Hne, Hkey.
  split.
  - apply existsb_false_Forall.
    destruct (is_str "alter" _).
    + apply Hdrop. by repeat constructor.
    + destruct (is_str "drop" _).
      * apply Hdrop. by repeat constructor.
      * simpl. by repeat constructor.
  - intros ->. simpl. unfold drop_recreate. simpl.
    match goal with |- context [exec w ?p ?s0 ?t] =>
      destruct (exec_extends w p s0 t) as [rest ->] end.
    by exists rest.
Qed.

(** C5. The table exists, the normalized schemas differ with equal keys
    and clustering orders, and the policy in force is [alter], so
    [init_alter_operations] is called.  If it fails with the message
    [alter_impossible], no callback is made: [drop_recreate_table] is
    called next and the run goes on as [afterDBCreate] on its answer.  If
    it fails otherwise, the callback gets that very error and nothing else
    is called. *)
Theorem alter_impossible_falls_back (dbSchema nModel nDB : Value) (e : Error) :
  let alter := init_alter_operations (schema properties) dbSchema nModel nDB in
  let drop := drop_recreate_table (schema properties) (prop "materialized_views" nDB) in
  w [] get_table_schema = (None, dbSchema) ->
  truthy dbSchema = true ->
  normalize_model_schema (schema properties) = inr nModel ->
  normalize_model_schema dbSchema = inr nDB ->
  isEqual nModel nDB = false ->
  isEqual (prop "key" nModel) (prop "key" nDB)
    && isEqual (prop "clustering_order" nModel) (prop "clustering_order" nDB) = true ->
  migration_policy process_env properties = VStr "alter" ->
  w [get_table_schema] alter = Some e ->
  (message e = "alter_impossible" ->
     run w sync s =
       exec w (later (afterDBCreate properties (Val (VFun cb))
                        (w [get_table_schema; alter] drop)))
            s [get_table_schema; alter; drop])
  /\ (message e <> "alter_impossible" ->
      run w sync s =
        {| outcome := inr tt; final := s;
           trace := [get_table_schema; alter; user_callback cb (Cb1 (Some e))] |}).
Proof.
  intros alter drop Hw Hdb Hm Hd Hne Hkey Hpol Halter.
  unfold run, _sync_model_definition. simpl.
  rewrite Hw. simpl. rewrite Hdb. simpl. rewrite Hm, Hd, Hne, Hkey, Hpol. simpl.
  fold alter. rewrite Halter. simpl.
  split; intros Hmsg.
  - rewrite Hmsg. simpl. fold drop.
    unfold later. by rewrite !exec_catch_later.
  - apply String.eqb_neq in Hmsg. rewrite Hmsg. simpl. by units.
Qed.

End SyncFacts.

(** ** Statements *)

Lemma append_nil_r (a : string) : a +:+ EmptyString = a.
Proof.
  induction a as [| c a IH]; [done |].
  change (String c (a +:+ EmptyString) = String c a). by rewrite IH.
Qed.

Lemma append_assoc (a b c : string) : (a +:+ b) +:+ c = a +:+ (b +:+ c).
Proof.
  induction a as [| x a IH]; [done |].
  change (String x ((a +:+ b) +:+ c) = String x (a +:+ (b +:+ c))). by rewrite IH.
Qed.

Lemma append_cons (x : ascii) (a b : string) : String x a +:+ b = String x (a +:+ b).
Proof. reflexivity. Qed.

Lemma append_nil_l (a : string) : EmptyString +:+ a = a.
Proof. reflexivity. Qed.

(** Appends to the right, literals pulled to the front. *)
Ltac flatten :=
  repeat (rewrite append_cons || rewrite append_nil_l || rewrite append_assoc
          || rewrite append_nil_r).

Lemma append_segment (q clause : string) :
  (if negb (String.eqb clause EmptyString) then q +:+ format " %s" [clause] else q)
  = q +:+ segment clause.
Proof.
  unfold segment. destruct (String.eqb clause EmptyString); cbn [negb format].
  - by rewrite append_nil_r.
  - cbn. by rewrite append_nil_r.
Qed.

Section FindFacts.
Context `{Lib}.
Variable properties : Properties.

(** C6, amended.  Whenever the parser delivers the five clauses,
    [get_find_query] answers the statement [SELECT [DISTINCT] projection
    FROM target], followed by the WHERE, ORDER BY, GROUP BY and LIMIT
    clauses, each present exactly when it is not empty, then
    [ALLOW FILTERING] when the option is set; the target is the
    materialized view when the option names one and the table otherwise.
    The parameters are those of the WHERE clause and no others. *)
Theorem get_find_query_layout (queryObject options : Obj)
    (orderbyClause limitClause selectClause groupbyClause : string) (whereClause : Clause) :
  get_orderby_clause queryObject = inr orderbyClause ->
  get_limit_clause queryObject = inr limitClause ->
  get_where_clause (schema properties) queryObject = inr whereClause ->
  get_select_clause options = inr selectClause ->
  get_groupby_clause options = inr groupbyClause ->
  get_find_query properties queryObject options =
    inr {| query := find_layout options (find_target properties options) selectClause
                      (query whereClause) orderbyClause groupbyClause limitClause;
           params := params whereClause |}.
Proof.
  intros Ho Hl Hw Hs Hg.
  unfold get_find_query. rewrite Ho, Hl, Hw, Hs, Hg. simpl.
  do 2 f_equal.
  rewrite !append_segment.
  unfold find_layout, find_target, dq.
  destruct (truthy (obj_get "distinct" options)),
           (truthy (obj_get "allow_filtering" options)); by flatten.
Qed.

End FindFacts.

(** ** Building and binding: [update], [delete], [save] *)

Lemma obj_get_set_ne (k k' : string) (v : Value) (o : Obj) :
  k <> k' -> obj_get k' (obj_set k v o) = obj_get k' o.
Proof.
  intros Hne. unfold Obj in o. induction o as [| [k0 v0] o IH]; simpl.
  - destruct (String.eqb_spec k k'); [done | reflexivity].
  - destruct (String.eqb_spec k0 k) as [-> | Hk]; simpl.
    + destruct (String.eqb_spec k k'); [done | reflexivity].
    + destruct (String.eqb_spec k0 k'); [reflexivity | apply IH].
Qed.

Lemma obj_get_set_eq (k : string) (v : Value) (o : Obj) :
  obj_get k (obj_set k v o) = v.
Proof.
  unfold Obj in o. induction o as [| [k0 v0] o IH]; simpl.
  - by rewrite String.eqb_refl.
  - destruct (String.eqb_spec k0 k) as [-> | Hk]; simpl.
    + by rewrite String.eqb_refl.
    + destruct (String.eqb_spec k0 k); [done | apply IH].
Qed.

(** The defaults of the model add [prepare] and nothing else. *)
Lemma defaultsDeep_prepare (options : Arg) (k : string) :
  k <> "prepare" ->
  obj_get k (defaultsDeep options [("prepare", VBool true)])
  = obj_get k (match options with Val (VObj o) => o | _ => [] end).
Proof.
  intros Hne. unfold defaultsDeep. simpl.
  destruct (obj_get "prepare" _); try reflexivity.
  apply obj_get_set_ne. congruence.
Qed.

Lemma executed_app (tr rest : list Cmd) (st : string * list Value) :
  executed tr = Some st -> executed (tr ++ rest) = Some st.
Proof.
  induction tr as [| c tr IH]; simpl; [done |].
  destruct c; auto.
Qed.

Lemma executed_exec {A : Type} (w : World) (p : Prog A) s tr st :
  executed tr = Some st -> executed (trace (exec w p s tr)) = Some st.
Proof.
  intros Htr. destruct (exec_extends w p s tr) as [rest ->].
  by apply executed_app.
Qed.

Lemma executed_snoc (tr : list Cmd) q ps o :
  executed tr = None -> executed (tr ++ [execute_query q ps o]) = Some (q, ps).
Proof.
  induction tr as [| c tr IH]; simpl; [done |].
  destruct c; auto; discriminate.
Qed.

Lemma executed_snoc_callback (tr : list Cmd) n args :
  executed tr = None -> executed (tr ++ [user_callback n args]) = None.
Proof.
  induction tr as [| c tr IH]; simpl; [done |].
  destruct c; auto; discriminate.
Qed.

Lemma update_text (table clauses whereClause : string) (ttl : bool) :
  format ((if ttl then ("UPDATE " +:+ dq +:+ "%s" +:+ dq) +:+ " USING TTL ?"
           else "UPDATE " +:+ dq +:+ "%s" +:+ dq) +:+ " SET %s %s")
    [table; clauses; whereClause]
  = "UPDATE " +:+ dq +:+ table +:+ dq
    +:+ (if ttl then " USING TTL ?" else EmptyString)
    +:+ " SET " +:+ clauses +:+ " " +:+ whereClause.
Proof. unfold dq. destruct ttl; simpl; by flatten. Qed.

Lemma delete_text (table whereClause : string) :
  format ("DELETE FROM " +:+ dq +:+ "%s" +:+ dq +:+ " %s;") [table; whereClause]
  = delete_layout table whereClause.
Proof. unfold delete_layout, dq. simpl. by flatten. Qed.

Lemma save_text (table identifiers values : string) :
  format ("INSERT INTO " +:+ dq +:+ "%s" +:+ dq +:+ " ( %s ) VALUES ( %s )")
    [table; identifiers; values]
  = "INSERT INTO " +:+ dq +:+ table +:+ dq
    +:+ " ( " +:+ identifiers +:+ " ) VALUES ( " +:+ values +:+ " )".
Proof. unfold dq. simpl. by flatten. Qed.

Section BindFacts.
Context `{Lib}.
Variable properties : Properties.
Variable w : World.

(** A call that ends in [callback_or_throw] has built no statement. *)
Lemma rejected_no_statement (e : Error) (callback : Arg) s tr :
  external callback ->
  executed tr = None ->
  statement_of (exec w (callback_or_throw e callback;; Ret (VObj [])) s tr) = None.
Proof.
  intros Hext Htr. unfold statement_of.
  destruct callback as [| v | f]; [| | done].
  - simpl. by rewrite Htr.
  - destruct v; simpl; rewrite ?Htr; try done.
    by rewrite executed_snoc_callback.
Qed.

(** A call that reaches [_execute_table_query] has executed its statement. *)
Lemma executed_statement (q : string) (ps : list Value) (o : Obj) (callback : Arg) s tr :
  is_missing callback = false ->
  executed tr = None ->
  statement_of (exec w (_execute_table_query q ps (Val (VObj o)) callback;; Ret (VObj [])) s tr)
  = Some (q, ps).
Proof.
  intros Hcb Htr. unfold statement_of, _execute_table_query.
  rewrite Hcb. simpl.
  destruct (is_true (_ready s)); simpl;
    by erewrite executed_exec; [| apply executed_snoc].
Qed.

(** The run of a hook: its answer and what it leaves of its arguments. *)
Lemma hook_rejects_run (h : string) (args : list Value) s tr :
  exec w (hook_rejects properties h args) s tr
  = {| outcome :=
         inr match prop h (schema properties) with
             | VFun f =>
                 (is_false (fst (w tr (apply_function f args))),
                  handed_back args (snd (w tr (apply_function f args))))
             | _ => (false, args)
             end;
       final := s; trace := tr ++ hook_call properties h args |}.
Proof.
  unfold hook_rejects, hook_call.
  destruct (prop h (schema properties)); simpl; by rewrite ?app_nil_r.
Qed.

Lemma before_hook_run (h : string) (args : list Value) s :
  exec w (hook_rejects properties h args) s []
  = {| outcome := inr (before_call properties w h args); final := s;
       trace := hook_call properties h args |}.
Proof. by rewrite hook_rejects_run. Qed.

Lemma executed_hook_call (h : string) (args : list Value) :
  executed (hook_call properties h args) = None.
Proof. unfold hook_call. by destruct (prop _ _). Qed.

(** Whichever way the statement leaves, returned or executed, it is the
    statement of the call. *)
Lemma statement_leaves (q : string) (ps : list Value) (options : Obj) (k : Arg) s tr :
  is_missing k = false ->
  executed tr = None ->
  statement_of
    (exec w (if truthy (obj_get "return_query" options)
             then Ret (return_object q ps)
             else
               _execute_table_query q ps (Val (VObj (normalize_query_option options))) k;;
               Ret (VObj [])) s tr)
  = Some (q, ps).
Proof.
  intros Hk Htr. destruct (truthy _).
  - unfold statement_of. simpl. by rewrite Htr.
  - by rewrite executed_statement.
Qed.

(** The statement [update] builds from what the before-hook leaves. *)
Lemma update_builds (queryObject queryObject' : Obj) (updateValues updateValues' : Value)
    (opts options' : Obj) (callback : Arg) (updateClauses : list string)
    (queryParams : list Value) (whereClause ifClause : Clause) s :
  let options := defaultsDeep (Val (VObj opts)) [("prepare", VBool true)] in
  let ttl := isNumber (obj_get "ttl" options') in
  let condition := update_condition options' ifClause in
  before_call properties w "before_update" [VObj queryObject; updateValues; VObj options]
    = (false, [VObj queryObject'; updateValues'; VObj options']) ->
  get_update_value_expression (schema properties) updateValues'
    = inr (updateClauses, queryParams) ->
  get_where_clause (schema properties) queryObject' = inr whereClause ->
  (truthy (obj_get "conditions" options') = true ->
   get_if_clause (schema properties) (obj_get "conditions" options') = inr ifClause) ->
  statement_of (run w (update properties queryObject updateValues
                         (Val (VObj opts)) callback) s)
  = Some (update_layout (table_name properties) ttl updateClauses
            (query whereClause) (fst condition),
          (if ttl then [obj_get "ttl" options'] else [])
          ++ queryParams ++ params whereClause ++ snd condition).
Proof.
  intros options ttl condition Hhook Hset Hwhere Hif.
  unfold run, update. rewrite andb_false_r. fold options.
  rewrite exec_mbind, before_hook_run, Hhook.
  cbn [outcome final trace fst snd]. cbv iota.
  change (object_at 0 [VObj queryObject'; updateValues'; VObj options'] queryObject)
    with queryObject'.
  change (value_at 1 [VObj queryObject'; updateValues'; VObj options'] updateValues)
    with updateValues'.
  change (object_at 2 [VObj queryObject'; updateValues'; VObj options'] options)
    with options'.
  rewrite Hset, Hwhere. fold ttl.
  rewrite exec_mbind.
  assert (Hq : forall cond,
    format ((if ttl then ("UPDATE " +:+ dq +:+ "%s" +:+ dq) +:+ " USING TTL ?"
             else "UPDATE " +:+ dq +:+ "%s" +:+ dq) +:+ " SET %s %s")
      [table_name properties; join ", " updateClauses; query whereClause]
    +:+ cond +:+ ";"
    = update_layout (table_name properties) ttl updateClauses (query whereClause) cond).
  { intros cond. rewrite update_text. unfold update_layout. by flatten. }
  assert (Htr := executed_hook_call "before_update"
                   [VObj queryObject; updateValues; VObj options]).
  unfold condition, update_condition.
  destruct (truthy (obj_get "conditions" options')) eqn:Hc.
  - rewrite Hif by done.
    cbn [lift mbind prog_bind bind exec outcome final trace].
    destruct (String.eqb (query ifClause) EmptyString) eqn:Hempty;
      cbn [negb fst snd]; rewrite statement_leaves by done; f_equal; f_equal.
    + rewrite <- Hq. by flatten.
    + destruct ttl; simpl; by rewrite ?app_nil_r.
    + rewrite <- Hq. simpl format. by flatten.
    + destruct ttl; simpl; by rewrite <- ?app_assoc.
  - destruct (truthy (obj_get "if_exists" options'));
      cbn [mbind prog_bind bind exec outcome final trace fst snd];
      rewrite statement_leaves by done; f_equal; f_equal.
    + rewrite <- Hq. by flatten.
    + destruct ttl; simpl; by rewrite ?app_nil_r.
    + rewrite <- Hq. by flatten.
    + destruct ttl; simpl; by rewrite ?app_nil_r.
Qed.

(** The statement [delete] builds from what the before-hook leaves. *)
Lemma delete_builds (queryObject queryObject' opts options' : Obj) (callback : Arg)
    (whereClause : Clause) s :
  let options := defaultsDeep (Val (VObj opts)) [("prepare", VBool true)] in
  before_call properties w "before_delete" [VObj queryObject; VObj options]
    = (false, [VObj queryObject'; VObj options']) ->
  get_where_clause (schema properties) queryObject' = inr whereClause ->
  statement_of (run w (delete properties queryObject (Val (VObj opts)) callback) s)
  = Some (delete_layout (table_name properties) (query whereClause), params whereClause).
Proof.
  intros options Hhook Hwhere.
  unfold run, delete. rewrite andb_false_r. fold options.
  rewrite exec_mbind, before_hook_run, Hhook.
  cbn [outcome final trace fst snd]. cbv iota.
  change (object_at 0 [VObj queryObject'; VObj options'] queryObject) with queryObject'.
  change (object_at 1 [VObj queryObject'; VObj options'] options) with options'.
  rewrite Hwhere, delete_text.
  rewrite statement_leaves; [done | done | apply executed_hook_call].
Qed.

(** The statement [save] builds from what the before-hook leaves. *)
Lemma save_builds (this this' : Value) (opts options' : Obj) (callback : Arg)
    (identifiers values : list string) (queryParams : list Value) s :
  let options := defaultsDeep (Val (VObj opts)) [("prepare", VBool true)] in
  let ttl := isNumber (obj_get "ttl" options') in
  before_call properties w "before_save" [this; VObj options]
    = (false, [this'; VObj options']) ->
  get_save_value_expression this' (schema properties)
    = inr (identifiers, values, queryParams) ->
  statement_of (run w (save properties this (Val (VObj opts)) callback) s)
  = Some (save_layout (table_name properties) identifiers values
            (truthy (obj_get "if_not_exist" options')) ttl,
          queryParams ++ (if ttl then [obj_get "ttl" options'] else [])).
Proof.
  intros options ttl Hhook Hsave.
  unfold run, save. rewrite andb_false_r. fold options.
  rewrite exec_mbind, before_hook_run, Hhook.
  cbn [outcome final trace fst snd]. cbv iota.
  change (value_at 0 [this'; VObj options'] this) with this'.
  change (object_at 1 [this'; VObj options'] options) with options'.
  rewrite Hsave, save_text. fold ttl.
  rewrite statement_leaves; [| done | apply executed_hook_call].
  f_equal. f_equal.
  - unfold save_layout. destruct (truthy _), ttl; by flatten.
  - destruct ttl; by rewrite ?app_nil_r.
Qed.

(** C7, amended.  When the options carry a numeric [ttl] as the
    before-hook leaves them and the clauses can be built, [update]
    builds a statement (executed, or returned under [return_query]) that
    binds the TTL first and the values of the SET clause right after it,
    and [save] builds a statement that binds the column values and the
    TTL last. *)
Theorem ttl_first_in_update_last_in_save (queryObject queryObject' : Obj)
    (updateValues updateValues' this this' : Value) (opts options' : Obj)
    (callback : Arg) (n : Z) s :
  let options := defaultsDeep (Val (VObj opts)) [("prepare", VBool true)] in
  obj_get "ttl" options' = VNum n ->
  (forall updateClauses queryParams whereClause ifClause,
     before_call properties w "before_update" [VObj queryObject; updateValues; VObj options]
       = (false, [VObj queryObject'; updateValues'; VObj options']) ->
     get_update_value_expression (schema properties) updateValues'
       = inr (updateClauses, queryParams) ->
     get_where_clause (schema properties) queryObject' = inr whereClause ->
     (truthy (obj_get "conditions" options') = true ->
      get_if_clause (schema properties) (obj_get "conditions" options') = inr ifClause) ->
     exists q rest,
       statement_of (run w (update properties queryObject updateValues
                              (Val (VObj opts)) callback) s)
       = Some (q, VNum n :: queryParams ++ rest))
  /\ (forall identifiers values queryParams,
     before_call properties w "before_save" [this; VObj options]
       = (false, [this'; VObj options']) ->
     get_save_value_expression this' (schema properties)
       = inr (identifiers, values, queryParams) ->
     exists q,
       statement_of (run w (save properties this (Val (VObj opts)) callback) s)
       = Some (q, queryParams ++ [VNum n])).
Proof.
  intros options Httl. split.
  - intros updateClauses queryParams whereClause ifClause Hhook Hset Hwhere Hif.
    rewrite (update_builds queryObject queryObject' updateValues updateValues' opts options'
               callback updateClauses queryParams whereClause ifClause s Hhook Hset Hwhere Hif).
    rewrite Httl. cbn [isNumber]. by do 2 eexists.
  - intros identifiers values queryParams Hhook Hsave.
    rewrite (save_builds this this' opts options' callback identifiers values queryParams s
               Hhook Hsave).
    rewrite Httl. cbn [isNumber]. by eexists.
Qed.

Lemma callback_or_throw_run (e : Error) (callback : Arg) s tr :
  external callback ->
  (exists c, exec w (callback_or_throw e callback;; Ret (VObj [])) s tr
             = {| outcome := inr (VObj []); final := s;
                  trace := tr ++ [user_callback c (Cb1 (Some e))] |})
  \/ exec w (callback_or_throw e callback;; Ret (VObj [])) s tr
     = {| outcome := inl e; final := s; trace := tr |}.
Proof.
  intros Hext. destruct callback as [| v | f]; [by right | | done].
  destruct v; try by right.
  left. eexists. simpl. reflexivity.
Qed.

(** A call stopped by its before-hook ends as [aborted] says. *)
Lemma rejected_by_hook (kind h f : string) (args : list Value) (callback : Arg)
    (rest : bool * list Value -> Prog Value) s :
  external callback ->
  prop h (schema properties) = VFun f ->
  fst (w [] (apply_function f args)) = VBool false ->
  run w (hooked ← hook_rejects properties h args;
         if fst (hooked : bool * list Value)
         then callback_or_throw (buildError kind []) callback;; Ret (VObj [])
         else rest hooked) s
  = aborted kind f args callback s.
Proof.
  intros Hext Hh Hw. unfold run.
  rewrite exec_mbind, before_hook_run. unfold before_call, hook_call.
  rewrite Hh, Hw. cbn [outcome final trace fst snd is_false]. cbv iota.
  by destruct callback as [| [] |].
Qed.

(** C8, amended.  A before-hook that returns exactly [false] stops
    [update], [delete] and [save] right after it has been called: the
    before-hook error of the operation goes to the callback when there
    is a callback function and is thrown when there is none; nothing
    else is called, so no statement is built or executed, and the model
    state is as it was. *)
Theorem before_hook_returning_false_aborts (f : string) (queryObject : Obj)
    (updateValues this : Value) (options callback : Arg) s :
  let swap := is_missing callback && arg_is_function options in
  let given := if swap then options else callback in
  let options' := defaultsDeep (if swap then Val (VObj []) else options)
                    [("prepare", VBool true)] in
  external options ->
  external callback ->
  (forall args, fst (w [] (apply_function f args)) = VBool false) ->
  (prop "before_update" (schema properties) = VFun f ->
     run w (update properties queryObject updateValues options callback) s
     = aborted "model.update.before.error" f
         [VObj queryObject; updateValues; VObj options'] given s)
  /\ (prop "before_delete" (schema properties) = VFun f ->
     run w (delete properties queryObject options callback) s
     = aborted "model.delete.before.error" f [VObj queryObject; VObj options'] given s)
  /\ (prop "before_save" (schema properties) = VFun f ->
     run w (save properties this options callback) s
     = aborted "model.save.before.error" f [this; VObj options'] given s).
Proof.
  intros swap given options' Hopt Hcb Hw.
  assert (Hext : external given).
  { unfold given. by destruct swap. }
  repeat split; intros Hh.
  - unfold update. by apply rejected_by_hook.
  - unfold delete. by apply rejected_by_hook.
  - unfold save. by apply rejected_by_hook.
Qed.

End BindFacts.

(** ** What a call does to the model state *)

Section StateFacts.
Context `{Lib}.
Variable process_env : Obj.
Variable properties : Properties.
Variable I : ModelState -> Prop.
Hypothesis I_ready : forall s, I s -> I (set_ready (VBool true) s).

Local Abbreviation quiet := (quiet I).

Lemma quiet_external (a : Arg) : external a -> quiet a.
Proof.
  intros Hext args. destruct a as [| v | f]; [by simpl | apply keeps_invoke | done].
Qed.

Lemma quiet_if (b : bool) (a1 a2 : Arg) : quiet a1 -> quiet a2 -> quiet (if b then a1 else a2).
Proof. by destruct b. Qed.

Lemma quiet_passed (a : Arg) : quiet a -> quiet (passed a).
Proof. intros Ha. by destruct a. Qed.

Lemma keeps_lift {A : Type} (r : Error + A) : keeps I (lift r).
Proof. by destruct r. Qed.

Lemma keeps_callback_or_throw (e : Error) (a : Arg) :
  quiet a -> keeps I (callback_or_throw e a).
Proof. intros Ha. unfold callback_or_throw. destruct (arg_is_function a); [apply Ha | done]. Qed.

Lemma keeps_task (wanted : bool) (c : Cmd) (settle : Resp c -> option Error) :
  keeps I (task wanted c settle).
Proof. destruct wanted; by simpl. Qed.

Lemma keeps_afterDBCreate (a : Arg) (err : option Error) :
  quiet a -> keeps I (afterDBCreate properties a err).
Proof.
  intros Ha. unfold afterDBCreate. destruct err as [e |]; [apply Ha |].
  repeat (apply keeps_mbind; [apply keeps_task | intros ?]).
  apply keeps_mbind; [by simpl | intros first].
  apply keeps_later. destruct (rejection _ _); apply Ha.
Qed.

Lemma keeps_drop_recreate (a : Arg) (nDB : Value) :
  quiet a -> keeps I (drop_recreate properties nDB a).
Proof.
  intros Ha. unfold drop_recreate.
  apply keeps_mbind; [by simpl | intros err].
  by apply keeps_later, keeps_afterDBCreate.
Qed.

Lemma keeps_sync_model_definition (a : Arg) :
  quiet a -> keeps I (_sync_model_definition process_env properties a).
Proof.
  intros Ha. unfold _sync_model_definition.
  apply keeps_mbind; [by simpl | intros [err dbSchema]].
  apply keeps_later.
  destruct err as [e |]; [apply Ha |].
  destruct (negb (truthy dbSchema)).
  { destruct (is_false _); [apply Ha |].
    apply keeps_mbind; [by simpl | intros err1].
    by apply keeps_later, keeps_afterDBCreate. }
  destruct (normalize_model_schema (schema properties)) as [e | nModel]; [done |].
  destruct (normalize_model_schema dbSchema) as [e | nDB]; [done |].
  destruct (isEqual nModel nDB); [apply Ha |].
  destruct (is_str "alter" _).
  { destruct (_ && _); [| by apply keeps_drop_recreate].
    apply keeps_mbind; [by simpl | intros err1].
    apply keeps_later.
    destruct err1 as [e |]; [| apply Ha].
    destruct (String.eqb _ _); [by apply keeps_drop_recreate | apply Ha]. }
  destruct (is_str "drop" _); [by apply keeps_drop_recreate | apply Ha].
Qed.

Lemma keeps_sync_es_index (a : Arg) :
  quiet a -> keeps I (_sync_es_index properties a).
Proof.
  intros Ha. unfold _sync_es_index. destruct (_ && _); [| apply Ha].
  apply keeps_mbind; [by simpl | intros err].
  apply keeps_later. destruct err; [apply Ha |].
  apply keeps_mbind; [by simpl | intros args]. apply keeps_later, Ha.
Qed.

Lemma keeps_sync_graph (a : Arg) :
  quiet a -> keeps I (_sync_graph properties a).
Proof.
  intros Ha. unfold _sync_graph. destruct (_ && _); [| apply Ha].
  apply keeps_mbind; [by simpl | intros err].
  apply keeps_later. destruct err; [apply Ha |].
  apply keeps_mbind; [by simpl | intros args]. apply keeps_later, Ha.
Qed.

Lemma keeps_init (options callback : Arg) :
  quiet options -> quiet callback -> keeps I (init options callback).
Proof.
  intros Ho Hc. unfold init. split; [done |].
  destruct (negb _); [apply Ho | apply Hc].
Qed.

Lemma keeps_syncDB (a : Arg) :
  quiet a -> keeps I (syncDB process_env properties a).
Proof.
  intros Ha. unfold syncDB.
  apply keeps_sync_model_definition. intros args. simpl.
  destruct (cb_err args); [apply Ha |].
  apply keeps_sync_es_index. intros args1. simpl.
  destruct (cb_err args1); [apply Ha |].
  apply keeps_sync_graph. intros args2. simpl.
  destruct (cb_err args2); [apply Ha |].
  split; [done | apply Ha].
Qed.

Lemma keeps_doExecuteQuery q ps o (a : Arg) :
  quiet a -> keeps I (doExecuteQuery q ps o a).
Proof.
  intros Ha. unfold doExecuteQuery.
  apply keeps_mbind; [by simpl | intros [err results]].
  apply keeps_later, Ha.
Qed.

Lemma keeps_execute_table_query q ps (options callback : Arg) :
  quiet options -> quiet callback ->
  keeps I (_execute_table_query q ps options callback).
Proof.
  intros Ho Hc. unfold _execute_table_query.
  assert (Hq : quiet (if is_missing callback then options else callback))
    by by apply quiet_if.
  apply keeps_mbind; [by simpl | intros ready].
  destruct ready; [by apply keeps_doExecuteQuery |].
  apply keeps_init; [| done].
  intros args. simpl. destruct (cb_err args); [apply Hq |].
  by apply keeps_doExecuteQuery.
Qed.

Lemma keeps_require_callback (callback options : Arg) :
  keeps I (require_callback callback options).
Proof.
  unfold require_callback. destruct (arg_is_function callback); [done |].
  apply keeps_mbind.
  - destruct options as [| [] |]; by simpl.
  - intros v. by destruct (truthy v).
Qed.

Lemma keeps_find (queryObject : positive) (options callback : Arg) :
  quiet options -> quiet callback ->
  keeps I (find properties queryObject options callback).
Proof.
  intros Ho Hc. unfold find.
  set (swap := is_missing callback && arg_is_function options).
  assert (Hq : quiet (if swap then options else callback)) by by apply quiet_if.
  apply keeps_mbind; [apply keeps_require_callback | intros _].
  intros s. destruct (match heap s !! queryObject with Some _ => _ | None => _ end)
    as [e | findQuery].
  { apply keeps_mbind; [by apply keeps_callback_or_throw | done]. }
  destruct (truthy _); [done |].
  apply keeps_mbind; [| done].
  apply keeps_execute_table_query; [by apply quiet_external |].
  intros args. simpl. destruct (cb_err args); [apply Hq |].
  apply keeps_mbind; [apply keeps_lift | intros rows].
  apply keeps_mbind; [apply keeps_lift | intros results]. apply Hq.
Qed.

Lemma quiet_findOne_result (callback : Arg) :
  quiet callback -> quiet (Fn (findOne_result callback)).
Proof.
  intros Hc args. simpl. unfold findOne_result.
  destruct (cb_err args); [apply Hc |].
  apply keeps_mbind; [apply keeps_lift | intros [r |]]; apply Hc.
Qed.

Lemma keeps_findOne (queryObject : positive) (options callback : Arg) :
  (forall s l o, I s -> I (set_object l o s)) ->
  quiet options -> quiet callback ->
  keeps I (findOne properties queryObject options callback).
Proof.
  intros Hobj Ho Hc. unfold findOne.
  set (swap := is_missing callback && arg_is_function options).
  assert (Hq : quiet (if swap then options else callback)) by by apply quiet_if.
  apply keeps_mbind; [apply keeps_require_callback | intros _].
  intros s. destruct (heap s !! queryObject) as [o |]; [| done].
  split; [intros s'; apply Hobj |].
  apply keeps_find; [| by apply quiet_findOne_result].
  apply quiet_passed. destruct swap; [by apply quiet_external | done].
Qed.

Lemma keeps_hook_rejects (h : string) (args : list Value) :
  keeps I (hook_rejects properties h args).
Proof. unfold hook_rejects. by destruct (prop h _). Qed.

Lemma quiet_after_execute (op : string) (hook_args : list Value) (callback : Arg) :
  quiet callback -> quiet (Fn (after_execute properties op hook_args callback)).
Proof.
  intros Hc args. simpl. unfold after_execute.
  destruct (arg_is_function callback), (cb_err args); try apply Hc; try done.
  - apply keeps_mbind; [apply keeps_hook_rejects | intros [[] left]]; apply Hc.
  - apply keeps_mbind; [apply keeps_hook_rejects | by intros [[] left]].
Qed.

Lemma quiet_save_executed (this : Value) (options : Obj) (callback : Arg) :
  quiet callback -> quiet (Fn (save_executed properties this options callback)).
Proof.
  intros Hc args. simpl. unfold save_executed.
  destruct (arg_is_function callback), (cb_err args); try apply Hc; try done.
  - apply keeps_mbind.
    { destruct (negb _); [done | apply keeps_lift]. }
    intros reset.
    apply keeps_mbind; [apply keeps_hook_rejects | intros [[] left]]; apply Hc.
  - apply keeps_mbind; [apply keeps_hook_rejects | by intros [[] left]].
Qed.

(** What [update], [delete] and [save] do once the statement is there. *)
Lemma keeps_statement (q : string) (ps : list Value) (options : Obj) (k : Arg) :
  quiet k ->
  keeps I (if truthy (obj_get "return_query" options)
           then Ret (return_object q ps)
           else
             _execute_table_query q ps (Val (VObj (normalize_query_option options))) k;;
             Ret (VObj [])).
Proof.
  intros Hk. destruct (truthy _); [done |].
  apply keeps_mbind; [| done].
  apply keeps_execute_table_query; [by apply quiet_external | done].
Qed.

Lemma keeps_update (queryObject : Obj) (updateValues : Value) (options callback : Arg) :
  quiet options -> quiet callback ->
  keeps I (update properties queryObject updateValues options callback).
Proof.
  intros Ho Hc. unfold update.
  set (swap := is_missing callback && arg_is_function options).
  assert (Hq : quiet (if swap then options else callback)) by by apply quiet_if.
  apply keeps_mbind; [apply keeps_hook_rejects | intros [rejected left]].
  destruct rejected; cbn [fst snd].
  { apply keeps_mbind; [by apply keeps_callback_or_throw | done]. }
  destruct (get_update_value_expression _ _) as [e | [updateClauses queryParams]].
  { apply keeps_mbind; [by apply keeps_callback_or_throw | done]. }
  destruct (get_where_clause _ _) as [e | whereClause].
  { apply keeps_mbind; [by apply keeps_callback_or_throw | done]. }
  apply keeps_mbind.
  - destruct (truthy _).
    + apply keeps_mbind; [apply keeps_lift | done].
    + by destruct (truthy _).
  - intros conditional. by apply keeps_statement, quiet_after_execute.
Qed.

Lemma keeps_delete (queryObject : Obj) (options callback : Arg) :
  quiet options -> quiet callback ->
  keeps I (delete properties queryObject options callback).
Proof.
  intros Ho Hc. unfold delete.
  set (swap := is_missing callback && arg_is_function options).
  assert (Hq : quiet (if swap then options else callback)) by by apply quiet_if.
  apply keeps_mbind; [apply keeps_hook_rejects | intros [rejected left]].
  destruct rejected; cbn [fst snd].
  { apply keeps_mbind; [by apply keeps_callback_or_throw | done]. }
  destruct (get_where_clause _ _) as [e | whereClause].
  { apply keeps_mbind; [by apply keeps_callback_or_throw | done]. }
  by apply keeps_statement, quiet_after_execute.
Qed.

Lemma keeps_save (this : Value) (options callback : Arg) :
  quiet options -> quiet callback ->
  keeps I (save properties this options callback).
Proof.
  intros Ho Hc. unfold save.
  set (swap := is_missing callback && arg_is_function options).
  assert (Hq : quiet (if swap then options else callback)) by by apply quiet_if.
  apply keeps_mbind; [apply keeps_hook_rejects | intros [rejected left]].
  destruct rejected; cbn [fst snd].
  { apply keeps_mbind; [by apply keeps_callback_or_throw | done]. }
  destruct (get_save_value_expression _ _) as [e | [[identifiers values] queryParams]].
  { apply keeps_mbind; [by apply keeps_callback_or_throw | done]. }
  by apply keeps_statement, quiet_save_executed.
Qed.

Lemma keeps_instance_delete (this : Value) (options callback : Arg) :
  quiet options -> quiet callback ->
  keeps I (instance_delete properties this options callback).
Proof.
  intros Ho Hc. unfold instance_delete.
  set (swap := is_missing callback && arg_is_function options).
  destruct (prop "key" _); try done.
  apply keeps_delete; apply quiet_passed.
  - destruct swap; [by apply quiet_external | done].
  - by apply quiet_if.
Qed.

Lemma keeps_truncate (callback : Arg) :
  quiet callback -> keeps I (truncate properties callback).
Proof.
  intros Hc. unfold truncate.
  apply keeps_execute_table_query; [by apply quiet_passed | by apply quiet_external].
Qed.

Lemma keeps_each {A : Type} (f : nat -> A -> Prog unit) (n : nat) (l : list A) :
  (forall i x, keeps I (f i x)) -> keeps I (each f n l).
Proof.
  intros Hf. revert n. induction l as [| x l IH]; intros n; [done |].
  simpl each. apply keeps_mbind; [by apply keeps_later | intros _; apply IH].
Qed.

Lemma keeps_readable (a : Arg) (args : list Value) : keeps I (readable a args).
Proof. destruct a as [| [] |]; by simpl. Qed.

Lemma keeps_execute_table_eachRow q ps o (onReadable : nat -> Value -> Prog unit)
    (callback : Arg) :
  (forall i x, keeps I (onReadable i x)) -> quiet callback ->
  keeps I (_execute_table_eachRow q ps o onReadable callback).
Proof.
  intros Hr Hc.
  assert (Hdo : keeps I (do_execute_eachRow q ps o onReadable callback)).
  { unfold do_execute_eachRow.
    apply keeps_mbind; [by simpl | intros [rows [err result]]].
    apply keeps_mbind; [by apply keeps_each | intros _].
    apply keeps_later, Hc. }
  unfold _execute_table_eachRow.
  apply keeps_mbind; [by simpl | intros []]; [done |].
  apply keeps_init; [| by apply quiet_external].
  intros args. simpl. destruct (cb_err args); [apply Hc | done].
Qed.

Lemma keeps_execute_table_stream q ps o (onReadable : Value -> Prog unit)
    (callback : Arg) :
  (forall x, keeps I (onReadable x)) -> quiet callback ->
  keeps I (_execute_table_stream q ps o onReadable callback).
Proof.
  intros Hr Hc.
  assert (Hdo : keeps I (do_execute_stream q ps o onReadable callback)).
  { unfold do_execute_stream.
    apply keeps_mbind; [by simpl | intros [readers err]].
    apply keeps_mbind; [by apply keeps_each | intros _].
    apply keeps_later, Hc. }
  unfold _execute_table_stream.
  apply keeps_mbind; [by simpl | intros []]; [done |].
  apply keeps_init; [| by apply quiet_external].
  intros args. simpl. destruct (cb_err args); [apply Hc | done].
Qed.

Lemma keeps_eachRow (queryObject : positive) (options onReadable callback : Arg) :
  quiet options -> quiet onReadable -> quiet callback ->
  keeps I (eachRow properties queryObject options onReadable callback).
Proof.
  intros Ho Hr Hc. unfold eachRow.
  set (three := arguments_3 options onReadable callback).
  assert (Hq : quiet (if three then onReadable else callback)) by by apply quiet_if.
  destruct (negb _); [done |]. destruct (negb _); [done |].
  apply keeps_mbind; [apply keeps_find; by apply quiet_external | intros selectQuery].
  apply keeps_execute_table_eachRow.
  - intros i x. apply keeps_readable.
  - intros args. simpl. destruct (cb_err args); apply Hq.
Qed.

Lemma keeps_stream (queryObject : positive) (options onReadable callback : Arg) :
  quiet options -> quiet onReadable -> quiet callback ->
  keeps I (stream properties queryObject options onReadable callback).
Proof.
  intros Ho Hr Hc. unfold stream.
  set (three := arguments_3 options onReadable callback).
  assert (Hq : quiet (if three then onReadable else callback)) by by apply quiet_if.
  destruct (negb _); [done |]. destruct (negb _); [done |].
  apply keeps_mbind; [apply keeps_find; by apply quiet_external | intros selectQuery].
  apply keeps_execute_table_stream.
  - intros x. apply keeps_readable.
  - intros args. simpl. destruct (cb_err args); apply Hq.
Qed.

(** Every call of an application keeps [I], when storing an object does. *)
Lemma keeps_perform (op : Operation) :
  (forall s l o, I s -> I (set_object l o s)) ->
  from_application op ->
  keeps I (perform process_env properties op).
Proof.
  intros Hobj Hop.
  destruct op; simpl in Hop; simpl perform;
    repeat match goal with
      | Hx : _ /\ _ |- _ => destruct Hx
      | Hx : external _ |- _ => apply quiet_external in Hx
      end;
    try (apply keeps_mbind; [| done]).
  - by apply keeps_init.
  - by apply keeps_syncDB.
  - by apply keeps_sync_model_definition.
  - by apply keeps_sync_es_index.
  - by apply keeps_sync_graph.
  - done.
  - by apply keeps_execute_table_query.
  - by apply keeps_find.
  - by apply keeps_findOne.
  - by apply keeps_eachRow.
  - by apply keeps_stream.
  - by apply keeps_update.
  - by apply keeps_delete.
  - by apply keeps_truncate.
  - by apply keeps_save.
  - by apply keeps_instance_delete.
Qed.

End StateFacts.

(** ** Readiness *)

Ltac distinct :=
  unfold not; intros; match goal with Heq : _ = _ |- _ => discriminate Heq end.

Lemma settles_later (cb : string) (p : Prog unit) :
  settles cb p -> settles cb (later p).
Proof.
  unfold later.
  induction p as [a | e | c k IH | k IH | g k IH]; simpl.
  - done.
  - intros _. split; [distinct | by intros []].
  - intros [Hc Hk]. split; auto.
  - auto.
  - intros [Hg [result Hk]]. split; [done |]. exists result. intros w s tr.
    rewrite exec_catch. by rewrite !Hk.
Qed.

Lemma settles_call (cb : string) (c : Cmd) (f : Resp c -> Prog unit) :
  (forall result, c <> user_callback cb (Cb2 None result)) ->
  (forall r, settles cb (f r)) ->
  settles cb (call c ≫= f).
Proof. intros Hc Hf. split; [done | apply Hf]. Qed.

Lemma settles_task (cb : string) (wanted : bool) (c : Cmd)
    (settle : Resp c -> option Error) (f : list (option Error) -> Prog unit) :
  (forall result, c <> user_callback cb (Cb2 None result)) ->
  (forall l, settles cb (f l)) ->
  settles cb (task wanted c settle ≫= f).
Proof.
  intros Hc Hf. destruct wanted; [| apply Hf].
  split; [done | intros r; apply Hf].
Qed.

Lemma settles_exec (cb : string) (w : World) (p : Prog unit) s tr :
  settles cb p ->
  (forall result, user_callback cb (Cb2 None result) ∉ tr) ->
  (final (exec w p s tr) = set_ready (VBool true) s
   /\ exists tr' result,
        trace (exec w p s tr) = tr' ++ [user_callback cb (Cb2 None result)])
  \/ (final (exec w p s tr) = s
      /\ forall result, user_callback cb (Cb2 None result) ∉ trace (exec w p s tr)).
Proof.
  revert s tr.
  induction p as [a | e | c k IH | k IH | g k IH]; intros s tr Hp Htr; simpl in *.
  - by right.
  - by right.
  - destruct Hp as [Hc Hk]. apply IH; [done |].
    intros result Hin. apply elem_of_app in Hin as [Hin | Hin]; [by eapply Htr |].
    apply list_elem_of_singleton in Hin. by eapply Hc.
  - by apply IH.
  - destruct Hp as [-> [result Hk]]. left. rewrite Hk. simpl. eauto.
Qed.

Section ReadyFacts.
Context `{Lib}.
Variable process_env : Obj.
Variable properties : Properties.
Variable cb : string.

Local Abbreviation settled a := (forall args, settles cb (invoke a args)).

Lemma settles_afterDBCreate (a : Arg) (err : option Error) :
  settled a -> settles cb (afterDBCreate properties a err).
Proof.
  intros Ha. unfold afterDBCreate. destruct err as [e |]; [apply Ha |].
  repeat (apply settles_task; [distinct | intros ?]).
  apply settles_call; [distinct | intros first].
  apply settles_later. destruct (rejection _ _); apply Ha.
Qed.

Lemma settles_drop_recreate (a : Arg) (nDB : Value) :
  settled a -> settles cb (drop_recreate properties nDB a).
Proof.
  intros Ha. unfold drop_recreate.
  apply settles_call; [distinct | intros err].
  by apply settles_later, settles_afterDBCreate.
Qed.

Lemma settles_sync_model_definition (a : Arg) :
  settled a -> settles cb (_sync_model_definition process_env properties a).
Proof.
  intros Ha. unfold _sync_model_definition.
  apply settles_call; [distinct | intros [err dbSchema]].
  apply settles_later.
  destruct err as [e |]; [apply Ha |].
  destruct (negb (truthy dbSchema)).
  { destruct (is_false _); [apply Ha |].
    apply settles_call; [distinct | intros err1].
    by apply settles_later, settles_afterDBCreate. }
  destruct (normalize_model_schema (schema properties)) as [e | nModel]; [done |].
  destruct (normalize_model_schema dbSchema) as [e | nDB]; [done |].
  destruct (isEqual nModel nDB); [apply Ha |].
  destruct (is_str "alter" _).
  { destruct (_ && _); [| by apply settles_drop_recreate].
    apply settles_call; [distinct | intros err1].
    apply settles_later.
    destruct err1 as [e |]; [| apply Ha].
    destruct (String.eqb _ _); [by apply settles_drop_recreate | apply Ha]. }
  destruct (is_str "drop" _); [by apply settles_drop_recreate | apply Ha].
Qed.

Lemma settles_sync_es_index (a : Arg) :
  settled a -> settles cb (_sync_es_index properties a).
Proof.
  intros Ha. unfold _sync_es_index. destruct (_ && _); [| apply Ha].
  apply settles_call; [distinct | intros err].
  apply settles_later. destruct err; [apply Ha |].
  apply settles_call; [distinct | intros args]. apply settles_later, Ha.
Qed.

Lemma settles_sync_graph (a : Arg) :
  settled a -> settles cb (_sync_graph properties a).
Proof.
  intros Ha. unfold _sync_graph. destruct (_ && _); [| apply Ha].
  apply settles_call; [distinct | intros err].
  apply settles_later. destruct err; [apply Ha |].
  apply settles_call; [distinct | intros args]. apply settles_later, Ha.
Qed.

Lemma settles_syncDB :
  settles cb (syncDB process_env properties (Val (VFun cb))).
Proof.
  assert (Herr : forall e, settles cb (invoke (Val (VFun cb)) (Cb1 (Some e)))).
  { intros e. simpl. split; [distinct | by intros []]. }
  unfold syncDB.
  apply settles_sync_model_definition. intros args. simpl.
  destruct (cb_err args); [apply Herr |].
  apply settles_sync_es_index. intros args1. simpl.
  destruct (cb_err args1); [apply Herr |].
  apply settles_sync_graph. intros args2. simpl.
  destruct (cb_err args2); [apply Herr |].
  split; [done |]. exists (cb_value args). intros w s tr. simpl.
  by destruct (w _ (user_callback _ _)).
Qed.

Lemma is_table_ready_run (w : World) s :
  outcome (run w is_table_ready s) = inr (ready s).
Proof. reflexivity. Qed.

Lemma ready_after_perform (w : World) (op : Operation) s :
  from_application op ->
  ready s = true ->
  ready (final (run w (perform process_env properties op) s)) = true.
Proof.
  intros Hop Hs.
  apply (keeps_exec (fun st => ready st = true)); [| done].
  by apply keeps_perform.
Qed.

(** C9. Once [is_table_ready()] answers [true] it answers [true] after any
    sequence of calls on the model; a call leaves [_ready] as it was or
    sets it to [true]; [init] leaves the model ready; and [syncDB] either
    fails and leaves the state as it was, without calling back with a
    success, or sets [_ready] to [true] and ends with
    [callback(null, result)]. *)
Theorem readiness_never_reverts :
  (forall (calls : list (World * Operation)) (w w' : World) s,
     Forall (fun c => from_application (snd c)) calls ->
     outcome (run w is_table_ready s) = inr true ->
     outcome (run w' is_table_ready (perform_all process_env properties calls s))
       = inr true)
  /\ (forall (w : World) (op : Operation) s,
     from_application op ->
     let s' := final (run w (perform process_env properties op) s) in
     _ready s' = _ready s \/ _ready s' = VBool true)
  /\ (forall (w : World) (options callback : Arg) s,
     external options -> external callback ->
     ready (final (run w (init options callback) s)) = true)
  /\ (forall (w : World) s,
     let r := run w (syncDB process_env properties (Val (VFun cb))) s in
     (final r = set_ready (VBool true) s
      /\ exists tr result, trace r = tr ++ [user_callback cb (Cb2 None result)])
     \/ (final r = s
         /\ forall result, user_callback cb (Cb2 None result) ∉ trace r)).
Proof.
  repeat split.
  - intros calls w w' s Hcalls. rewrite !is_table_ready_run.
    intros [= Hs]. f_equal. revert s Hs.
    induction Hcalls as [| [w0 op] calls Hop _ IH]; intros s Hs; [done |].
    simpl. apply IH. by apply ready_after_perform.
  - intros w op s Hop.
    apply (keeps_exec (fun st => _ready st = _ready s \/ _ready st = VBool true));
      [| by left].
    apply keeps_perform; [by right | done | done].
  - intros w options callback s Ho Hc. unfold run, init. simpl.
    destruct (negb _).
    + destruct options as [| [] |]; by simpl.
    + destruct callback as [| [] |]; by simpl.
  - intros w s. apply settles_exec; [apply settles_syncDB |].
    intros result Hin. by apply elem_of_nil in Hin.
Qed.

End ReadyFacts.

(** ** [findOne] *)

Section FindOneFacts.
Context `{Lib}.
Variable properties : Properties.
Variable w : World.

(** C10. Called with a query object and a callback function, [findOne]
    stores [$limit = 1] in the caller's object and goes on as [find] on
    that object; the object keeps the limit.  When the statement runs and
    the driver delivers rows, the callback is called once: with [null] and
    the first result when there is one, with no argument at all when
    there is none. *)
Theorem findOne_limits_then_gives_first (queryObject : positive) (o : Obj)
    (options : Arg) (c : string) s :
  external options ->
  heap s !! queryObject = Some o ->
  let callback := Val (VFun c) in
  let limited := obj_set "$limit" (VNum 1) o in
  let r := run w (findOne properties queryObject options callback) s in
  r = run w (find properties queryObject (passed options) (Fn (findOne_result callback)))
        (set_object queryObject limited s)
  /\ heap (final r) !! queryObject = Some limited
  /\ (forall findQuery results rows models,
        get_find_query properties limited (find_options (passed options)) = inr findQuery ->
        truthy (obj_get "return_query" (find_options (passed options))) = false ->
        (forall queryOptions,
           w [] (execute_query (query findQuery) (params findQuery) queryOptions)
           = (None, results)) ->
        rows_of results = inr rows ->
        mapM (as_model (truthy (obj_get "raw" (find_options (passed options))))) rows
          = inr models ->
        exists queryOptions,
          trace r =
            [execute_query (query findQuery) (params findQuery) queryOptions;
             user_callback c match models with
                             | first :: _ => Cb2 None first
                             | [] => Cb0
                             end]).
Proof.
  intros Hext Ho callback limited r.
  assert (Hr : r = run w (find properties queryObject (passed options)
                            (Fn (findOne_result callback)))
                     (set_object queryObject limited s)).
  { unfold r, run, findOne. simpl. by rewrite Ho. }
  split; [done |]. split.
  - rewrite Hr.
    apply (keeps_exec (fun st => heap st !! queryObject = Some limited)).
    + apply keeps_find; try done.
      * apply quiet_passed. by apply quiet_external.
      * apply quiet_findOne_result. by apply quiet_external.
    + apply lookup_insert_eq.
  - intros findQuery results rows models Hq Hrq Hw Hrows Hmodels.
    rewrite Hr. unfold run, find.
    assert (Hpassed : is_missing (passed options) = false) by by destruct options.
    simpl. rewrite lookup_insert_eq, Hq. simpl. rewrite Hrq.
    eexists. simpl.
    destruct (is_true (_ready s)); simpl; rewrite Hw; simpl;
      rewrite Hrows; simpl; rewrite Hmodels; simpl;
      destruct models; reflexivity.
Qed.

End FindOneFacts.

(** * Further properties *)

(** ** Reaching the driver *)

Section DriverFacts.
Context `{Lib}.
Variable properties : Properties.
Variable w : World.

(** X1.  [_execute_table_query] with a callback of the application: the
    statement reaches the driver exactly once, with [prepare: true] unless
    the options say otherwise; the callback gets the driver's answer as it
    is; the model is ready afterwards, through [init] when it was not. *)
Theorem execute_table_query_once (q : string) (ps : list Value) (options : Arg)
    (c : string) s :
  let command := execute_query q ps (VObj (defaultsDeep options [("prepare", VBool true)])) in
  run w (_execute_table_query q ps options (Val (VFun c))) s
  = {| outcome := inr tt; final := made_ready s;
       trace := [command; user_callback c (Cb2 (fst (w [] command)) (snd (w [] command)))] |}.
Proof.
  intros command. unfold run, _execute_table_query, made_ready, ready. simpl.
  destruct (is_true (_ready s)); simpl; fold command;
    destruct (w [] command) as [err results]; simpl; by units.
Qed.

(** X2.  [truncate]: one [TRUNCATE TABLE] statement without parameters; the
    callback gets the driver's error unwrapped. *)
Theorem truncate_statement (c : string) s :
  let command := execute_query (truncate_layout (table_name properties)) []
                   (VObj [("prepare", VBool true)]) in
  run w (truncate properties (Val (VFun c))) s
  = {| outcome := inr tt; final := made_ready s;
       trace := [command; user_callback c (Cb2 (fst (w [] command)) (snd (w [] command)))] |}.
Proof.
  intros command.
  assert (Hq : format ("TRUNCATE TABLE " +:+ dq +:+ "%s" +:+ dq +:+ ";")
                 [table_name properties] = truncate_layout (table_name properties)).
  { unfold truncate_layout, dq. simpl. by flatten. }
  unfold run, truncate. rewrite Hq.
  unfold _execute_table_query, made_ready, ready. simpl.
  change (defaultsDeep (Val (VObj [])) [("prepare", VBool true)])
    with [("prepare", VBool true)].
  destruct (is_true (_ready s)); simpl; fold command;
    destruct (w [] command) as [err results]; simpl; by units.
Qed.

End DriverFacts.

(** ** [find], its guards and its results *)

Lemma fold_defaults_other (defaults target : Obj) (k : string) :
  Forall (fun d => fst d <> k) defaults ->
  obj_get k (fold_left
               (fun acc d =>
                  match obj_get (fst d) acc with
                  | VUndefined => obj_set (fst d) (snd d) acc
                  | _ => acc
                  end) defaults target)
  = obj_get k target.
Proof.
  unfold Obj in defaults. revert target.
  induction defaults as [| [k0 v0] defaults IH]; intros target Hk; [done |].
  apply Forall_cons in Hk as [Hk0 Hk]. simpl in *.
  rewrite IH by done.
  destruct (obj_get k0 target); try reflexivity.
  by apply obj_get_set_ne.
Qed.

Lemma defaultsDeep_other (options : Arg) (defaults : Obj) (k : string) :
  Forall (fun d => fst d <> k) defaults ->
  obj_get k (defaultsDeep options defaults)
  = obj_get k (match options with Val (VObj o) => o | _ => [] end).
Proof. apply fold_defaults_other. Qed.

Lemma find_options_other (opts : Obj) (k : string) :
  k <> "raw" -> k <> "prepare" ->
  obj_get k (find_options (Val (VObj opts))) = obj_get k opts.
Proof.
  intros Hraw Hprepare. unfold find_options.
  assert (Hd : obj_get k (defaultsDeep (Val (VObj opts))
                            [("raw", VBool false); ("prepare", VBool true)])
               = obj_get k opts).
  { apply (defaultsDeep_other (Val (VObj opts))). repeat constructor; simpl; congruence. }
  destruct (truthy _); [| done].
  rewrite obj_get_set_ne by congruence. done.
Qed.

Lemma fold_defaults_get (source target : Obj) (k : string) :
  NoDup (map fst source) ->
  obj_get k (fold_left
               (fun acc d =>
                  match obj_get (fst d) acc with
                  | VUndefined => obj_set (fst d) (snd d) acc
                  | _ => acc
                  end) source target)
  = match obj_get k target with
    | VUndefined => obj_get k source
    | v => v
    end.
Proof.
  unfold Obj in source. revert target.
  induction source as [| [k0 v0] source IH]; intros target Hdup; simpl.
  { by destruct (obj_get k target). }
  apply NoDup_cons in Hdup as [Hk0 Hdup].
  rewrite IH by done.
  assert (Hrest : obj_get k0 source = VUndefined).
  { clear -Hk0. induction source as [| [k1 v1] source IH]; simpl; [done |].
    simpl in Hk0. apply not_elem_of_cons in Hk0 as [Hne Hk0].
    destruct (String.eqb_spec k1 k0); [congruence | by apply IH]. }
  destruct (String.eqb_spec k0 k) as [-> | Hne].
  - destruct (obj_get k target) eqn:Hget; rewrite ?Hget; try done.
    rewrite obj_get_set_eq. destruct v0; by rewrite ?Hrest.
  - assert (Hsame : obj_get k match obj_get k0 target with
                                | VUndefined => obj_set k0 v0 target
                                | _ => target
                                end = obj_get k target).
    { destruct (obj_get k0 target); try done. by apply obj_get_set_ne. }
    by rewrite Hsame.
Qed.

Lemma reserved_names (a b : string) (x y : Value) :
  a <> b -> NoDup (map fst [(a, x); (b, y)]).
Proof.
  intros Hne. simpl. apply NoDup_cons. split; [| apply NoDup_singleton].
  rewrite list_elem_of_singleton. done.
Qed.

(** [find] takes rows as they are under [raw] and always under
    [select]. *)
Lemma find_options_raw (opts : Obj) :
  truthy (obj_get "raw" (find_options (Val (VObj opts))))
  = truthy (obj_get "select" opts) || truthy (obj_get "raw" opts).
Proof.
  unfold find_options.
  assert (Hselect : obj_get "select" (defaultsDeep (Val (VObj opts))
                                        [("raw", VBool false); ("prepare", VBool true)])
                    = obj_get "select" opts).
  { apply (defaultsDeep_other (Val (VObj opts))). repeat constructor; simpl; congruence. }
  rewrite Hselect. destruct (truthy (obj_get "select" opts)).
  - by rewrite obj_get_set_eq.
  - unfold defaultsDeep. rewrite fold_defaults_get by by apply reserved_names.
    by destruct (obj_get "raw" opts).
Qed.

Section FindMoreFacts.
Context `{Lib}.
Variable properties : Properties.
Variable w : World.

(** X3.  Without a callback function and without [return_query], [find] and
    [findOne] throw [model.find.cberror] before anything else: nothing is
    called, and [findOne] has not touched the query object. *)
Theorem find_without_callback_throws (queryObject : positive) (opts : Obj)
    (callback : Arg) s :
  arg_is_function callback = false ->
  truthy (obj_get "return_query" opts) = false ->
  run w (find properties queryObject (Val (VObj opts)) callback) s
  = {| outcome := inl (buildError "model.find.cberror" []); final := s; trace := [] |}
  /\ run w (findOne properties queryObject (Val (VObj opts)) callback) s
     = {| outcome := inl (buildError "model.find.cberror" []); final := s; trace := [] |}.
Proof.
  intros Hcb Hrq. unfold run, find, findOne. simpl arg_is_function.
  rewrite andb_false_r. unfold require_callback. rewrite Hcb. simpl.
  by rewrite Hrq.
Qed.

(** X4.  Under [return_query], [find] returns the statement and its parameters:
    the driver is not called and the model is not initialised. *)
Theorem find_return_query_is_pure (queryObject : positive) (o opts : Obj)
    (callback : Arg) (findQuery : Clause) s :
  truthy (obj_get "return_query" opts) = true ->
  heap s !! queryObject = Some o ->
  get_find_query properties o (find_options (Val (VObj opts))) = inr findQuery ->
  run w (find properties queryObject (Val (VObj opts)) callback) s
  = {| outcome := inr (VObj (query_object (query findQuery) (params findQuery)));
       final := s; trace := [] |}.
Proof.
  intros Hrq Ho Hq. unfold run, find. simpl arg_is_function.
  rewrite andb_false_r. unfold require_callback.
  assert (Hguard : forall k : unit -> Prog Value,
            exec w ((if arg_is_function callback then Ret tt
                     else return_query ← arg_prop "return_query" (Val (VObj opts));
                          if truthy return_query then Ret tt
                          else Throw (buildError "model.find.cberror" [])) ≫= k) s []
            = exec w (k tt) s []).
  { intros k. destruct (arg_is_function callback); [done |]. simpl. by rewrite Hrq. }
  rewrite Hguard. simpl. rewrite Ho, Hq. simpl.
  by rewrite find_options_other, Hrq by congruence.
Qed.

(** X5.  When the statement cannot be built, the error goes to the callback
    and [find] returns [{}]; without a callback (under [return_query]) it
    is thrown.  Either way the driver is not called and the model is not
    initialised. *)
Theorem find_parse_error (queryObject : positive) (o opts : Obj) (e : Error) s :
  heap s !! queryObject = Some o ->
  get_find_query properties o (find_options (Val (VObj opts))) = inl e ->
  (forall c,
     run w (find properties queryObject (Val (VObj opts)) (Val (VFun c))) s
     = {| outcome := inr (VObj []); final := s;
          trace := [user_callback c (Cb1 (Some e))] |})
  /\ (forall callback,
        arg_is_function callback = false ->
        truthy (obj_get "return_query" opts) = true ->
        run w (find properties queryObject (Val (VObj opts)) callback) s
        = {| outcome := inl e; final := s; trace := [] |}).
Proof.
  intros Ho Hq. split.
  - intros c. unfold run, find. simpl. rewrite Ho, Hq. simpl. by units.
  - intros callback Hcb Hrq. unfold run, find. simpl arg_is_function.
    rewrite andb_false_r. unfold require_callback, callback_or_throw.
    rewrite Hcb. simpl. rewrite Hrq. simpl. by rewrite Ho, Hq.
Qed.

Lemma mapM_as_model (raw : bool) (objs : list Obj) :
  mapM (as_model raw) (map VObj objs)
  = inr (map (fun o => if raw then VObj (obj_delete "columns" o)
                       else set_prop "_modified" (VObj [])
                              (new_instance (VObj (obj_delete "columns" o)))) objs).
Proof.
  induction objs as [| o objs IH]; [done |].
  simpl. rewrite IH. reflexivity.
Qed.

(** X6.  What the callback of [find] receives, once the statement is built
    and handed to the driver.  A driver error comes wrapped as
    [model.find.dberror].  Rows come without their [columns] property, as
    model instances with an empty [_modified], or as they are under [raw]
    and, whatever [raw] says, under [select].  The model is ready
    afterwards. *)
Theorem find_delivers (queryObject : positive) (o opts : Obj) (c : string)
    (findQuery : Clause) (err : option Error) (results : Value) s :
  let options := find_options (Val (VObj opts)) in
  let r := run w (find properties queryObject (Val (VObj opts)) (Val (VFun c))) s in
  heap s !! queryObject = Some o ->
  get_find_query properties o options = inr findQuery ->
  truthy (obj_get "return_query" opts) = false ->
  (forall queryOptions,
     w [] (execute_query (query findQuery) (params findQuery) queryOptions)
     = (err, results)) ->
  exists queryOptions,
    (forall e, err = Some e ->
       r = {| outcome := inr (VObj []); final := made_ready s;
              trace := [execute_query (query findQuery) (params findQuery) queryOptions;
                        user_callback c
                          (Cb1 (Some (buildErrorFrom "model.find.dberror" e)))] |})
    /\ (forall objs, err = None -> rows_of results = inr (map VObj objs) ->
          r = {| outcome := inr (VObj []); final := made_ready s;
                 trace :=
                   [execute_query (query findQuery) (params findQuery) queryOptions;
                    user_callback c
                      (Cb2 None
                         (VArr (map (fun o =>
                                       if truthy (obj_get "select" opts)
                                          || truthy (obj_get "raw" opts)
                                       then VObj (obj_delete "columns" o)
                                       else set_prop "_modified" (VObj [])
                                              (new_instance
                                                 (VObj (obj_delete "columns" o))))
                                    objs)))] |}).
Proof.
  intros options r Ho Hq Hrq Hw.
  assert (Hrq' : truthy (obj_get "return_query" options) = false).
  { unfold options. by rewrite find_options_other by congruence. }
  exists (VObj (defaultsDeep (Val (VObj (normalize_query_option options)))
                  [("prepare", VBool true)])).
  split.
  - intros e ->. unfold r, run, find, made_ready, ready. simpl. fold options.
    rewrite Ho, Hq. simpl. rewrite Hrq'. simpl.
    destruct (is_true (_ready s)); simpl; rewrite Hw; simpl; by units.
  - intros objs -> Hrows. rewrite <- find_options_raw. fold options.
    unfold r, run, find, made_ready, ready. simpl. fold options.
    rewrite Ho, Hq. simpl. rewrite Hrq'. simpl.
    destruct (is_true (_ready s)); simpl; rewrite Hw; simpl;
      rewrite Hrows; simpl; rewrite mapM_as_model; simpl; by units.
Qed.

(** X7.  [eachRow] and [stream] check their two functions before anything
    else, [onReadable] first: without it they throw their own error, with
    it but without a callback they throw [model.find.cberror].  Called
    with exactly three arguments, they take the second for [onReadable]
    and the third for the callback; called with fewer, they take the
    arguments as they stand, and so find no [onReadable] when only
    the query object and a function are passed. *)
Theorem eachRow_stream_guards (queryObject : positive) (options onReadable callback : Arg) s :
  let thrown e := {| outcome := inl e; final := s; trace := [] |} in
  let no_readable := ["no valid onReadable function was provided"] in
  let three := arguments_3 options onReadable callback in
  let readable' := if three then options else onReadable in
  let callback' := if three then onReadable else callback in
  (arg_is_function readable' = false ->
     run w (eachRow properties queryObject options onReadable callback) s
     = thrown (buildError "model.find.eachrowerror" no_readable)
     /\ run w (stream properties queryObject options onReadable callback) s
        = thrown (buildError "model.find.streamerror" no_readable))
  /\ (arg_is_function readable' = true -> arg_is_function callback' = false ->
     run w (eachRow properties queryObject options onReadable callback) s
     = thrown (buildError "model.find.cberror" [])
     /\ run w (stream properties queryObject options onReadable callback) s
        = thrown (buildError "model.find.cberror" [])).
Proof.
  intros thrown no_readable three readable' callback'.
  split.
  - intros Hr. unfold run, eachRow, stream. fold three. fold readable'. by rewrite Hr.
  - intros Hr Hc. unfold run, eachRow, stream. fold three. fold readable' callback'.
    by rewrite Hr, Hc.
Qed.

(** X8.  [eachRow] and [stream] build their statement through [find] without
    a callback: when the WHERE clause cannot be built, the parser's
    error is thrown to the caller, although a callback was given; the
    callback is not called and the driver is not asked. *)
Theorem eachRow_stream_throw_parse_errors (queryObject : positive) (o opts : Obj)
    (f c orderbyClause limitClause : string) (e : Error) s :
  let thrown := {| outcome := inl e; final := s; trace := [] |} in
  heap s !! queryObject = Some o ->
  get_orderby_clause o = inr orderbyClause ->
  get_limit_clause o = inr limitClause ->
  get_where_clause (schema properties) o = inl e ->
  run w (eachRow properties queryObject (Val (VObj opts)) (Val (VFun f)) (Val (VFun c))) s
  = thrown
  /\ run w (stream properties queryObject (Val (VObj opts)) (Val (VFun f)) (Val (VFun c))) s
     = thrown.
Proof.
  intros thrown Ho Horder Hlimit Hwhere.
  assert (Hfind : forall options,
            get_find_query properties o options = inl e).
  { intros options. unfold get_find_query. by rewrite Horder, Hlimit, Hwhere. }
  unfold run, eachRow, stream. simpl.
  unfold find, require_callback. simpl.
  rewrite !obj_get_set_eq. simpl. rewrite Ho, !Hfind. done.
Qed.

End FindMoreFacts.

(** ** The statements of [update], [delete] and [save] *)

Section StatementFacts.
Context `{Lib}.
Variable properties : Properties.
Variable w : World.

(** X9.  The statement of [update], built from the query object, the
    values and the options as the before-hook leaves them:
    [UPDATE "table" [USING TTL ?] SET assignments WHERE-clause], then the
    IF clause when [conditions] is given, [IF EXISTS] when only
    [if_exists] is.  It binds the TTL, the SET values, the WHERE values
    and the IF values, in this order.  With [conditions] given,
    [if_exists] is ignored, even when the IF clause comes out empty. *)
Theorem update_statement (queryObject queryObject' : Obj)
    (updateValues updateValues' : Value) (opts options' : Obj)
    (callback : Arg) (updateClauses : list string) (queryParams : list Value)
    (whereClause ifClause : Clause) s :
  let options := defaultsDeep (Val (VObj opts)) [("prepare", VBool true)] in
  let ttl := isNumber (obj_get "ttl" options') in
  let condition := update_condition options' ifClause in
  before_call properties w "before_update" [VObj queryObject; updateValues; VObj options]
    = (false, [VObj queryObject'; updateValues'; VObj options']) ->
  get_update_value_expression (schema properties) updateValues'
    = inr (updateClauses, queryParams) ->
  get_where_clause (schema properties) queryObject' = inr whereClause ->
  (truthy (obj_get "conditions" options') = true ->
   get_if_clause (schema properties) (obj_get "conditions" options') = inr ifClause) ->
  statement_of (run w (update properties queryObject updateValues
                         (Val (VObj opts)) callback) s)
  = Some (update_layout (table_name properties) ttl updateClauses
            (query whereClause) (fst condition),
          (if ttl then [obj_get "ttl" options'] else [])
          ++ queryParams ++ params whereClause ++ snd condition).
Proof. intros options ttl condition. apply update_builds. Qed.

(** X10.  The statement of [delete], built from the query object as the
    before-hook leaves it: [DELETE FROM "table" WHERE-clause;] with the
    values of the WHERE clause and nothing else, whatever the options
    say ([ttl], [if_exists] and [conditions] play no part). *)
Theorem delete_statement (queryObject queryObject' opts options' : Obj) (callback : Arg)
    (whereClause : Clause) s :
  let options := defaultsDeep (Val (VObj opts)) [("prepare", VBool true)] in
  before_call properties w "before_delete" [VObj queryObject; VObj options]
    = (false, [VObj queryObject'; VObj options']) ->
  get_where_clause (schema properties) queryObject' = inr whereClause ->
  statement_of (run w (delete properties queryObject (Val (VObj opts)) callback) s)
  = Some (delete_layout (table_name properties) (query whereClause), params whereClause).
Proof. intros options. apply delete_builds. Qed.

(** X11.  The statement of [save], built from the instance and the
    options as the before-hook leaves them: [INSERT INTO "table"
    ( columns ) VALUES ( values )], then [IF NOT EXISTS] under
    [if_not_exist], then [USING TTL ?] when [ttl] is a number, in this
    order.  It binds the column values and then the TTL. *)
Theorem save_statement (this this' : Value) (opts options' : Obj) (callback : Arg)
    (identifiers values : list string) (queryParams : list Value) s :
  let options := defaultsDeep (Val (VObj opts)) [("prepare", VBool true)] in
  let ttl := isNumber (obj_get "ttl" options') in
  before_call properties w "before_save" [this; VObj options]
    = (false, [this'; VObj options']) ->
  get_save_value_expression this' (schema properties)
    = inr (identifiers, values, queryParams) ->
  statement_of (run w (save properties this (Val (VObj opts)) callback) s)
  = Some (save_layout (table_name properties) identifiers values
            (truthy (obj_get "if_not_exist" options')) ttl,
          queryParams ++ (if ttl then [obj_get "ttl" options'] else [])).
Proof. intros options ttl. apply save_builds. Qed.

(** X12.  A WHERE clause that cannot be built stops [update] and [delete]
    after the before-hook: the parser's error goes to the callback, or
    is thrown when there is no callback function; no statement is built.
    An IF clause that cannot be built is thrown by [update] even when
    there is a callback function, which is not called.  The clauses are
    those of the query object and the options as the before-hook leaves
    them. *)
Theorem clause_errors (queryObject : Obj) (updateValues : Value) (opts : Obj) (e : Error) s :
  let options := defaultsDeep (Val (VObj opts)) [("prepare", VBool true)] in
  let update_run callback :=
    run w (update properties queryObject updateValues (Val (VObj opts)) callback) s in
  let delete_run callback :=
    run w (delete properties queryObject (Val (VObj opts)) callback) s in
  let before_update := before_hook properties (updating queryObject updateValues) options in
  let before_delete := before_hook properties (deleting queryObject) options in
  (forall queryObject' updateValues' options' updateClauses queryParams,
     before_call properties w "before_update" [VObj queryObject; updateValues; VObj options]
       = (false, [VObj queryObject'; updateValues'; VObj options']) ->
     get_update_value_expression (schema properties) updateValues'
       = inr (updateClauses, queryParams) ->
     (get_where_clause (schema properties) queryObject' = inl e ->
      (forall c,
         update_run (Val (VFun c))
         = {| outcome := inr (VObj []); final := s;
              trace := before_update ++ [user_callback c (Cb1 (Some e))] |})
      /\ (forall callback,
            external callback -> arg_is_function callback = false ->
            update_run callback
            = {| outcome := inl e; final := s; trace := before_update |}))
     /\ (forall whereClause callback,
           get_where_clause (schema properties) queryObject' = inr whereClause ->
           truthy (obj_get "conditions" options') = true ->
           get_if_clause (schema properties) (obj_get "conditions" options') = inl e ->
           update_run callback
           = {| outcome := inl e; final := s; trace := before_update |}))
  /\ (forall queryObject' options',
        before_call properties w "before_delete" [VObj queryObject; VObj options]
          = (false, [VObj queryObject'; VObj options']) ->
        get_where_clause (schema properties) queryObject' = inl e ->
        (forall c,
           delete_run (Val (VFun c))
           = {| outcome := inr (VObj []); final := s;
                trace := before_delete ++ [user_callback c (Cb1 (Some e))] |})
        /\ (forall callback,
              external callback -> arg_is_function callback = false ->
              delete_run callback
              = {| outcome := inl e; final := s; trace := before_delete |})).
Proof.
  intros options update_run delete_run before_update before_delete.
  unfold update_run, delete_run, run, update, delete. cbv beta.
  split.
  - intros queryObject' updateValues' options' updateClauses queryParams Hhook Hset.
    split.
    + intros Hwhere. split.
      * intros c. cbn [is_missing andb]. fold options.
        rewrite exec_mbind, before_hook_run, Hhook.
        cbn [outcome final trace fst snd]. cbv iota.
        change (value_at 1 [VObj queryObject'; updateValues'; VObj options'] updateValues)
          with updateValues'.
        change (object_at 0 [VObj queryObject'; updateValues'; VObj options'] queryObject)
          with queryObject'.
        rewrite Hset, Hwhere. reflexivity.
      * intros callback Hext Hcb. rewrite andb_false_r. fold options.
        rewrite exec_mbind, before_hook_run, Hhook.
        cbn [outcome final trace fst snd]. cbv iota.
        change (value_at 1 [VObj queryObject'; updateValues'; VObj options'] updateValues)
          with updateValues'.
        change (object_at 0 [VObj queryObject'; updateValues'; VObj options'] queryObject)
          with queryObject'.
        rewrite Hset, Hwhere.
        by destruct callback as [| [] |].
    + intros whereClause callback Hwhere Hc Hif. rewrite andb_false_r. fold options.
      rewrite exec_mbind, before_hook_run, Hhook.
      cbn [outcome final trace fst snd]. cbv iota.
      change (value_at 1 [VObj queryObject'; updateValues'; VObj options'] updateValues)
        with updateValues'.
      change (object_at 0 [VObj queryObject'; updateValues'; VObj options'] queryObject)
        with queryObject'.
      change (object_at 2 [VObj queryObject'; updateValues'; VObj options'] options)
        with options'.
      rewrite Hset, Hwhere, Hc, Hif.
      reflexivity.
  - intros queryObject' options' Hhook Hwhere. split.
    + intros c. cbn [is_missing andb]. fold options.
      rewrite exec_mbind, before_hook_run, Hhook.
      cbn [outcome final trace fst snd]. cbv iota.
      change (object_at 0 [VObj queryObject'; VObj options'] queryObject) with queryObject'.
      rewrite Hwhere. reflexivity.
    + intros callback Hext Hcb. rewrite andb_false_r. fold options.
      rewrite exec_mbind, before_hook_run, Hhook.
      cbn [outcome final trace fst snd]. cbv iota.
      change (object_at 0 [VObj queryObject'; VObj options'] queryObject) with queryObject'.
      rewrite Hwhere.
      by destruct callback as [| [] |].
Qed.

End StatementFacts.


(** ** How [update], [delete] and [save] end *)

Section CompletionFacts.
Context `{Lib}.
Variable properties : Properties.
Variable w : World.

Lemma completion_run (m : Mutation) (options : Obj) (callback : Arg)
    (q : string) (ps : list Value) (o : Obj) s tr :
  external callback ->
  let statement :=
    execute_query q ps (VObj (defaultsDeep (Val (VObj o)) [("prepare", VBool true)])) in
  exec w (_execute_table_query q ps (Val (VObj o)) (completion properties m options callback);;
          Ret (VObj [])) s tr
  = {| outcome := inr (VObj []); final := made_ready s;
       trace := tr ++ statement
                  :: after_statement properties m options callback
                       (fst (w tr statement)) (snd (w tr statement))
                       (w (tr ++ [statement])) |}.
Proof.
  intros Hext statement.
  unfold _execute_table_query, made_ready, ready, after_statement, after_arguments.
  destruct m as [queryObject updateValues | queryObject | this]; simpl.
  all: destruct (is_true (_ready s)); simpl; fold statement;
    destruct (w tr statement) as [[e |] results]; simpl.
  all: unfold after_execute, save_executed, hook_rejects.
  all: try change ("after_" +:+ "save") with "after_save".
  all: try change ("model." +:+ "save" +:+ ".after.error") with "model.save.after.error".
  all: try change ("model." +:+ "save" +:+ ".dberror") with "model.save.dberror".
  all: destruct callback as [| [] |]; try done; simpl.
  all: try (units; by rewrite <- ?app_assoc).
  all: try (destruct (negb (truthy (obj_get "if_not_exist" options))); simpl;
            [| destruct (applied results) as [e | reset]; simpl;
               [units; by rewrite <- ?app_assoc |]]).
  all: match goal with
       | |- context [prop ?h (schema properties)] =>
           destruct (prop h (schema properties)); simpl
       end;
    try (units; by rewrite <- ?app_assoc).
  all: destruct (is_false _); simpl; units; by rewrite <- ?app_assoc.
Qed.

Local Abbreviation ends := (ends properties w).

Lemma rejected_run (e : Error) (callback : Arg) s tr :
  external callback ->
  executed tr = None ->
  let r := exec w (callback_or_throw e callback;; Ret (VObj [])) s tr in
  executed (trace r) = None /\ final r = s.
Proof.
  intros Hext Htr.
  destruct (callback_or_throw_run w e callback s tr Hext) as [[c ->] | ->];
    simpl; [by rewrite executed_snoc_callback | done].
Qed.

Lemma statement_run (m : Mutation) (callback : Arg)
    (q : string) (ps : list Value) (options : Obj) s tr :
  external callback ->
  executed tr = None ->
  ends m options callback s tr
    (exec w (if truthy (obj_get "return_query" options)
             then Ret (return_object q ps)
             else
               _execute_table_query q ps (Val (VObj (normalize_query_option options)))
                 (completion properties m options callback);;
               Ret (VObj [])) s tr).
Proof.
  intros Hext Htr. destruct (truthy _) eqn:Hrq.
  - by left.
  - right. split; [done |]. rewrite completion_run by done. by do 3 eexists.
Qed.

Lemma executed_before (m : Mutation) (options : Obj) :
  executed (before_hook properties m options) = None.
Proof. apply executed_hook_call. Qed.

Lemma mutation_run (m : Mutation) (opts : Obj) (callback : Arg) s :
  external callback ->
  let options := defaultsDeep (Val (VObj opts)) [("prepare", VBool true)] in
  let left := left_by_hook properties w m options in
  ends (fst left) (snd left) callback s
    (before_hook properties m options)
    (run w (mutate properties m (Val (VObj opts)) callback) s).
Proof.
  intros Hext options left. unfold run.
  assert (Htr := executed_before m options).
  destruct m as [queryObject updateValues | queryObject | this];
    unfold left, left_by_hook, before_hook in *;
    cbn [mutate operation hook_arguments fst snd] in *.
  - change ("before_" +:+ "update") with "before_update" in *.
    unfold update. rewrite andb_false_r. fold options.
    rewrite exec_mbind, before_hook_run. cbn [outcome final trace].
    destruct (fst (before_call _ _ _ _)).
    { left. by apply rejected_run. }
    set (given := snd (before_call _ _ _ _)).
    set (queryObject' := object_at 0 given queryObject).
    set (updateValues' := value_at 1 given updateValues).
    set (options' := object_at 2 given options).
    change (Fn (after_execute properties "update"
                  [VObj queryObject'; updateValues'; VObj options'] callback))
      with (completion properties (updating queryObject' updateValues') options' callback).
    destruct (get_update_value_expression _ _) as [e | [updateClauses queryParams]].
    { left. by apply rejected_run. }
    destruct (get_where_clause _ _) as [e | whereClause].
    { left. by apply rejected_run. }
    rewrite exec_mbind.
    destruct (truthy (obj_get "conditions" options')).
    + destruct (get_if_clause _ _) as [e | ifClause];
        cbn [lift mbind prog_bind bind exec outcome final trace]; [by left |].
      by apply statement_run.
    + destruct (truthy (obj_get "if_exists" options'));
        cbn [mbind prog_bind bind exec outcome final trace];
        by apply statement_run.
  - change ("before_" +:+ "delete") with "before_delete" in *.
    unfold delete. rewrite andb_false_r. fold options.
    rewrite exec_mbind, before_hook_run. cbn [outcome final trace].
    destruct (fst (before_call _ _ _ _)).
    { left. by apply rejected_run. }
    set (given := snd (before_call _ _ _ _)).
    set (queryObject' := object_at 0 given queryObject).
    set (options' := object_at 1 given options).
    change (Fn (after_execute properties "delete"
                  [VObj queryObject'; VObj options'] callback))
      with (completion properties (deleting queryObject') options' callback).
    destruct (get_where_clause _ _) as [e | whereClause].
    { left. by apply rejected_run. }
    by apply statement_run.
  - change ("before_" +:+ "save") with "before_save" in *.
    unfold save. rewrite andb_false_r. fold options.
    rewrite exec_mbind, before_hook_run. cbn [outcome final trace].
    destruct (fst (before_call _ _ _ _)).
    { left. by apply rejected_run. }
    set (given := snd (before_call _ _ _ _)).
    set (this' := value_at 0 given this).
    set (options' := object_at 1 given options).
    change (Fn (save_executed properties this' options' callback))
      with (completion properties (saving this') options' callback).
    destruct (get_save_value_expression _ _) as [e | [[identifiers values] queryParams]].
    { left. by apply rejected_run. }
    by apply statement_run.
Qed.

Lemma ends_statement (m : Mutation) (options : Obj)
    (callback : Arg) (before : list Cmd) (q : string) (ps : list Value) s
    (r : Run Value) :
  executed before = None ->
  ends m options callback s before r ->
  executed (trace r) = Some (q, ps) ->
  exists queryOptions,
    r = {| outcome := inr (VObj []); final := made_ready s;
           trace := before ++ execute_query q ps queryOptions
                      :: after_statement properties m options callback
                           (fst (w before (execute_query q ps queryOptions)))
                           (snd (w before (execute_query q ps queryOptions)))
                           (w (before ++ [execute_query q ps queryOptions])) |}.
Proof.
  intros Hbefore [[Hnone _] | [_ (q' & ps' & queryOptions & Hr)]] Hex; [congruence |].
  exists queryOptions. rewrite Hr in Hex. cbn [trace] in Hex.
  rewrite cons_middle, app_assoc in Hex.
  rewrite (executed_app _ _ (q', ps')) in Hex by by apply executed_snoc.
  injection Hex as <- <-. by rewrite Hr.
Qed.

Lemma operation_left (m : Mutation) (options : Obj) :
  operation (fst (left_by_hook properties w m options)) = operation m.
Proof. by destruct m. Qed.

(** X13.  [update], [delete] and [save] with a callback function, once the
    statement has been handed to the driver (after the before-hook, if
    any).  The call returns [{}] and the model is ready afterwards.  A
    driver error goes to the callback wrapped as
    [model.<operation>.dberror] and the after-hook is not called.
    Otherwise [save] first makes the instance forget what was modified,
    unless [if_not_exist] is set and the driver's result reports no
    applied row; with [if_not_exist] set and no result to read, that
    test throws inside the driver's callback, and neither the after-hook
    nor the callback is called.  Then the after-hook, if the schema has
    one, is called with the objects of the call as the before-hook and
    this reset have left them; when it answers [false] the callback gets
    [model.<operation>.after.error], although the statement has been
    executed; in every other case it gets [null] and the driver's
    result.  The callback is called at most once, and only after the
    driver has answered. *)
Theorem mutation_completion (m : Mutation) (opts : Obj) (c : string)
    (q : string) (ps : list Value) s :
  let options := defaultsDeep (Val (VObj opts)) [("prepare", VBool true)] in
  let r := run w (mutate properties m (Val (VObj opts)) (Val (VFun c))) s in
  let before := before_hook properties m options in
  let left := left_by_hook properties w m options in
  let kind suffix := "model." +:+ operation m +:+ suffix in
  executed (trace r) = Some (q, ps) ->
  exists queryOptions,
    let statement := execute_query q ps queryOptions in
    let sent := before ++ [statement] in
    let result := snd (w before statement) in
    outcome r = inr (VObj [])
    /\ final r = made_ready s
    /\ match fst (w before statement) with
       | Some e =>
           trace r = sent ++ [user_callback c (Cb1 (Some (buildErrorFrom (kind ".dberror") e)))]
       | None =>
           match after_arguments (fst left) (snd left) (Val (VFun c)) result with
           | inl e => trace r = sent ++ [uncaught e]
           | inr hook_args =>
               match prop ("after_" +:+ operation m) (schema properties) with
               | VFun g =>
                   let hook := apply_function g hook_args in
                   trace r
                   = sent ++ [hook;
                              user_callback c
                                (if is_false (fst (w sent hook))
                                 then Cb1 (Some (buildError (kind ".after.error") []))
                                 else Cb2 None result)]
               | _ => trace r = sent ++ [user_callback c (Cb2 None result)]
               end
           end
       end.
Proof.
  intros options r before left kind Hex.
  destruct (ends_statement (fst left) (snd left) (Val (VFun c)) before q ps s r)
    as [queryOptions Hr];
    [apply executed_before | by apply mutation_run | done |].
  exists queryOptions. rewrite Hr. simpl. split; [done |]. split; [done |].
  unfold after_statement, kind, left. rewrite operation_left.
  destruct (fst (w before (execute_query q ps queryOptions))); [by rewrite <- app_assoc |].
  destruct (after_arguments _ _ _ _); [by rewrite <- app_assoc |].
  destruct (prop _ _); try by rewrite <- app_assoc.
  destruct (is_false _); by rewrite <- app_assoc.
Qed.

(** X14.  [update], [delete] and [save] without a callback function
    (none, or a value that is not a function), once the statement has
    been handed to the driver: what would go to the callback as an error,
    the wrapped driver error or the after-hook error, is thrown inside
    the driver's callback, where the caller cannot catch it; a success
    leaves no trace.  The after-hook is called with the objects of the
    call as the before-hook has left them.  The call has returned [{}]
    all the same. *)
Theorem mutation_without_callback (m : Mutation) (opts : Obj) (callback : Arg)
    (q : string) (ps : list Value) s :
  let options := defaultsDeep (Val (VObj opts)) [("prepare", VBool true)] in
  let r := run w (mutate properties m (Val (VObj opts)) callback) s in
  let before := before_hook properties m options in
  let left := left_by_hook properties w m options in
  let kind suffix := "model." +:+ operation m +:+ suffix in
  external callback ->
  arg_is_function callback = false ->
  executed (trace r) = Some (q, ps) ->
  exists queryOptions,
    let statement := execute_query q ps queryOptions in
    let sent := before ++ [statement] in
    outcome r = inr (VObj [])
    /\ final r = made_ready s
    /\ match fst (w before statement) with
       | Some e => trace r = sent ++ [uncaught (buildErrorFrom (kind ".dberror") e)]
       | None =>
           match prop ("after_" +:+ operation m) (schema properties) with
           | VFun g =>
               let hook := apply_function g (hook_arguments (fst left) (snd left)) in
               trace r
               = sent ++ hook :: (if is_false (fst (w sent hook))
                                  then [uncaught (buildError (kind ".after.error") [])]
                                  else [])
           | _ => trace r = sent
           end
       end.
Proof.
  intros options r before left kind Hext Hcb Hex.
  destruct (ends_statement (fst left) (snd left) callback before q ps s r)
    as [queryOptions Hr];
    [apply executed_before | by apply mutation_run | done |].
  exists queryOptions. rewrite Hr. simpl. split; [done |]. split; [done |].
  unfold after_statement, kind, left. rewrite operation_left.
  assert (Hfail : forall e, match callback with
                            | Val (VFun c) => [user_callback c (Cb1 (Some e))]
                            | _ => [uncaught e]
                            end = [uncaught e]).
  { intros e. by destruct callback as [| [] |]. }
  assert (Hreport : forall args, match callback with
                                 | Val (VFun c) => [user_callback c args]
                                 | _ => []
                                 end = []).
  { intros args. by destruct callback as [| [] |]. }
  assert (Hargs : forall m' options' results,
            after_arguments m' options' callback results
            = inr (hook_arguments m' options')).
  { intros m' options' results. unfold after_arguments.
    destruct m'; try done. by rewrite Hcb. }
  rewrite Hargs.
  destruct (fst (w before (execute_query q ps queryOptions))); [by rewrite Hfail, <- app_assoc |].
  destruct (prop _ _); rewrite ?Hreport; try done.
  destruct (is_false _); rewrite ?Hfail, ?Hreport; by rewrite <- app_assoc.
Qed.

(** X15.  Under [return_query], read off the options as the before-hook
    leaves them, [update], [delete] and [save] hand nothing to the
    driver and leave the model state as it was, whatever the hooks
    answer and whether or not the statement can be built. *)
Theorem return_query_sends_nothing (m : Mutation) (opts : Obj) (callback : Arg) s :
  let options := defaultsDeep (Val (VObj opts)) [("prepare", VBool true)] in
  let r := run w (mutate properties m (Val (VObj opts)) callback) s in
  external callback ->
  truthy (obj_get "return_query" (snd (left_by_hook properties w m options))) = true ->
  executed (trace r) = None /\ final r = s.
Proof.
  intros options r Hext Hrq.
  destruct (mutation_run m opts callback s Hext) as [Hquiet | [Hno _]]; [done |].
  fold options in Hno. congruence.
Qed.

End CompletionFacts.

(** ** The stages of [syncDB] *)

Lemma awaits_mono {A : Type} (need goal : Cmd -> Prop) (seen seen' : Prop) (p : Prog A) :
  (seen -> seen') -> awaits need goal seen p -> awaits need goal seen' p.
Proof.
  revert seen seen'.
  induction p as [a | e | c k IH | k IH | g k IH]; intros seen seen' Himp; simpl; auto.
  - intros [Hc Hk]. split; [auto |]. intros r. eapply IH; [| apply Hk]. tauto.
  - intros Hk s. eapply IH; eauto.
  - apply IH. done.
Qed.

Lemma awaits_seen {A : Type} (need goal : Cmd -> Prop) (seen : Prop) (p : Prog A) :
  seen -> awaits need goal seen p.
Proof.
  revert seen.
  induction p as [a | e | c k IH | k IH | g k IH]; intros seen Hseen; simpl; auto.
Qed.

Lemma awaits_later (need goal : Cmd -> Prop) (seen : Prop) (p : Prog unit) :
  (forall e, ~ goal (uncaught e)) ->
  awaits need goal seen p -> awaits need goal seen (later p).
Proof.
  intros Hgoal. unfold later. revert seen.
  induction p as [a | e | c k IH | k IH | g k IH]; intros seen Hp; simpl in *; auto.
  - split; [intros Hg; by apply Hgoal in Hg | by intros []].
  - destruct Hp as [Hc Hk]. split; [done |]. intros r. apply IH, Hk.
Qed.

Lemma awaits_call (need goal : Cmd -> Prop) (seen : Prop) (c : Cmd)
    (f : Resp c -> Prog unit) :
  ~ goal c ->
  (forall r, awaits need goal seen (f r)) ->
  awaits need goal seen (call c ≫= f).
Proof.
  intros Hc Hf. split; [done |]. intros r.
  eapply awaits_mono; [| apply Hf]. tauto.
Qed.

Lemma in_order_snoc (need goal : Cmd -> Prop) (tr : list Cmd) (c : Cmd) :
  in_order need goal tr ->
  (goal c -> Exists need tr) ->
  in_order need goal (tr ++ [c]).
Proof.
  intros Htr Hc tr1 c' tr2 Heq Hgoal.
  destruct tr2 as [| x tr2 _] using rev_ind.
  - apply app_inj_tail in Heq as [-> ->]. auto.
  - rewrite app_comm_cons, app_assoc in Heq.
    apply app_inj_tail in Heq as [-> _]. by eapply Htr.
Qed.

Lemma awaits_exec {A : Type} (need goal : Cmd -> Prop) (w : World) (p : Prog A) s tr :
  awaits need goal (Exists need tr) p ->
  in_order need goal tr ->
  in_order need goal (trace (exec w p s tr)).
Proof.
  revert s tr.
  induction p as [a | e | c k IH | k IH | g k IH]; intros s tr Hp Htr; simpl in *; auto.
  destruct Hp as [Hc Hk]. apply IH.
  - eapply awaits_mono; [| apply Hk]. rewrite Exists_app, Exists_cons, Exists_nil. tauto.
  - by apply in_order_snoc.
Qed.

Ltac other_command := intros [? Heq]; discriminate Heq.

Section StageFacts.
Context `{Lib}.
Variable process_env : Obj.
Variable properties : Properties.
Variable cb : string.
Variable need : Cmd -> Prop.

Local Abbreviation waits := (awaits need (is_success cb)).
Local Abbreviation waiting seen a := (forall args, waits seen (invoke a args)).

Lemma waits_task (seen : Prop) (wanted : bool) (c : Cmd)
    (settle : Resp c -> option Error) (f : list (option Error) -> Prog unit) :
  ~ is_success cb c ->
  (forall l, waits seen (f l)) ->
  waits seen (task wanted c settle ≫= f).
Proof.
  intros Hc Hf. destruct wanted; [| apply Hf].
  split; [done |]. intros r. eapply awaits_mono; [| apply Hf]. tauto.
Qed.

Lemma waits_afterDBCreate (seen : Prop) (a : Arg) (err : option Error) :
  waiting seen a -> waits seen (afterDBCreate properties a err).
Proof.
  intros Ha. unfold afterDBCreate. destruct err as [e |]; [apply Ha |].
  repeat (apply waits_task; [other_command | intros ?]).
  apply awaits_call; [other_command | intros first].
  apply awaits_later; [intros e; other_command |].
  destruct (rejection _ _); apply Ha.
Qed.

Lemma waits_drop_recreate (seen : Prop) (a : Arg) (nDB : Value) :
  waiting seen a -> waits seen (drop_recreate properties nDB a).
Proof.
  intros Ha. unfold drop_recreate.
  apply awaits_call; [other_command | intros err].
  apply awaits_later; [intros e; other_command |].
  by apply waits_afterDBCreate.
Qed.

Lemma waits_sync_model_definition (seen : Prop) (a : Arg) :
  waiting seen a -> waits seen (_sync_model_definition process_env properties a).
Proof.
  intros Ha. unfold _sync_model_definition.
  apply awaits_call; [other_command | intros [err dbSchema]].
  apply awaits_later; [intros e; other_command |].
  destruct err as [e |]; [apply Ha |].
  destruct (negb (truthy dbSchema)).
  { destruct (is_false _); [apply Ha |].
    apply awaits_call; [other_command | intros err1].
    apply awaits_later; [intros e; other_command |].
    by apply waits_afterDBCreate. }
  destruct (normalize_model_schema (schema properties)) as [e | nModel]; [done |].
  destruct (normalize_model_schema dbSchema) as [e | nDB]; [done |].
  destruct (isEqual nModel nDB); [apply Ha |].
  destruct (is_str "alter" _).
  { destruct (_ && _); [| by apply waits_drop_recreate].
    apply awaits_call; [other_command | intros err1].
    apply awaits_later; [intros e; other_command |].
    destruct err1 as [e |]; [| apply Ha].
    destruct (String.eqb _ _); [by apply waits_drop_recreate | apply Ha]. }
  destruct (is_str "drop" _); [by apply waits_drop_recreate | apply Ha].
Qed.

Lemma waits_sync_es_index (seen : Prop) (a : Arg) :
  waiting seen a -> waits seen (_sync_es_index properties a).
Proof.
  intros Ha. unfold _sync_es_index. destruct (_ && _); [| apply Ha].
  apply awaits_call; [other_command | intros err].
  apply awaits_later; [intros e; other_command |].
  destruct err; [apply Ha |].
  apply awaits_call; [other_command | intros args].
  apply awaits_later; [intros e; other_command | apply Ha].
Qed.

Lemma waits_failure (seen : Prop) (e : Error) :
  waits seen (invoke (Val (VFun cb)) (Cb1 (Some e))).
Proof. split; [other_command | by intros []]. Qed.

End StageFacts.

Section OrderFacts.
Context `{Lib}.
Variable process_env : Obj.
Variable properties : Properties.
Variable cb : string.

Lemma syncDB_awaits_es_mapping :
  truthy (esclient properties) && truthy (prop "es_index_mapping" (schema properties))
    = true ->
  awaits (eq (es_mapping properties)) (is_success cb) False
    (syncDB process_env properties (Val (VFun cb))).
Proof.
  intros Hes. unfold syncDB.
  apply waits_sync_model_definition. intros args. simpl.
  destruct (cb_err args); [apply waits_failure |].
  unfold _sync_es_index. rewrite Hes.
  apply awaits_call; [other_command | intros err].
  apply awaits_later; [intros e; other_command |].
  destruct err as [e |]; [apply waits_failure |].
  split; [other_command |]. intros args1.
  apply awaits_seen. by right.
Qed.

Lemma syncDB_awaits_graph_mapping :
  truthy (gremlin_client properties) && truthy (prop "graph_mapping" (schema properties))
    = true ->
  awaits (eq (graph_mapping properties)) (is_success cb) False
    (syncDB process_env properties (Val (VFun cb))).
Proof.
  intros Hgraph. unfold syncDB.
  apply waits_sync_model_definition. intros args. simpl.
  destruct (cb_err args); [apply waits_failure |].
  apply waits_sync_es_index. intros args1. simpl.
  destruct (cb_err args1); [apply waits_failure |].
  unfold _sync_graph. rewrite Hgraph.
  apply awaits_call; [other_command | intros err].
  apply awaits_later; [intros e; other_command |].
  destruct err as [e |]; [apply waits_failure |].
  split; [other_command |]. intros args2.
  apply awaits_seen. by right.
Qed.

(** X16.  [syncDB] reports a success only after the mappings have been put:
    when the model has an Elasticsearch client and an index mapping,
    [put_mapping] for the index [keyspace_table] comes before
    [callback(null, result)]; when it has a Gremlin client and a graph
    mapping, so does the graph builder's [put_mapping] for the graph
    [keyspace_graph].  This holds whatever the collaborators answer. *)
Theorem syncDB_success_after_mappings (w : World) s (tr1 tr2 : list Cmd) (result : Value) :
  trace (run w (syncDB process_env properties (Val (VFun cb))) s)
    = tr1 ++ user_callback cb (Cb2 None result) :: tr2 ->
  (truthy (esclient properties) && truthy (prop "es_index_mapping" (schema properties))
     = true ->
   es_mapping properties ∈ tr1)
  /\ (truthy (gremlin_client properties)
      && truthy (prop "graph_mapping" (schema properties)) = true ->
      graph_mapping properties ∈ tr1).
Proof.
  intros Htrace.
  assert (Hstart : forall need, in_order need (is_success cb) []).
  { intros need tr1' c tr2' Heq. by destruct tr1'. }
  assert (Hin : forall c, Exists (eq c) tr1 -> c ∈ tr1).
  { intros c Hex. apply Exists_exists in Hex as (x & Hx & ->). done. }
  split; intros Hconfigured; apply Hin.
  - eapply (awaits_exec _ _ w); [| apply Hstart | apply Htrace | by eexists].
    eapply awaits_mono; [| by apply syncDB_awaits_es_mapping]. done.
  - eapply (awaits_exec _ _ w); [| apply Hstart | apply Htrace | by eexists].
    eapply awaits_mono; [| by apply syncDB_awaits_graph_mapping]. done.
Qed.

End OrderFacts.

(** ** After the table has been created *)

Lemma rejection_none (first : nat) (settled : list (option Error)) :
  Forall (eq None) settled -> rejection first settled = None.
Proof.
  intros Hall. unfold rejection.
  destruct (settled !! first) as [[e |] |] eqn:Hfirst.
  - apply list_elem_of_lookup_2 in Hfirst.
    rewrite Forall_forall in Hall. by specialize (Hall _ Hfirst).
  - destruct (list_find is_Some settled) as [[i r] |] eqn:Hfind; [| done].
    apply list_find_Some in Hfind as (Hi & [e ->] & _).
    apply list_elem_of_lookup_2 in Hi.
    rewrite Forall_forall in Hall. by specialize (Hall _ Hi).
  - destruct (list_find is_Some settled) as [[i r] |] eqn:Hfind; [| done].
    apply list_find_Some in Hfind as (Hi & [e ->] & _).
    apply list_elem_of_lookup_2 in Hi.
    rewrite Forall_forall in Hall. by specialize (Hall _ Hi).
Qed.

Lemma rejection_some (first : nat) (settled : list (option Error)) (e : Error) :
  rejection first settled = Some e -> Some e ∈ settled.
Proof.
  unfold rejection.
  destruct (settled !! first) as [[e' |] |] eqn:Hfirst.
  - intros [= ->]. by eapply list_elem_of_lookup_2.
  - destruct (list_find is_Some settled) as [[i r] |] eqn:Hfind; [| done].
    intros ->. apply list_find_Some in Hfind as (Hi & _ & _).
    by eapply list_elem_of_lookup_2.
  - destruct (list_find is_Some settled) as [[i r] |] eqn:Hfind; [| done].
    intros ->. apply list_find_Some in Hfind as (Hi & _ & _).
    by eapply list_elem_of_lookup_2.
Qed.

Lemma rejection_fails (first : nat) (settled : list (option Error)) :
  ~ Forall (eq None) settled -> exists e, rejection first settled = Some e.
Proof.
  intros Hnot. unfold rejection.
  destruct (settled !! first) as [[e' |] |] eqn:Hfirst; [by eexists | |].
  - destruct (list_find is_Some settled) as [[i r] |] eqn:Hfind.
    + apply list_find_Some in Hfind as (_ & [e ->] & _). by eexists.
    + exfalso. apply Hnot. apply list_find_None in Hfind.
      eapply Forall_impl; [apply Hfind |]. intros [e |] Hx; [| done].
      exfalso. apply Hx. by eexists.
  - destruct (list_find is_Some settled) as [[i r] |] eqn:Hfind.
    + apply list_find_Some in Hfind as (_ & [e ->] & _). by eexists.
    + exfalso. apply Hnot. apply list_find_None in Hfind.
      eapply Forall_impl; [apply Hfind |]. intros [e |] Hx; [| done].
      exfalso. apply Hx. by eexists.
Qed.

Section CreationFacts.
Context `{Lib}.
Variable process_env : Obj.
Variable properties : Properties.
Variable w : World.
Variable s : ModelState.
Variable cb : string.

Local Abbreviation sync := (_sync_model_definition process_env properties (Val (VFun cb))).

Lemma afterDBCreate_run (tr : list Cmd) :
  let tasks := indexing_tasks (schema properties) in
  let settled := answers w tr tasks in
  exec w (later (afterDBCreate properties (Val (VFun cb)) None)) s tr
  = {| outcome := inr tt; final := s;
       trace := tr ++ tasks
                ++ [promise_all settled;
                    user_callback cb
                      match rejection (w (tr ++ tasks) (promise_all settled)) settled with
                      | None => Cb2 None (VBool true)
                      | Some e => Cb1 (Some e)
                      end] |}.
Proof.
  intros tasks settled. subst tasks settled.
  unfold indexing_tasks, afterDBCreate, later.
  destruct (isArray (prop "indexes" (schema properties)));
    destruct (isArray (prop "custom_indexes" (schema properties)));
    destruct (truthy (prop "custom_index" (schema properties)));
    destruct (truthy (prop "materialized_views" (schema properties)));
    simpl; rewrite <- ?app_assoc; simpl; rewrite ?app_nil_r;
    try destruct (rejection _ _); simpl; units;
    rewrite <- ?app_assoc; simpl; rewrite ?app_nil_r; reflexivity.
Qed.

(** X17.  When the table is not there and is created.  If [create_table]
    fails, the callback gets its error and nothing else is called.
    Otherwise every index and view builder the schema asks for is called,
    in the order [indexes], [custom_indexes], [custom_index],
    [materialized_views] and whatever the earlier ones answer; the
    callback gets [(null, true)] exactly when none of them failed, and
    the error of one that failed otherwise. *)
Theorem created_table_gets_its_indexes (dbSchema : Value) :
  let create := create_table (schema properties) in
  let tasks := indexing_tasks (schema properties) in
  let settled := answers w [get_table_schema; create] tasks in
  w [] get_table_schema = (None, dbSchema) ->
  truthy dbSchema = false ->
  is_false (createTable properties) = false ->
  (forall e, w [get_table_schema] create = Some e ->
     run w sync s
     = {| outcome := inr tt; final := s;
          trace := [get_table_schema; create; user_callback cb (Cb1 (Some e))] |})
  /\ (w [get_table_schema] create = None ->
      exists args,
        run w sync s
        = {| outcome := inr tt; final := s;
             trace := get_table_schema :: create :: tasks
                      ++ [promise_all settled; user_callback cb args] |}
        /\ (Forall (eq None) settled -> args = Cb2 None (VBool true))
        /\ (~ Forall (eq None) settled -> exists e, args = Cb1 (Some e))
        /\ (forall e, args = Cb1 (Some e) -> Some e ∈ settled)).
Proof.
  intros create tasks settled Hw Hdb Hct.
  unfold run, _sync_model_definition. simpl.
  rewrite Hw. simpl. rewrite Hdb. simpl. rewrite Hct. simpl. fold create.
  split.
  - intros e ->. simpl. by units.
  - intros ->. unfold later. rewrite !exec_catch_later.
    pose proof (afterDBCreate_run [get_table_schema; create]) as Hrun.
    unfold later in Hrun. rewrite Hrun. clear Hrun. fold tasks settled.
    eexists. split; [reflexivity |].
    split; [| split].
    + intros Hall. by rewrite rejection_none.
    + intros Hnot. destruct (rejection_fails
        (w ([get_table_schema; create] ++ tasks) (promise_all settled)) settled Hnot)
        as [e ->]. by eexists.
    + intros e. destruct (rejection _ _) as [e' |] eqn:Hrej; [| done].
      intros [= ->]. by eapply rejection_some.
Qed.

End CreationFacts.

(** ** More on the decision of [_sync_model_definition] *)

Section PolicyFacts.
Context `{Lib}.
Variable process_env : Obj.
Variable properties : Properties.
Variable w : World.
Variable s : ModelState.
Variable cb : string.

Local Abbreviation sync := (_sync_model_definition process_env properties (Val (VFun cb))).

(** X18.  When the table is altered in place and the alteration succeeds, the
    callback is called with the single argument it got from the alter
    routine, a falsy one: unlike after a creation or a re-creation, no
    [true] says that the table has changed, and nothing else is
    called. *)
Theorem alter_success_reports_no_change (dbSchema nModel nDB : Value) :
  let alter := init_alter_operations (schema properties) dbSchema nModel nDB in
  w [] get_table_schema = (None, dbSchema) ->
  truthy dbSchema = true ->
  normalize_model_schema (schema properties) = inr nModel ->
  normalize_model_schema dbSchema = inr nDB ->
  isEqual nModel nDB = false ->
  isEqual (prop "key" nModel) (prop "key" nDB)
    && isEqual (prop "clustering_order" nModel) (prop "clustering_order" nDB) = true ->
  migration_policy process_env properties = VStr "alter" ->
  w [get_table_schema] alter = None ->
  run w sync s
  = {| outcome := inr tt; final := s;
       trace := [get_table_schema; alter; user_callback cb (Cb1 None)] |}.
Proof.
  intros alter Hw Hdb Hm Hd Hne Hkey Hpol Halter.
  unfold run, _sync_model_definition. simpl.
  rewrite Hw. simpl. rewrite Hdb. simpl. rewrite Hm, Hd, Hne, Hkey, Hpol. simpl.
  fold alter. rewrite Halter. simpl. by units.
Qed.

(** X19.  The table exists and the normalized schemas differ.  Under the
    policy [drop] the look-up is followed at once by
    [drop_recreate_table]; under any policy that is neither [alter] nor
    [drop], [safe] or not, the callback gets the migration-suspended
    error and no builder is called.  The policy is [drop] in particular
    when [migration] is not set, [dropTableOnSchemaChange] is, and
    [NODE_ENV] is not [production]. *)
Theorem drop_policy_or_suspension (dbSchema nModel nDB : Value) :
  let policy := migration_policy process_env properties in
  w [] get_table_schema = (None, dbSchema) ->
  truthy dbSchema = true ->
  normalize_model_schema (schema properties) = inr nModel ->
  normalize_model_schema dbSchema = inr nDB ->
  isEqual nModel nDB = false ->
  (policy = VStr "drop" ->
     exists rest,
       trace (run w sync s)
       = get_table_schema
           :: drop_recreate_table (schema properties) (prop "materialized_views" nDB)
           :: rest)
  /\ (is_str "alter" policy = false -> is_str "drop" policy = false ->
      run w sync s
      = {| outcome := inr tt; final := s;
           trace := [get_table_schema;
                     user_callback cb (Cb1 (Some (migration_suspended properties)))] |})
  /\ (truthy (migration properties) = false ->
      truthy (dropTableOnSchemaChange properties) = true ->
      is_str "production" (obj_get "NODE_ENV" process_env) = false ->
      policy = VStr "drop").
Proof.
  intros policy Hw Hdb Hm Hd Hne.
  unfold run, _sync_model_definition. simpl.
  rewrite Hw. simpl. rewrite Hdb. simpl. rewrite Hm, Hd, Hne. fold policy.
  split; [| split].
  - intros ->. simpl. unfold drop_recreate. simpl.
    match goal with |- context [exec w ?p ?s0 ?t] =>
      destruct (exec_extends w p s0 t) as [rest ->] end.
    by exists rest.
  - intros -> ->. simpl. by units.
  - intros Hmig Hflag Hprod. unfold policy, migration_policy.
    by rewrite Hmig, Hflag, Hprod.
Qed.

(** X20.  When the table exists and one of the two schemas cannot be
    normalized, [model.validator.invalidschema] is thrown inside the
    callback of the look-up: [syncDB] and [_sync_model_definition] never
    call their callback, and the model does not become ready. *)
Theorem invalid_schema_never_calls_back (dbSchema : Value) (e : Error) :
  let lost := {| outcome := inr tt; final := s;
                 trace := [get_table_schema;
                           uncaught (buildError "model.validator.invalidschema"
                                       [message e])] |} in
  w [] get_table_schema = (None, dbSchema) ->
  truthy dbSchema = true ->
  normalize_model_schema (schema properties) = inl e
  \/ (exists nModel, normalize_model_schema (schema properties) = inr nModel)
     /\ normalize_model_schema dbSchema = inl e ->
  run w sync s = lost
  /\ run w (syncDB process_env properties (Val (VFun cb))) s = lost.
Proof.
  intros lost Hw Hdb Hfail.
  unfold syncDB, run, _sync_model_definition. simpl.
  rewrite Hw. simpl. rewrite Hdb. simpl.
  destruct Hfail as [-> | [[nModel ->] ->]]; simpl; split; by units.
Qed.

(** X21.  [syncDB] on a table that needs no change, for a model with an
    Elasticsearch client and an index mapping.  When [assert_index] or
    [put_mapping] fails, the callback gets that error, the graph is not
    touched and the model does not become ready.  When both succeed and
    the model has no graph to keep, the model becomes ready and the
    callback gets [null] and the [false] of the table stage. *)
Theorem syncDB_index_stage (dbSchema nModel nDB : Value) :
  let index := keyspace properties +:+ "_" +:+ table_name properties in
  let assert := assert_index (keyspace properties) index in
  let put := es_mapping properties in
  let sync_all := syncDB process_env properties (Val (VFun cb)) in
  w [] get_table_schema = (None, dbSchema) ->
  truthy dbSchema = true ->
  normalize_model_schema (schema properties) = inr nModel ->
  normalize_model_schema dbSchema = inr nDB ->
  isEqual nModel nDB = true ->
  truthy (esclient properties) && truthy (prop "es_index_mapping" (schema properties))
    = true ->
  (forall e, w [get_table_schema] assert = Some e ->
     run w sync_all s
     = {| outcome := inr tt; final := s;
          trace := [get_table_schema; assert; user_callback cb (Cb1 (Some e))] |})
  /\ (forall e, w [get_table_schema] assert = None ->
      cb_err (w [get_table_schema; assert] put) = Some e ->
      run w sync_all s
      = {| outcome := inr tt; final := s;
           trace := [get_table_schema; assert; put; user_callback cb (Cb1 (Some e))] |})
  /\ (w [get_table_schema] assert = None ->
      cb_err (w [get_table_schema; assert] put) = None ->
      truthy (gremlin_client properties)
        && truthy (prop "graph_mapping" (schema properties)) = false ->
      run w sync_all s
      = {| outcome := inr tt; final := set_ready (VBool true) s;
           trace := [get_table_schema; assert; put;
                     user_callback cb (Cb2 None (VBool false))] |}).
Proof.
  intros index assert put sync_all Hw Hdb Hm Hd Heq Hes.
  unfold sync_all, syncDB, run, _sync_model_definition. simpl.
  rewrite Hw. simpl. rewrite Hdb. simpl. rewrite Hm, Hd, Heq. simpl.
  unfold _sync_es_index. rewrite Hes. simpl. fold index. fold assert.
  unfold put, es_mapping. fold index.
  split; [| split].
  - intros e ->. simpl. by units.
  - intros e -> Hput. simpl. rewrite Hput. simpl. by units.
  - intros -> Hput Hgraph. simpl. rewrite Hput. simpl.
    unfold _sync_graph. rewrite Hgraph. simpl. by units.
Qed.

End PolicyFacts.

(** ** Deleting through an instance *)

Lemma obj_set_keys (k n : string) (v : Value) (o : Obj) :
  n ∈ map fst (obj_set k v o) <-> n = k \/ n ∈ map fst o.
Proof.
  unfold Obj in o. induction o as [| [k0 v0] o IH]; simpl.
  - rewrite list_elem_of_singleton, elem_of_nil. tauto.
  - destruct (String.eqb_spec k0 k) as [-> | Hne]; simpl.
    + rewrite !elem_of_cons. tauto.
    + rewrite !elem_of_cons, IH. tauto.
Qed.

Lemma fold_set_get (f : string -> Value) (names : list string) (o : Obj) (n : string) :
  obj_get n (fold_left (fun acc k => obj_set k (f k) acc) names o)
  = if decide (n ∈ names) then f n else obj_get n o.
Proof.
  revert o. induction names as [| k names IH]; intros o; simpl.
  - destruct (decide (n ∈ [])) as [Hin | _]; [by apply elem_of_nil in Hin | done].
  - rewrite IH.
    destruct (decide (n ∈ names)) as [Hin | Hnot];
      destruct (decide (n ∈ k :: names)) as [Hin' | Hnot']; try done.
    + exfalso. apply Hnot'. by right.
    + apply elem_of_cons in Hin' as [-> | Hin']; [apply obj_get_set_eq | done].
    + apply obj_get_set_ne. intros ->. apply Hnot'. by left.
Qed.

Lemma fold_set_keys (f : string -> Value) (names : list string) (o : Obj) (n : string) :
  n ∈ map fst (fold_left (fun acc k => obj_set k (f k) acc) names o)
  <-> n ∈ names \/ n ∈ map fst o.
Proof.
  revert o. induction names as [| k names IH]; intros o; simpl.
  - rewrite elem_of_nil. tauto.
  - rewrite IH, obj_set_keys, elem_of_cons. tauto.
Qed.

Lemma fold_set_ext (f g : string -> Value) (names : list string) (o : Obj) :
  (forall n, n ∈ names -> f n = g n) ->
  fold_left (fun acc k => obj_set k (f k) acc) names o
  = fold_left (fun acc k => obj_set k (g k) acc) names o.
Proof.
  revert o. induction names as [| k names IH]; intros o Hfg; simpl; [done |].
  rewrite (Hfg k) by by left. apply IH. intros n Hn. apply Hfg. by right.
Qed.

Section InstanceFacts.
Context `{Lib}.
Variable properties : Properties.

(** X22.  [delete] on an instance goes on as the static [delete] with a query
    object made of the key columns of the schema and nothing else, each
    with the value the instance has for it; two instances that agree on
    the key columns delete alike.  Called with a function only, it
    takes it for the callback and [{}] for the options. *)
Theorem instance_delete_uses_the_key (this : Value) (options callback : Arg)
    (key : list Value) :
  let swap := is_missing callback && arg_is_function options in
  prop "key" (schema properties) = VArr key ->
  forallb names_columns key = true ->
  (exists deleteQuery,
     instance_delete properties this options callback
     = delete properties deleteQuery
         (passed (if swap then Val (VObj []) else options))
         (passed (if swap then options else callback))
     /\ (forall n, n ∈ map fst deleteQuery <-> n ∈ key_columns key)
     /\ (forall n, n ∈ key_columns key -> obj_get n deleteQuery = prop n this))
  /\ (forall this',
        (forall n, n ∈ key_columns key -> prop n this' = prop n this) ->
        instance_delete properties this' options callback
        = instance_delete properties this options callback).
Proof.
  intros swap Hkey _. unfold instance_delete. rewrite Hkey. fold swap. split.
  - eexists. split; [reflexivity |]. split.
    + intros n. rewrite fold_set_keys. simpl. rewrite elem_of_nil. tauto.
    + intros n Hn. rewrite (fold_set_get (fun k => prop k this)).
      by destruct (decide _).
  - intros this' Hsame. f_equal.
    by apply (fold_set_ext (fun k => prop k this') (fun k => prop k this)).
Qed.

End InstanceFacts.

(** ** The graph and the search index *)

Lemma defaults_get (object source : Obj) (k : string) :
  NoDup (map fst source) ->
  obj_get k (Graph.defaults object source)
  = match obj_get k object with
    | VUndefined => obj_get k source
    | v => v
    end.
Proof. apply fold_defaults_get. Qed.

Lemma reserved_only (a b k : string) (x y : Value) :
  k <> a -> k <> b -> obj_get k [(a, x); (b, y)] = VUndefined.
Proof.
  intros Ha Hb. simpl.
  destruct (String.eqb_spec a k); [congruence |].
  destruct (String.eqb_spec b k); [congruence | done].
Qed.

Lemma graph_exec_extends {A : Type} (clients : Graph.Clients) (p : Graph.Act A)
    (st : Graph.Store) (asked : list Graph.Request) :
  exists rest, Graph.requests (Graph.exec clients p st asked) = asked ++ rest.
Proof.
  revert st asked.
  induction p as [a | e | r k IH | k IH | g k IH]; intros st asked; simpl.
  - exists []. by rewrite app_nil_r.
  - exists []. by rewrite app_nil_r.
  - destruct (IH (clients asked r) st (asked ++ [r])) as [rest ->].
    exists (r :: rest). by rewrite <- app_assoc.
  - apply IH.
  - apply IH.
Qed.

Ltac silent :=
  repeat match goal with
    | |- context [?cl ?t (Graph.callback_called ?n ?a)] =>
        destruct (cl t (Graph.callback_called n a))
    | |- context [?cl ?t (Graph.escaped ?e)] => destruct (cl t (Graph.escaped e))
    end.

Section GraphFacts.
Variable clients : Graph.Clients.

Lemma gremlin_query_store (properties : Properties) (script : string) (bindings : Obj)
    (callback : CbArgs -> Graph.Act unit) (st : Graph.Store) (asked : list Graph.Request) :
  (forall args st' asked',
     Graph.store (Graph.exec clients (Graph.later (callback args)) st' asked') = st') ->
  Graph.store (Graph.exec clients
                 (Graph._execute_gremlin_query properties script bindings callback)
                 st asked) = st.
Proof.
  intros Hcb. unfold Graph._execute_gremlin_query, Graph.get_gremlin_client.
  destruct (negb _); simpl; [done |].
  destruct (clients asked _) as [[e |] results]; apply Hcb.
Qed.

Lemma tell_store (callback : Value) (args : CbArgs) (st : Graph.Store)
    (asked : list Graph.Request) :
  Graph.store (Graph.exec clients (Graph.later (Graph.tell callback args)) st asked) = st.
Proof. by destruct callback. Qed.

Lemma gremlin_script_store (properties : Properties) (script : string) (bindings : Obj)
    (callback : Value) (st : Graph.Store) (asked : list Graph.Request) :
  Graph.store (Graph.exec clients
                 (Graph._execute_gremlin_script properties script bindings
                    (Graph.tell callback))
                 st asked) = st.
Proof.
  apply gremlin_query_store. intros args st' asked'.
  destruct (cb_err args); [apply tell_store |].
  destruct (Graph.first_item (cb_value args)); simpl; [done | apply tell_store].
Qed.

(** X23.  What [createVertex] leaves in the caller's object.  The call fills
    [__graphName] and [__vertexLabel] into the object it is given, also
    when the model has no Gremlin client and the call throws.  When the
    same object is then given to [createVertex] of another model, these
    entries stand: the request of the second model binds the graph and
    the label of the first. *)
Theorem createVertex_marks_the_object (first second : Properties)
    (vertexProperties : positive) (o : Obj) (callback callback' : Value)
    (clients' : Graph.Clients) (st : Graph.Store) :
  let r1 := Graph.run clients (Graph.createVertex first vertexProperties callback) st in
  let r2 := Graph.run clients' (Graph.createVertex second vertexProperties callback')
              (Graph.store r1) in
  st !! vertexProperties = Some o ->
  obj_get "__graphName" o = VUndefined ->
  obj_get "__vertexLabel" o = VUndefined ->
  truthy (gremlin_client second) = true ->
  (exists marked,
     Graph.store r1 !! vertexProperties = Some marked
     /\ obj_get "__graphName" marked = VStr (keyspace first +:+ "_graph")
     /\ obj_get "__vertexLabel" marked = VStr (table_name first)
     /\ forall k, k <> "__graphName" -> k <> "__vertexLabel" ->
                  obj_get k marked = obj_get k o)
  /\ exists script bindings rest,
       Graph.requests r2 = Graph.gremlin_execute script bindings :: rest
       /\ obj_get "__graphName" bindings = VStr (keyspace first +:+ "_graph")
       /\ obj_get "__vertexLabel" bindings = VStr (table_name first).
Proof.
  intros r1 r2 Ho Hgraph Hlabel Hclient.
  set (marked := Graph.defaults o [("__graphName", VStr (Graph.graph_name first));
                                   ("__vertexLabel", VStr (table_name first))]).
  assert (Hget : forall k, obj_get k marked
                 = match obj_get k o with
                   | VUndefined =>
                       obj_get k [("__graphName", VStr (Graph.graph_name first));
                                  ("__vertexLabel", VStr (table_name first))]
                   | v => v
                   end).
  { intros k. apply defaults_get. by apply reserved_names. }
  assert (Hstore : Graph.store r1 = <[vertexProperties := marked]> st).
  { unfold r1, Graph.run, Graph.createVertex. simpl. rewrite Ho. simpl.
    apply gremlin_script_store. }
  split.
  - exists marked. rewrite Hstore, lookup_insert_eq. split; [done |].
    rewrite !Hget, Hgraph, Hlabel. split; [done |]. split; [done |].
    intros k Hk1 Hk2. rewrite Hget, reserved_only by done.
    by destruct (obj_get k o).
  - unfold r2, Graph.run, Graph.createVertex. simpl.
    rewrite Hstore, lookup_insert_eq. simpl.
    unfold Graph._execute_gremlin_script, Graph._execute_gremlin_query,
      Graph.get_gremlin_client.
    rewrite Hclient. simpl.
    match goal with
    | |- context [Graph.exec clients' ?p ?st0 [?request]] =>
        destruct (graph_exec_extends clients' p st0 [request]) as [rest ->]
    end.
    do 3 eexists. split; [reflexivity |].
    rewrite !(defaults_get marked) by by apply reserved_names.
    rewrite !Hget, Hgraph, Hlabel. done.
Qed.

(** X24.  Without a Gremlin client every graph call throws the plain error of
    [get_gremlin_client] before anything is sent.  [getVertex],
    [deleteVertex], [getEdge] and [deleteEdge] have done nothing by
    then; [createVertex], [updateVertex], [updateEdge] and [graphQuery]
    have already filled the reserved names into the caller's object. *)
Theorem graph_calls_need_a_client (properties : Properties) (id : Value)
    (query : string) (object : positive) (o : Obj) (callback : Value)
    (st : Graph.Store) :
  let thrown st' := {| Graph.returned := inl Graph.no_gremlin_client;
                       Graph.store := st'; Graph.requests := [] |} in
  let graph := ("__graphName", VStr (keyspace properties +:+ "_graph")) in
  let label := ("__vertexLabel", VStr (table_name properties)) in
  let filled source := <[object := Graph.defaults o source]> st in
  truthy (gremlin_client properties) = false ->
  st !! object = Some o ->
  Graph.run clients (Graph.getVertex properties id callback) st = thrown st
  /\ Graph.run clients (Graph.deleteVertex properties id callback) st = thrown st
  /\ Graph.run clients (Graph.getEdge properties id callback) st = thrown st
  /\ Graph.run clients (Graph.deleteEdge properties id callback) st = thrown st
  /\ Graph.run clients (Graph.createVertex properties object callback) st
     = thrown (filled [graph; label])
  /\ Graph.run clients (Graph.updateVertex properties id object callback) st
     = thrown (filled [graph; ("__vertexId", id)])
  /\ Graph.run clients (Graph.updateEdge properties id object callback) st
     = thrown (filled [graph; ("__edgeId", id)])
  /\ Graph.run clients (Graph.graphQuery properties query object callback) st
     = thrown (filled [graph; label]).
Proof.
  intros thrown graph label filled Hclient Ho.
  unfold Graph.run, Graph.getVertex, Graph.deleteVertex, Graph.getEdge, Graph.deleteEdge,
    Graph.createVertex, Graph.updateVertex, Graph.updateEdge, Graph.graphQuery,
    Graph._execute_gremlin_script, Graph._execute_gremlin_query,
    Graph.get_gremlin_client.
  rewrite Hclient. simpl. rewrite Ho. simpl. done.
Qed.

(** X25.  With a Gremlin client, a script is sent once, with its bindings.  An
    error of the client goes to the callback as it is.  Otherwise the
    callback gets the first of the results and nothing of the others,
    [undefined] when there is none; when the client answers without
    results at all, taking the first one throws inside the client's
    callback and the callback of the application is never called. *)
Theorem gremlin_script_gives_the_first_result (properties : Properties)
    (script : string) (bindings : Obj) (c : string) (st : Graph.Store) :
  let request := Graph.gremlin_execute script bindings in
  let r := Graph.run clients
             (Graph._execute_gremlin_script properties script bindings
                (Graph.tell (VFun c))) st in
  let called args := [request; Graph.callback_called c args] in
  truthy (gremlin_client properties) = true ->
  Graph.returned r = inr tt
  /\ Graph.store r = st
  /\ (forall e results, clients [] request = (Some e, results) ->
        Graph.requests r = called (Cb1 (Some e)))
  /\ (forall first others, clients [] request = (None, VArr (first :: others)) ->
        Graph.requests r = called (Cb2 None first))
  /\ (clients [] request = (None, VArr []) ->
        Graph.requests r = called (Cb2 None VUndefined))
  /\ (clients [] request = (None, VUndefined) ->
        exists e, Graph.requests r = [request; Graph.escaped e]).
Proof.
  intros request r called Hclient.
  unfold r, Graph.run, Graph._execute_gremlin_script, Graph._execute_gremlin_query,
    Graph.get_gremlin_client.
  rewrite Hclient. simpl. fold request.
  split; [| split; [| repeat split]].
  - destruct (clients [] request) as [[e |] results]; simpl; [by silent |].
    destruct (Graph.first_item results); simpl; by silent.
  - destruct (clients [] request) as [[e |] results]; simpl; [by silent |].
    destruct (Graph.first_item results); simpl; by silent.
  - by intros e results ->.
  - by intros first others ->.
  - by intros ->.
  - intros ->. by eexists.
Qed.

(** X26.  [search] checks for the Elasticsearch client before anything else:
    without one it throws and leaves the caller's object alone.  With
    one, it fills [index] (keyspace_table) and [type] (the table) into
    the caller's object where the caller has not defined them, sends
    the object once, and passes the client's error, or [null] and the
    response, to the callback. *)
Theorem search_fills_index_and_type (properties : Properties) (queryObject : positive)
    (o : Obj) (c : string) (st : Graph.Store) :
  let r := Graph.run clients (Graph.search properties queryObject (VFun c)) st in
  let query :=
    Graph.defaults o [("index", VStr (keyspace properties +:+ "_" +:+ table_name properties));
                      ("type", VStr (table_name properties))] in
  let request := Graph.es_search query in
  st !! queryObject = Some o ->
  (truthy (esclient properties) = false ->
     r = {| Graph.returned := inl Graph.no_es_client; Graph.store := st;
            Graph.requests := [] |})
  /\ (truthy (esclient properties) = true ->
      r = {| Graph.returned := inr tt; Graph.store := <[queryObject := query]> st;
             Graph.requests :=
               [request;
                Graph.callback_called c
                  match fst (clients [] request) with
                  | Some e => Cb1 (Some e)
                  | None => Cb2 None (snd (clients [] request))
                  end] |})
  /\ (forall k, obj_get k o <> VUndefined -> obj_get k query = obj_get k o)
  /\ (obj_get "index" o = VUndefined ->
      obj_get "index" query = VStr (keyspace properties +:+ "_" +:+ table_name properties))
  /\ (obj_get "type" o = VUndefined -> obj_get "type" query = VStr (table_name properties)).
Proof.
  intros r query request Ho.
  assert (Hget : forall k, obj_get k query
                 = match obj_get k o with
                   | VUndefined =>
                       obj_get k
                         [("index", VStr (keyspace properties +:+ "_"
                                          +:+ table_name properties));
                          ("type", VStr (table_name properties))]
                   | v => v
                   end).
  { intros k. apply defaults_get. by apply reserved_names. }
  split; [| split; [| split; [| split]]].
  - intros Hclient. unfold r, Graph.run, Graph.search, Graph.get_es_client.
    by rewrite Hclient.
  - intros Hclient. unfold r, Graph.run, Graph.search, Graph.get_es_client.
    rewrite Hclient. simpl. rewrite Ho. simpl. fold query. fold request.
    destruct (clients [] request) as [[e |] response]; simpl;
      by destruct (clients _ (Graph.callback_called _ _)).
  - intros k Hk. rewrite Hget. by destruct (obj_get k o).
  - intros Hindex. by rewrite Hget, Hindex.
  - intros Htype. by rewrite Hget, Htype.
Qed.

End GraphFacts.
(** * The scenarios, run *)

Import Scenario.

(** [{id, name}] declared and live alike: nothing to do, whatever the
    policy. *)
Lemma sync_equal_schemas_is_noop_witness :
  run (world (events_schema []) None VUndefined [])
      (_sync_model_definition development (events [] (VStr "drop") VUndefined)
         (Val (VFun "done")))
      fresh
  = {| outcome := inr tt; final := fresh;
       trace := [get_table_schema; user_callback "done" (Cb2 None (VBool false))] |}.
Proof.
  by apply (sync_equal_schemas_is_noop development (events [] (VStr "drop") VUndefined)
              (world (events_schema []) None VUndefined []) fresh "done"
              (events_schema []) (events_schema []) (events_schema [])).
Defined.

(** The table is not there: it is created, or refused under
    [createTable: false]. *)
Lemma sync_absent_table_creates_or_rejects_witness :
  (exists rest,
     trace (run (world VUndefined None VUndefined [])
              (_sync_model_definition development (events [] VUndefined VUndefined)
                 (Val (VFun "done")))
              fresh)
     = get_table_schema :: create_table (events_schema []) :: rest)
  /\ trace (run (world VUndefined None VUndefined [])
              (_sync_model_definition development (events [] VUndefined (VBool false))
                 (Val (VFun "done")))
              fresh)
     = [get_table_schema;
        user_callback "done"
          (Cb1 (Some (buildError "model.tablecreation.schemanotfound" ["events"])))].
Proof.
  split.
  - by apply (sync_absent_table_creates_or_rejects development
                (events [] VUndefined VUndefined)
                (world VUndefined None VUndefined []) fresh "done" VUndefined).
  - destruct (sync_absent_table_creates_or_rejects development
                (events [] VUndefined (VBool false))
                (world VUndefined None VUndefined []) fresh "done" VUndefined)
      as [_ Hreject]; [done | done |].
    destruct Hreject as [-> _]; done.
Defined.

(** Production, policy [alter], clustering order changed from [desc] to
    [asc]: the change is refused. *)
Lemma production_never_alters_nor_drops_witness :
  migration_policy production (readings_model "asc" (VStr "alter")) = VStr "safe"
  /\ trace (run (world (readings "desc") None VUndefined [])
              (_sync_model_definition production (readings_model "asc" (VStr "alter"))
                 (Val (VFun "done")))
              fresh)
     = [get_table_schema;
        user_callback "done"
          (Cb1 (Some (migration_suspended (readings_model "asc" (VStr "alter")))))].
Proof.
  destruct (production_never_alters_nor_drops production
              (readings_model "asc" (VStr "alter"))
              (world (readings "desc") None VUndefined []) fresh "done")
    as (Hsafe & _ & _ & _); [done |].
  split; [exact Hsafe | done].
Defined.

(** Production, table absent, [createTable: false]: the rejection is the
    schema-not-found error, none of the three outcomes listed. *)
Lemma production_outcome_counterexample :
  is_str "production" (obj_get "NODE_ENV" production) = true
  /\ trace (run (world VUndefined None VUndefined [])
              (_sync_model_definition production (events [] (VStr "alter") (VBool false))
                 (Val (VFun "done")))
              fresh)
     = [get_table_schema;
        user_callback "done"
          (Cb1 (Some (buildError "model.tablecreation.schemanotfound" ["events"])))]
  /\ ~ stated_production_outcome (events [] (VStr "alter") (VBool false)) "done"
         (run (world VUndefined None VUndefined [])
            (_sync_model_definition production (events [] (VStr "alter") (VBool false))
               (Val (VFun "done")))
            fresh).
Proof.
  split; [done |]. split; [done |].
  intros [Hnoop | [[rest Hcreate] | Hsuspended]]; discriminate.
Qed.

(** Development, policy [alter], clustering order changed: straight to
    [drop_recreate_table]. *)
Lemma key_change_skips_alter_witness :
  exists rest,
    trace (run (world (readings "desc") None VUndefined [])
             (_sync_model_definition development (readings_model "asc" (VStr "alter"))
                (Val (VFun "done")))
             fresh)
    = get_table_schema :: drop_recreate_table (readings "asc") VUndefined :: rest.
Proof.
  destruct (key_change_skips_alter development (readings_model "asc" (VStr "alter"))
              (world (readings "desc") None VUndefined []) fresh "done"
              (readings "desc") (readings "asc") (readings "desc"))
    as [_ Hdrop]; [done | done | done | done | done | done |].
  by apply Hdrop.
Defined.

(** A column was added; the alter routine gives up with
    [alter_impossible] and the table is recreated. *)
Lemma alter_impossible_falls_back_witness :
  let live := VObj [("fields", VObj [("id", VStr "uuid")]); ("key", VArr [VStr "id"])] in
  trace (run (world live (Some (JsError "alter_impossible")) VUndefined [])
           (_sync_model_definition development (events [] (VStr "alter") VUndefined)
              (Val (VFun "done")))
           fresh)
  = [get_table_schema;
     init_alter_operations (events_schema []) live (events_schema []) live;
     drop_recreate_table (events_schema []) VUndefined;
     promise_all [];
     user_callback "done" (Cb2 None (VBool true))].
Proof.
  intros live.
  destruct (alter_impossible_falls_back development (events [] (VStr "alter") VUndefined)
              (world live (Some (JsError "alter_impossible")) VUndefined []) fresh "done"
              live (events_schema []) live (JsError "alter_impossible"))
    as [Hfall _]; [done | done | done | done | done | done | done | done |].
  by rewrite Hfall.
Defined.

(** [find({id: 5, $limit: 1}, {allow_filtering: true})] on [events]. *)
Lemma get_find_query_layout_witness :
  get_find_query (events [] VUndefined VUndefined)
    [("id", VNum 5); ("$limit", VNum 1)] [("allow_filtering", VBool true)]
  = inr {| query := "SELECT * FROM " +:+ quoted "events" +:+ " WHERE " +:+ quoted "id"
                    +:+ " = ? LIMIT 1 ALLOW FILTERING;";
           params := [VNum 5] |}.
Proof.
  by rewrite (get_find_query_layout (events [] VUndefined VUndefined)
                [("id", VNum 5); ("$limit", VNum 1)] [("allow_filtering", VBool true)]
                EmptyString "LIMIT 1" "*" EmptyString
                (where_clause [("id", VNum 5); ("$limit", VNum 1)])).
Defined.

(** With [materialized_view: 'by_name'] the statement selects from the
    view alone; the table, which the specification puts in front of the
    view, does not occur in it. *)
Lemma find_target_counterexample :
  let properties := events [] VUndefined VUndefined in
  let options := [("materialized_view", VStr "by_name")] in
  get_find_query properties [] options
  = inr {| query := "SELECT * FROM " +:+ quoted "by_name" +:+ ";"; params := [] |}
  /\ find_layout options (spec_find_target properties options) "*"
       EmptyString EmptyString EmptyString EmptyString
     = "SELECT * FROM " +:+ quoted "events.by_name" +:+ ";"
  /\ get_find_query properties [] options
     <> inr {| query := find_layout options (spec_find_target properties options) "*"
                          EmptyString EmptyString EmptyString EmptyString;
               params := [] |}
  /\ occurs "events" ("SELECT * FROM " +:+ quoted "by_name" +:+ ";") = false.
Proof.
  intros properties options.
  split; [done |]. split; [done |]. split; [| done].
  intros Heq. vm_compute in Heq. discriminate.
Qed.

(** The before-hooks bring the TTL of the call down from [300] to [60]:
    [60] is bound, first by [update] and last by [save]. *)
Lemma ttl_first_in_update_last_in_save_witness :
  let model := counters [("before_update", VFun "cap"); ("before_save", VFun "cap")] in
  let w := meddling (on_options (obj_set "ttl" (VNum 60))) (VObj [("rows", VArr [])]) in
  let options := Val (VObj [("ttl", VNum 300)]) in
  (exists q rest,
     statement_of (run w (update model [("id", VNum 5)] (VObj [("name", VStr "x")])
                            options (Val (VFun "done"))) fresh)
     = Some (q, VNum 60 :: [VStr "x"] ++ rest))
  /\ (exists q,
        statement_of (run w (save model (VObj [("id", VNum 5); ("name", VStr "x")])
                               options (Val (VFun "done"))) fresh)
        = Some (q, [VNum 5; VStr "x"] ++ [VNum 60])).
Proof.
  intros model w options.
  destruct (ttl_first_in_update_last_in_save model w
              [("id", VNum 5)] [("id", VNum 5)]
              (VObj [("name", VStr "x")]) (VObj [("name", VStr "x")])
              (VObj [("id", VNum 5); ("name", VStr "x")])
              (VObj [("id", VNum 5); ("name", VStr "x")])
              [("ttl", VNum 300)] [("ttl", VNum 60); ("prepare", VBool true)]
              (Val (VFun "done")) 60 fresh)
    as [Hupdate Hsave]; [done |].
  split.
  - by apply (Hupdate [quoted "name" +:+ "=?"] [VStr "x"] (where_clause [("id", VNum 5)])
                {| query := EmptyString; params := [] |}).
  - by apply (Hsave [quoted "id"; quoted "name"] ["?"; "?"] [VNum 5; VStr "x"]).
Defined.

(** The calls carry [ttl: 300], a number, and the before-hooks delete it
    from the options: the statements are built and bind no TTL at all. *)
Lemma ttl_removed_by_hook_counterexample :
  let model := counters [("before_update", VFun "strip"); ("before_save", VFun "strip")] in
  let w := meddling (on_options (obj_delete "ttl")) (VObj [("rows", VArr [])]) in
  let options := Val (VObj [("ttl", VNum 300)]) in
  statement_of (run w (update model [("id", VNum 5)] (VObj [("name", VStr "x")])
                         options (Val (VFun "done"))) fresh)
  = Some ("UPDATE " +:+ quoted "counters" +:+ " SET " +:+ quoted "name"
          +:+ "=? WHERE " +:+ quoted "id" +:+ " = ?;",
          [VStr "x"; VNum 5])
  /\ statement_of (run w (save model (VObj [("id", VNum 5); ("name", VStr "x")])
                            options (Val (VFun "done"))) fresh)
     = Some ("INSERT INTO " +:+ quoted "counters" +:+ " ( " +:+ quoted "id" +:+ " , "
             +:+ quoted "name" +:+ " ) VALUES ( ? , ? );",
             [VNum 5; VStr "x"]).
Proof. intros model w options. split; reflexivity. Qed.

(** The three before-hooks return [false]: [update] with a callback tells
    the callback, [delete] called with the callback in the place of the
    options tells it too, and [save] without a callback throws. *)
Lemma before_hook_returning_false_aborts_witness :
  let hooks := [("before_update", VFun "check"); ("before_delete", VFun "check");
                ("before_save", VFun "check")] in
  let model := counters hooks in
  let w := world VUndefined None (VBool false) [] in
  let told kind args :=
    {| outcome := inr (VObj []); final := fresh;
       trace := [apply_function "check" args;
                 user_callback "done" (Cb1 (Some (buildError kind [])))] |} in
  run w (update model [("id", VNum 5)] (VObj [("name", VStr "x")])
           (Val (VObj [])) (Val (VFun "done"))) fresh
  = told "model.update.before.error"
      [VObj [("id", VNum 5)]; VObj [("name", VStr "x")]; VObj [("prepare", VBool true)]]
  /\ run w (delete model [("id", VNum 5)] (Val (VFun "done")) Missing) fresh
     = told "model.delete.before.error"
         [VObj [("id", VNum 5)]; VObj [("prepare", VBool true)]]
  /\ run w (save model (VObj [("id", VNum 5)]) (Val (VObj [])) Missing) fresh
     = {| outcome := inl (buildError "model.save.before.error" []); final := fresh;
          trace := [apply_function "check"
                      [VObj [("id", VNum 5)]; VObj [("prepare", VBool true)]]] |}.
Proof.
  intros hooks model w told.
  destruct (before_hook_returning_false_aborts model w "check" [("id", VNum 5)]
              (VObj [("name", VStr "x")]) (VObj [("id", VNum 5)])
              (Val (VObj [])) (Val (VFun "done")) fresh)
    as (Hupdate & _ & _); [done | done | done |].
  destruct (before_hook_returning_false_aborts model w "check" [("id", VNum 5)]
              (VObj [("name", VStr "x")]) (VObj [("id", VNum 5)])
              (Val (VFun "done")) Missing fresh)
    as (_ & Hdelete & _); [done | done | done |].
  destruct (before_hook_returning_false_aborts model w "check" [("id", VNum 5)]
              (VObj [("name", VStr "x")]) (VObj [("id", VNum 5)])
              (Val (VObj [])) Missing fresh)
    as (_ & _ & Hsave); [done | done | done |].
  split; [by rewrite Hupdate |]. split; [by rewrite Hdelete | by rewrite Hsave].
Defined.

(** A before-hook that returns [null], a falsy value: the update is built
    and executed all the same, and the callback is told of a success. *)
Lemma before_hook_falsy_counterexample :
  let model := counters [("before_update", VFun "check")] in
  let w := world VUndefined None VNull [] in
  let hook_args := [VObj [("id", VNum 5)]; VObj [("name", VStr "x")];
                    VObj [("prepare", VBool true)]] in
  let r := run w (update model [("id", VNum 5)] (VObj [("name", VStr "x")])
                    (Val (VObj [])) (Val (VFun "done"))) fresh in
  truthy (fst (w [] (apply_function "check" hook_args))) = false
  /\ r = {| outcome := inr (VObj []); final := set_ready (VBool true) fresh;
            trace :=
              [apply_function "check" hook_args;
               execute_query ("UPDATE " +:+ quoted "counters" +:+ " SET " +:+ quoted "name"
                              +:+ "=? WHERE " +:+ quoted "id" +:+ " = ?;")
                 [VStr "x"; VNum 5] (VObj [("prepare", VBool true)]);
               user_callback "done" (Cb2 None (VObj [("rows", VArr [])]))] |}
  /\ r <> aborted "model.update.before.error" "check" hook_args (Val (VFun "done")) fresh.
Proof.
  intros model w hook_args r.
  split; [done |]. split; [done |].
  intros Hrun. apply (f_equal trace) in Hrun. discriminate.
Qed.

(** A model made ready by [init] stays ready through a find, a failing
    [syncDB] under production and a truncate. *)
Lemma readiness_never_reverts_witness :
  let w := world (readings "desc") None VUndefined [] in
  let model := readings_model "asc" (VStr "alter") in
  let calls := [(w, call_find 1%positive (Val (VObj [])) (Val (VFun "done")));
                (w, call_syncDB (Val (VFun "done")));
                (w, call_truncate (Val (VFun "done")))] in
  let s := final (run w (init (Val (VFun "done")) Missing) fresh) in
  outcome (run w is_table_ready s) = inr true
  /\ outcome (run w is_table_ready (perform_all production model calls s)) = inr true.
Proof.
  intros w model calls s.
  destruct (readiness_never_reverts production model "done") as (Hmono & _ & _ & _).
  split; [done |].
  apply (Hmono calls w w s); [| done].
  repeat constructor.
Defined.

(** [findOne({id: 5}, {}, done)] with two rows in the table: the caller's
    object now carries [$limit: 1] and [done] gets the first row. *)
Lemma findOne_limits_then_gives_first_witness :
  let first := VObj [("id", VNum 5); ("name", VStr "x")] in
  let w := world VUndefined None VUndefined [first; VObj [("id", VNum 5); ("name", VStr "y")]] in
  let s := {| _ready := VUndefined; heap := {[ 1%positive := [("id", VNum 5)] ]} |} in
  let r := run w (findOne (events [] VUndefined VUndefined) 1%positive
                    (Val (VObj [("raw", VBool true)])) (Val (VFun "done"))) s in
  heap (final r) !! 1%positive = Some [("id", VNum 5); ("$limit", VNum 1)]
  /\ exists queryOptions,
       trace r
       = [execute_query ("SELECT * FROM " +:+ quoted "events" +:+ " WHERE " +:+ quoted "id"
                         +:+ " = ? LIMIT 1;")
            [VNum 5] queryOptions;
          user_callback "done" (Cb2 None first)].
Proof.
  intros first w s r.
  destruct (findOne_limits_then_gives_first (events [] VUndefined VUndefined) w
              1%positive [("id", VNum 5)] (Val (VObj [("raw", VBool true)])) "done" s)
    as (_ & Hlimit & Hfirst); [done | done |].
  split; [exact Hlimit |].
  pose (rows := [first; VObj [("id", VNum 5); ("name", VStr "y")]]).
  destruct (Hfirst {| query := "SELECT * FROM " +:+ quoted "events" +:+ " WHERE "
                               +:+ quoted "id" +:+ " = ? LIMIT 1;";
                      params := [VNum 5] |}
              (VObj [("rows", VArr rows)]) rows rows)
    as [queryOptions Htrace]; [done | done | done | done | done |].
  by exists queryOptions.
Defined.

(** ** Further scenarios *)

(** [find({id: 5}, {})] without a callback. *)
Lemma find_without_callback_throws_witness :
  run (world VUndefined None VUndefined [])
    (find (events [] VUndefined VUndefined) 1%positive (Val (VObj [])) Missing) fresh
  = {| outcome := inl (buildError "model.find.cberror" []); final := fresh; trace := [] |}.
Proof.
  destruct (find_without_callback_throws (events [] VUndefined VUndefined)
              (world VUndefined None VUndefined []) 1%positive [] Missing fresh)
    as [Hfind _]; [done | done |].
  exact Hfind.
Defined.

(** [find({id: 5}, {return_query: true})]: the statement comes back and
    the model is left alone. *)
Lemma find_return_query_is_pure_witness :
  let s := {| _ready := VUndefined; heap := {[ 1%positive := [("id", VNum 5)] ]} |} in
  run (world VUndefined None VUndefined [])
    (find (events [] VUndefined VUndefined) 1%positive
       (Val (VObj [("return_query", VBool true)])) Missing) s
  = {| outcome := inr (VObj [("query", VStr ("SELECT * FROM " +:+ quoted "events"
                                             +:+ " WHERE " +:+ quoted "id" +:+ " = ?;"));
                             ("params", VArr [VNum 5])]);
       final := s; trace := [] |}.
Proof.
  intros s.
  by rewrite (find_return_query_is_pure (events [] VUndefined VUndefined)
                (world VUndefined None VUndefined []) 1%positive [("id", VNum 5)]
                [("return_query", VBool true)] Missing
                {| query := "SELECT * FROM " +:+ quoted "events" +:+ " WHERE "
                            +:+ quoted "id" +:+ " = ?;";
                   params := [VNum 5] |} s).
Defined.

(** [find({colour: 1}, done)] on [events], which has no such column. *)
Lemma find_parse_error_witness :
  let s := {| _ready := VUndefined; heap := {[ 1%positive := [("colour", VNum 1)] ]} |} in
  run (world VUndefined None VUndefined [])
    (find (H := Examples.strict) (events [] VUndefined VUndefined) 1%positive
       (Val (VObj [])) (Val (VFun "done"))) s
  = {| outcome := inr (VObj []); final := s;
       trace := [user_callback "done" (Cb1 (Some Examples.unknown_column))] |}.
Proof.
  intros s.
  destruct (find_parse_error (H := Examples.strict) (events [] VUndefined VUndefined)
              (world VUndefined None VUndefined []) 1%positive [("colour", VNum 1)] []
              Examples.unknown_column s)
    as [Htold _]; [done | done |].
  apply Htold.
Defined.

(** [find({id: 5}, done)] with one row in the table: the row comes as a
    model instance, without its [columns]. *)
Lemma find_delivers_witness :
  let row := VObj [("id", VNum 5); ("columns", VNull)] in
  let s := {| _ready := VUndefined; heap := {[ 1%positive := [("id", VNum 5)] ]} |} in
  exists queryOptions,
    run (world VUndefined None VUndefined [row])
      (find (events [] VUndefined VUndefined) 1%positive (Val (VObj []))
         (Val (VFun "done"))) s
    = {| outcome := inr (VObj []); final := set_ready (VBool true) s;
         trace := [execute_query ("SELECT * FROM " +:+ quoted "events" +:+ " WHERE "
                                  +:+ quoted "id" +:+ " = ?;") [VNum 5] queryOptions;
                   user_callback "done"
                     (Cb2 None (VArr [VObj [("id", VNum 5); ("_modified", VObj [])]]))] |}.
Proof.
  intros row s.
  destruct (find_delivers (events [] VUndefined VUndefined)
              (world VUndefined None VUndefined [row]) 1%positive [("id", VNum 5)] []
              "done"
              {| query := "SELECT * FROM " +:+ quoted "events" +:+ " WHERE "
                          +:+ quoted "id" +:+ " = ?;";
                 params := [VNum 5] |}
              None (VObj [("rows", VArr [row])]) s)
    as (queryOptions & _ & Hrows); [done | done | done | done |].
  exists queryOptions.
  by rewrite (Hrows [[("id", VNum 5); ("columns", VNull)]]).
Defined.

(** [eachRow({}, each)], two arguments: nothing is moved and there is no
    [onReadable].  [stream({}, {}, done)], three arguments: [done] is
    taken for the callback and the options for [onReadable].
    [eachRow({}, {}, each, 5)], four arguments: the callback is no
    function. *)
Lemma eachRow_stream_guards_witness :
  let w := world VUndefined None VUndefined [] in
  let model := counters [] in
  let thrown e := {| outcome := inl e; final := fresh; trace := [] |} in
  run w (eachRow model 1%positive (Val (VFun "each")) Missing Missing) fresh
  = thrown (buildError "model.find.eachrowerror"
              ["no valid onReadable function was provided"])
  /\ run w (stream model 1%positive (Val (VObj [])) (Val (VFun "done")) Missing) fresh
     = thrown (buildError "model.find.streamerror"
                 ["no valid onReadable function was provided"])
  /\ run w (eachRow model 1%positive (Val (VObj [])) (Val (VFun "each"))
              (Val (VNum 5))) fresh
     = thrown (buildError "model.find.cberror" []).
Proof.
  intros w model thrown.
  destruct (eachRow_stream_guards model w 1%positive (Val (VFun "each")) Missing Missing
              fresh) as [Htwo _].
  destruct (eachRow_stream_guards model w 1%positive (Val (VObj [])) (Val (VFun "done"))
              Missing fresh) as [Hthree _].
  destruct (eachRow_stream_guards model w 1%positive (Val (VObj [])) (Val (VFun "each"))
              (Val (VNum 5)) fresh) as [_ Hfour].
  destruct Htwo as [Heach _]; [done |].
  destruct Hthree as [_ Hstream]; [done |].
  destruct Hfour as [Hcb _]; [done | done |].
  split; [exact Heach |]. split; [exact Hstream | exact Hcb].
Defined.

(** [update({id: 5}, {name: 'x'}, {ttl: 300, if_exists: true})] on a model
    whose before-hook sets [name] to ['changed'] in the values it is
    handed: ['changed'] is bound. *)
Lemma update_statement_witness :
  let model := counters [("before_update", VFun "rename")] in
  let w := meddling (on_second (obj_set "name" (VStr "changed")))
             (VObj [("rows", VArr [])]) in
  statement_of
    (run w (update model [("id", VNum 5)] (VObj [("name", VStr "x")])
              (Val (VObj [("ttl", VNum 300); ("if_exists", VBool true)]))
              (Val (VFun "done")))
       fresh)
  = Some ("UPDATE " +:+ quoted "counters" +:+ " USING TTL ? SET " +:+ quoted "name"
          +:+ "=? WHERE " +:+ quoted "id" +:+ " = ? IF EXISTS;",
          [VNum 300; VStr "changed"; VNum 5]).
Proof.
  intros model w.
  by rewrite (update_statement model w [("id", VNum 5)] [("id", VNum 5)]
                (VObj [("name", VStr "x")]) (VObj [("name", VStr "changed")])
                [("ttl", VNum 300); ("if_exists", VBool true)]
                [("ttl", VNum 300); ("if_exists", VBool true); ("prepare", VBool true)]
                (Val (VFun "done"))
                [quoted "name" +:+ "=?"] [VStr "changed"]
                (where_clause [("id", VNum 5)])
                {| query := EmptyString; params := [] |} fresh).
Defined.

(** [delete({id: 5}, {ttl: 300, if_exists: true})] on a model whose
    before-hook sets [id] to [7] in the query object: the row [7] is
    deleted, and the options leave no mark on the statement. *)
Lemma delete_statement_witness :
  let model := counters [("before_delete", VFun "redirect")] in
  let w := meddling (on_first (obj_set "id" (VNum 7))) (VObj [("rows", VArr [])]) in
  statement_of
    (run w (delete model [("id", VNum 5)]
              (Val (VObj [("ttl", VNum 300); ("if_exists", VBool true)]))
              (Val (VFun "done")))
       fresh)
  = Some ("DELETE FROM " +:+ quoted "counters" +:+ " WHERE " +:+ quoted "id" +:+ " = ?;",
          [VNum 7]).
Proof.
  intros model w.
  by rewrite (delete_statement model w [("id", VNum 5)] [("id", VNum 7)]
                [("ttl", VNum 300); ("if_exists", VBool true)]
                [("ttl", VNum 300); ("if_exists", VBool true); ("prepare", VBool true)]
                (Val (VFun "done"))
                (where_clause [("id", VNum 7)]) fresh).
Defined.

(** Saving [{id: 5, name: 'x'}] with [{if_not_exist: true, ttl: 300}] on a
    model whose before-hook sets [name] to ['changed'] in the instance. *)
Lemma save_statement_witness :
  let model := counters [("before_save", VFun "rename")] in
  let w := meddling (on_first (obj_set "name" (VStr "changed")))
             (VObj [("rows", VArr [])]) in
  statement_of
    (run w (save model (VObj [("id", VNum 5); ("name", VStr "x")])
              (Val (VObj [("if_not_exist", VBool true); ("ttl", VNum 300)]))
              (Val (VFun "done")))
       fresh)
  = Some ("INSERT INTO " +:+ quoted "counters" +:+ " ( " +:+ quoted "id" +:+ " , "
          +:+ quoted "name" +:+ " ) VALUES ( ? , ? ) IF NOT EXISTS USING TTL ?;",
          [VNum 5; VStr "changed"; VNum 300]).
Proof.
  intros model w.
  by rewrite (save_statement model w
                (VObj [("id", VNum 5); ("name", VStr "x")])
                (VObj [("id", VNum 5); ("name", VStr "changed")])
                [("if_not_exist", VBool true); ("ttl", VNum 300)]
                [("if_not_exist", VBool true); ("ttl", VNum 300); ("prepare", VBool true)]
                (Val (VFun "done"))
                [quoted "id"; quoted "name"] ["?"; "?"] [VNum 5; VStr "changed"] fresh).
Defined.

(** An update and a delete by an unknown column tell the callback; an
    update with a condition on an unknown column throws, callback or
    not. *)
Lemma clause_errors_witness :
  let w := world VUndefined None VUndefined [] in
  let model := counters [] in
  let told := {| outcome := inr (VObj []); final := fresh;
                 trace := [user_callback "done" (Cb1 (Some Examples.unknown_column))] |} in
  run w (update (H := Examples.strict) model [("colour", VNum 1)]
           (VObj [("name", VStr "x")]) (Val (VObj [])) (Val (VFun "done"))) fresh
  = told
  /\ run w (delete (H := Examples.strict) model [("colour", VNum 1)]
              (Val (VObj [])) (Val (VFun "done"))) fresh
     = told
  /\ run w (update (H := Examples.strict) model [("id", VNum 5)]
              (VObj [("name", VStr "x")])
              (Val (VObj [("conditions", VObj [("colour", VNum 1)])]))
              (Val (VFun "done"))) fresh
     = {| outcome := inl Examples.unknown_column; final := fresh; trace := [] |}.
Proof.
  intros w model told.
  destruct (clause_errors (H := Examples.strict) model w [("colour", VNum 1)]
              (VObj [("name", VStr "x")]) [] Examples.unknown_column fresh)
    as [Hupdate Hdelete].
  destruct (clause_errors (H := Examples.strict) model w [("id", VNum 5)]
              (VObj [("name", VStr "x")]) [("conditions", VObj [("colour", VNum 1)])]
              Examples.unknown_column fresh)
    as [Hcondition _].
  destruct (Hupdate [("colour", VNum 1)] (VObj [("name", VStr "x")])
              [("prepare", VBool true)] [quoted "name" +:+ "=?"] [VStr "x"])
    as [Hwhere _]; [done | done |].
  destruct Hwhere as [Hupdated _]; [done |].
  destruct (Hdelete [("colour", VNum 1)] [("prepare", VBool true)])
    as [Hdeleted _]; [done | done |].
  destruct (Hcondition [("id", VNum 5)] (VObj [("name", VStr "x")])
              [("conditions", VObj [("colour", VNum 1)]); ("prepare", VBool true)]
              [quoted "name" +:+ "=?"] [VStr "x"])
    as [_ Hif]; [done | done |].
  split; [by rewrite Hupdated |]. split; [by rewrite Hdeleted |].
  by rewrite (Hif (where_clause [("id", VNum 5)]) (Val (VFun "done"))).
Defined.

(** A delete whose after-hook answers [false]: the row is gone and the
    callback is told of an error.  A save under [if_not_exist] whose
    driver reports a success without a result: reading the result
    throws where nobody catches it, and the callback is never called. *)
Lemma mutation_completion_witness :
  let audited := counters [("after_delete", VFun "audit")] in
  let removal := "DELETE FROM " +:+ quoted "counters" +:+ " WHERE " +:+ quoted "id"
                 +:+ " = ?;" in
  let insert := "INSERT INTO " +:+ quoted "counters" +:+ " ( " +:+ quoted "id"
                +:+ " ) VALUES ( ? ) IF NOT EXISTS;" in
  let silent := meddling (fun args => (VUndefined, args)) VUndefined in
  (exists queryOptions,
     trace (run (world VUndefined None (VBool false) [])
              (delete audited [("id", VNum 5)] (Val (VObj [])) (Val (VFun "done"))) fresh)
     = [execute_query removal [VNum 5] queryOptions;
        apply_function "audit" [VObj [("id", VNum 5)]; VObj [("prepare", VBool true)]];
        user_callback "done" (Cb1 (Some (buildError "model.delete.after.error" [])))])
  /\ (exists queryOptions,
        trace (run silent
                 (save (counters []) (VObj [("id", VNum 5)])
                    (Val (VObj [("if_not_exist", VBool true)])) (Val (VFun "done"))) fresh)
        = [execute_query insert [VNum 5] queryOptions;
           uncaught (type_error "Cannot read property 'rows' of undefined")]).
Proof.
  intros audited removal insert silent. split.
  - destruct (mutation_completion audited (world VUndefined None (VBool false) [])
                (deleting [("id", VNum 5)]) [] "done" removal [VNum 5] fresh)
      as (queryOptions & _ & _ & Htrace); [done |].
    exists queryOptions. exact Htrace.
  - destruct (mutation_completion (counters []) silent
                (saving (VObj [("id", VNum 5)])) [("if_not_exist", VBool true)]
                "done" insert [VNum 5] fresh)
      as (queryOptions & _ & _ & Htrace); [done |].
    exists queryOptions. exact Htrace.
Defined.

(** A save without a callback against a driver that fails: the error is
    thrown where nobody catches it. *)
Lemma mutation_without_callback_witness :
  let model := events [] VUndefined VUndefined in
  let q := "INSERT INTO " +:+ quoted "events" +:+ " ( " +:+ quoted "id"
           +:+ " ) VALUES ( ? );" in
  exists queryOptions,
    run (Examples.failing (JsError "timeout"))
      (save model (VObj [("id", VNum 5)]) (Val (VObj [])) Missing) fresh
    = {| outcome := inr (VObj []); final := set_ready (VBool true) fresh;
         trace := [execute_query q [VNum 5] queryOptions;
                   uncaught (buildErrorFrom "model.save.dberror" (JsError "timeout"))] |}.
Proof.
  intros model q.
  destruct (mutation_without_callback model (Examples.failing (JsError "timeout"))
              (saving (VObj [("id", VNum 5)])) [] Missing q [VNum 5] fresh)
    as (queryOptions & Hout & Hfinal & Htrace); [done | done | done |].
  exists queryOptions.
  destruct (run _ _ _) as [o f t]. simpl in *. by rewrite Hout, Hfinal, Htrace.
Defined.

(** [update(..., {return_query: true})] with a before-hook: the hook is
    called, the driver is not. *)
Lemma return_query_sends_nothing_witness :
  let model := counters [("before_update", VFun "check")] in
  let r := run (world VUndefined None VUndefined [])
             (update model [("id", VNum 5)] (VObj [("name", VStr "x")])
                (Val (VObj [("return_query", VBool true)])) Missing) fresh in
  executed (trace r) = None /\ final r = fresh.
Proof.
  intros model r.
  by apply (return_query_sends_nothing model (world VUndefined None VUndefined [])
              (updating [("id", VNum 5)] (VObj [("name", VStr "x")]))
              [("return_query", VBool true)] Missing fresh).
Defined.

(** [syncDB] for a model with an index mapping and a graph mapping, on
    a table that needs no change: the success comes after both
    mappings. *)
Lemma syncDB_success_after_mappings_witness :
  let model := Examples.mapped true in
  let put := put_mapping "ks_events" "events" (VObj [("discover", VStr ".*")]) in
  let chart := put_graph_mapping "ks_graph" "events" (VObj [("relations", VObj [])]) in
  let before := [get_table_schema; assert_index "ks" "ks_events"; put;
                 assert_graph "ks_graph"; chart] in
  trace (run (world (schema model) None VUndefined [])
           (syncDB development model (Val (VFun "done"))) fresh)
  = before ++ [user_callback "done" (Cb2 None (VBool false))]
  /\ put ∈ before /\ chart ∈ before.
Proof.
  intros model put chart before.
  split; [done |].
  destruct (syncDB_success_after_mappings development model "done"
              (world (schema model) None VUndefined []) fresh before [] (VBool false))
    as [Hput Hchart]; [done |].
  split; [by apply Hput | by apply Hchart].
Defined.

(** A new table with a secondary index: the index is built after the
    table, and the callback hears that the schema has changed. *)
Lemma created_table_gets_its_indexes_witness :
  let model := events [("indexes", VArr [VStr "name"])] VUndefined VUndefined in
  run (world VUndefined None VUndefined [])
    (_sync_model_definition development model (Val (VFun "done"))) fresh
  = {| outcome := inr tt; final := fresh;
       trace := [get_table_schema; create_table (schema model);
                 create_indexes (VArr [VStr "name"]); promise_all [None];
                 user_callback "done" (Cb2 None (VBool true))] |}.
Proof.
  intros model.
  destruct (created_table_gets_its_indexes development model
              (world VUndefined None VUndefined []) fresh "done" VUndefined)
    as [_ Hcreated]; [done | done | done |].
  destruct Hcreated as (args & -> & Hall & _); [done |].
  rewrite Hall; [done |].
  by repeat constructor.
Defined.

(** A column was added and the table could be altered. *)
Lemma alter_success_reports_no_change_witness :
  let live := VObj [("fields", VObj [("id", VStr "uuid")]); ("key", VArr [VStr "id"])] in
  run (world live None VUndefined [])
    (_sync_model_definition development (events [] (VStr "alter") VUndefined)
       (Val (VFun "done"))) fresh
  = {| outcome := inr tt; final := fresh;
       trace := [get_table_schema;
                 init_alter_operations (events_schema []) live (events_schema []) live;
                 user_callback "done" (Cb1 None)] |}.
Proof.
  intros live.
  by rewrite (alter_success_reports_no_change development
                (events [] (VStr "alter") VUndefined) (world live None VUndefined [])
                fresh "done" live (events_schema []) live).
Defined.

(** A column was added: under [migration: 'drop'] the table is dropped
    and created again, under [migration: 'Alter'], which is no policy,
    the change is refused. *)
Lemma drop_policy_or_suspension_witness :
  let live := VObj [("fields", VObj [("id", VStr "uuid")]); ("key", VArr [VStr "id"])] in
  let w := world live None VUndefined [] in
  (exists rest,
     trace (run w (_sync_model_definition development (events [] (VStr "drop") VUndefined)
                     (Val (VFun "done"))) fresh)
     = get_table_schema :: drop_recreate_table (events_schema []) VUndefined :: rest)
  /\ trace (run w (_sync_model_definition development
                     (events [] (VStr "Alter") VUndefined) (Val (VFun "done"))) fresh)
     = [get_table_schema;
        user_callback "done"
          (Cb1 (Some (migration_suspended (events [] (VStr "Alter") VUndefined))))].
Proof.
  intros live w. split.
  - destruct (drop_policy_or_suspension development (events [] (VStr "drop") VUndefined)
                w fresh "done" live (events_schema []) live)
      as (Hdrop & _ & _); [done | done | done | done | done |].
    by apply Hdrop.
  - destruct (drop_policy_or_suspension development (events [] (VStr "Alter") VUndefined)
                w fresh "done" live (events_schema []) live)
      as (_ & Hrefused & _); [done | done | done | done | done |].
    by rewrite Hrefused.
Defined.

(** The live table has lost its description: [syncDB] never calls
    back. *)
Lemma invalid_schema_never_calls_back_witness :
  trace (run (world (VObj [("key", VArr [VStr "id"])]) None VUndefined [])
           (syncDB (H := Examples.strict) development (events [] VUndefined VUndefined)
              (Val (VFun "done"))) fresh)
  = [get_table_schema;
     uncaught (buildError "model.validator.invalidschema" ["no fields"])].
Proof.
  destruct (invalid_schema_never_calls_back (H := Examples.strict) development
              (events [] VUndefined VUndefined)
              (world (VObj [("key", VArr [VStr "id"])]) None VUndefined []) fresh "done"
              (VObj [("key", VArr [VStr "id"])]) (JsError "no fields"))
    as [_ Hsync]; [done | done | right; split; [by eexists | done] |].
  by rewrite Hsync.
Defined.

(** A model with an index mapping and no graph, on a table that needs
    no change. *)
Lemma syncDB_index_stage_witness :
  let model := Examples.mapped false in
  run (world (schema model) None VUndefined [])
    (syncDB development model (Val (VFun "done"))) fresh
  = {| outcome := inr tt; final := set_ready (VBool true) fresh;
       trace := [get_table_schema; assert_index "ks" "ks_events";
                 put_mapping "ks_events" "events" (VObj [("discover", VStr ".*")]);
                 user_callback "done" (Cb2 None (VBool false))] |}.
Proof.
  intros model.
  destruct (syncDB_index_stage development model (world (schema model) None VUndefined [])
              fresh "done" (schema model) (schema model) (schema model))
    as (_ & _ & Hready); [done | done | done | done | done | done |].
  by rewrite Hready.
Defined.

(** An instance of [readings], whose key is [[id, ts]]: the value of
    the instance plays no part. *)
Lemma instance_delete_uses_the_key_witness :
  let model := readings_model "asc" VUndefined in
  instance_delete model
    (VObj [("id", VNum 5); ("ts", VNum 7); ("value", VNum 20)])
    (Val (VFun "done")) Missing
  = instance_delete model
      (VObj [("id", VNum 5); ("ts", VNum 7); ("value", VNum 21)])
      (Val (VFun "done")) Missing.
Proof.
  intros model.
  destruct (instance_delete_uses_the_key model
              (VObj [("id", VNum 5); ("ts", VNum 7); ("value", VNum 21)])
              (Val (VFun "done")) Missing [VStr "id"; VStr "ts"])
    as [_ Hsame]; [done | done |].
  apply Hsame. intros n Hn.
  apply elem_of_cons in Hn as [-> | Hn]; [done |].
  apply list_elem_of_singleton in Hn as ->. done.
Defined.

(** The properties of a vertex of [events] are used again for a vertex
    of [places]: the second vertex goes to the graph of [events], under
    its label. *)
Lemma createVertex_marks_the_object_witness :
  let st : Graph.Store := {[ 1%positive := [("title", VStr "x")] ]} in
  let r1 := Graph.run (Examples.clients (VArr []))
              (Graph.createVertex (Examples.mapped true) 1%positive (VFun "done")) st in
  let r2 := Graph.run (Examples.clients (VArr []))
              (Graph.createVertex (Examples.places (VObj [])) 1%positive (VFun "done"))
              (Graph.store r1) in
  exists script bindings rest,
    Graph.requests r2 = Graph.gremlin_execute script bindings :: rest
    /\ obj_get "__graphName" bindings = VStr "ks_graph"
    /\ obj_get "__vertexLabel" bindings = VStr "events".
Proof.
  intros st r1 r2.
  destruct (createVertex_marks_the_object (Examples.clients (VArr []))
              (Examples.mapped true) (Examples.places (VObj [])) 1%positive
              [("title", VStr "x")] (VFun "done") (VFun "done")
              (Examples.clients (VArr [])) st)
    as [_ Hsecond]; [done | done | done | done |].
  exact Hsecond.
Defined.

(** [places] without a Gremlin client: [getVertex] throws, and so does
    [createVertex], after it has written into the caller's object. *)
Lemma graph_calls_need_a_client_witness :
  let st : Graph.Store := {[ 1%positive := [("title", VStr "x")] ]} in
  let model := Examples.places VUndefined in
  Graph.run (Examples.clients (VArr [])) (Graph.getVertex model (VNum 7) (VFun "done")) st
  = {| Graph.returned := inl Graph.no_gremlin_client; Graph.store := st;
       Graph.requests := [] |}
  /\ Graph.run (Examples.clients (VArr []))
       (Graph.createVertex model 1%positive (VFun "done")) st
     = {| Graph.returned := inl Graph.no_gremlin_client;
          Graph.store := {[ 1%positive := [("title", VStr "x");
                                           ("__graphName", VStr "geo_graph");
                                           ("__vertexLabel", VStr "places")] ]};
          Graph.requests := [] |}.
Proof.
  intros st model.
  destruct (graph_calls_need_a_client (Examples.clients (VArr [])) model (VNum 7)
              EmptyString 1%positive [("title", VStr "x")] (VFun "done") st)
    as (Hget & _ & _ & _ & Hcreate & _); [done | done |].
  split; [exact Hget |].
  rewrite Hcreate. by f_equal.
Defined.

(** The client answers two vertices: the callback gets the first. *)
Lemma gremlin_script_gives_the_first_result_witness :
  let request := Graph.gremlin_execute "g.V()" [] in
  Graph.requests
    (Graph.run (Examples.clients (VArr [VStr "v1"; VStr "v2"]))
       (Graph._execute_gremlin_script (Examples.mapped true) "g.V()" []
          (Graph.tell (VFun "done"))) ∅)
  = [request; Graph.callback_called "done" (Cb2 None (VStr "v1"))].
Proof.
  intros request.
  destruct (gremlin_script_gives_the_first_result
              (Examples.clients (VArr [VStr "v1"; VStr "v2"])) (Examples.mapped true)
              "g.V()" [] "done" ∅)
    as (_ & _ & _ & Hfirst & _); [done |].
  by apply (Hfirst (VStr "v1") [VStr "v2"]).
Defined.

(** A search that names its own index: the index stands, the type is
    filled in. *)
Lemma search_fills_index_and_type_witness :
  let st : Graph.Store := {[ 1%positive := [("index", VStr "archive")] ]} in
  Graph.requests
    (Graph.run (Examples.clients (VObj []))
       (Graph.search (Examples.mapped false) 1%positive (VFun "done")) st)
  = [Graph.es_search [("index", VStr "archive"); ("type", VStr "events")];
     Graph.callback_called "done" (Cb2 None (VObj []))].
Proof.
  intros st.
  destruct (search_fills_index_and_type (Examples.clients (VObj [])) (Examples.mapped false)
              1%positive [("index", VStr "archive")] "done" st)
    as (_ & Hsent & _); [done |].
  by rewrite Hsent.
Defined.

(** [eachRow({colour: 1}, {}, onRow, done)] on [events]: the parser's
    error is thrown, [done] is not called. *)
Lemma eachRow_stream_throw_parse_errors_witness :
  let s := {| _ready := VUndefined; heap := {[ 1%positive := [("colour", VNum 1)] ]} |} in
  run (world VUndefined None VUndefined [])
    (eachRow (H := Examples.strict) (events [] VUndefined VUndefined) 1%positive
       (Val (VObj [])) (Val (VFun "onRow")) (Val (VFun "done"))) s
  = {| outcome := inl Examples.unknown_column; final := s; trace := [] |}.
Proof.
  intros s.
  destruct (eachRow_stream_throw_parse_errors (H := Examples.strict)
              (events [] VUndefined VUndefined) (world VUndefined None VUndefined [])
              1%positive [("colour", VNum 1)] [] "onRow" "done" EmptyString EmptyString
              Examples.unknown_column s)
    as [Heach _]; [done | done | done | done |].
  exact Heach.
Defined.
